(** * CarND-Semantic-Segmentation: the FCN-8s decoder, its loss, the data
    augmentation and the training loop of [main.py]

  The program is a short Python script over two libraries: numpy (the
  image batches) and TensorFlow 1.x (the computation graph).  The script's
  own functions are embedded below under their source names
  ([load_vgg], [layers], [optimize], [augment_data], [train_nn]); the library
  operations they call are modelled in the modules [np] and [tf] after
  their documented behaviour.

  - numpy arrays are dynamically ranked: a [shape] and a nest of items.
    Basic slicing returns a view, [np.concatenate] a new array; the
    value-level model comes first and a store of buffers refines it
    where aliasing matters.
  - a TensorFlow tensor is a node of a graph that the script builds; the
    graph is given a shape semantics (what the builder checks) and, for
    the loss head, a value semantics over exact real arithmetic.
  - the training loop runs in a state-and-exception monad whose state
    records the session, the batch source and the trace of calls. *)

From Stdlib Require Import List ZArith QArith Reals Lra Lia String Bool Arith.
From stdpp Require Import base gmap.
Import ListNotations.

Set Warnings "-register-all".

(** ** Python exceptions and the result of a call that may raise *)

Inductive exn : Type :=
| IndexError   (* too many indices for array *)
| ValueError.  (* shapes that do not fit *)

Inductive result (X : Type) : Type :=
| Ok (x : X)
| Raise (e : exn).
Arguments Ok {X} x.
Arguments Raise {X} e.

#[export] Instance result_ret : MRet result := fun _ x => Ok x.
#[export] Instance result_bind : MBind result := fun _ _ k c =>
  match c with
  | Ok x => k x
  | Raise e => Raise e
  end.

(** ** numpy *)

Module np.
Section Arrays.
Context {A : Type}.

(** The items of an array, nested axis by axis: an array of rank 0 is a
    [Leaf], an array of rank [r+1] a [Node] of arrays of rank [r]. *)
Inductive nested : Type :=
| Leaf (x : A)
| Node (items : list nested).

(** [ndarray.shape] is kept with the items: an array with a zero axis has
    no items to read the later axes from. *)
Record ndarray : Type := mk_array { shape : list nat; elems : nested }.

(** [a.ndim] *)
Definition ndim (a : ndarray) : nat := List.length (shape a).

Definition items (t : nested) : list nested :=
  match t with
  | Node l => l
  | Leaf _ => []
  end.

(** The nest is rectangular and fits the shape: what numpy guarantees of
    every array. *)
Fixpoint has_shape (s : list nat) (t : nested) : bool :=
  match s, t with
  | [], Leaf _ => true
  | n :: s', Node l => Nat.eqb (List.length l) n && forallb (has_shape s') l
  | _, _ => false
  end.

Definition wf (a : ndarray) : bool := has_shape (shape a) (elems a).

(** Reversal of axis [k]: what the slice [::-1] does at position [k]
    when every other position is [:]. *)
Fixpoint rev_axis (k : nat) (t : nested) : nested :=
  match t with
  | Leaf x => Leaf x
  | Node l =>
      match k with
      | O => Node (rev l)
      | S k' => Node (map (rev_axis k') l)
      end
  end.

(** [a[:, ..., ::-1, ..., :]] with four index expressions, the one at
    position [axis] being [::-1].  An array of rank below four has too
    few axes for four indices; axes beyond the fourth are kept whole. *)
Definition getitem4_rev (axis : nat) (a : ndarray) : result ndarray :=
  if Nat.leb 4 (ndim a)
  then Ok (mk_array (shape a) (rev_axis axis (elems a)))
  else Raise IndexError.

(** [np.concatenate(arrays, axis=0)]: at least one array, none of rank 0,
    and all shapes equal after the first axis. *)
Definition concatenate (arrays : list ndarray) : result ndarray :=
  match arrays with
  | [] => Raise ValueError
  | a0 :: _ =>
      match shape a0 with
      | [] => Raise ValueError
      | _ :: tl0 =>
          if forallb (fun a => match shape a with
                               | [] => false
                               | _ :: tl => bool_decide (tl = tl0)
                               end) arrays
          then Ok (mk_array
                     (list_sum (map (fun a => hd O (shape a)) arrays) :: tl0)
                     (Node (flat_map (fun a => items (elems a)) arrays)))
          else Raise ValueError
      end
  end.

(** [a[lo:hi]] for [0 <= lo <= hi]: basic slicing of the first axis. *)
Definition getitem_range (lo hi : nat) (a : ndarray) : result ndarray :=
  match shape a with
  | [] => Raise IndexError
  | n :: tl =>
      Ok (mk_array (Nat.min hi n - Nat.min lo n :: tl)
                   (Node (firstn (hi - lo) (skipn lo (items (elems a))))))
  end.

(** [a[i0, i1, ...]] on the items, for indices in range. *)
Fixpoint item (idx : list nat) (t : nested) : option nested :=
  match idx with
  | [] => Some t
  | i :: idx' =>
      match t with
      | Node l => nth_error l i ≫= item idx'
      | Leaf _ => None
      end
  end.

(** [np.full(s, x)], and an array given by its items, index by index. *)
Fixpoint full_items (s : list nat) (x : A) : nested :=
  match s with
  | [] => Leaf x
  | n :: s' => Node (repeat (full_items s' x) n)
  end.

Definition full (s : list nat) (x : A) : ndarray := mk_array s (full_items s x).

Fixpoint tabulate_items (s : list nat) (f : list nat -> A) : nested :=
  match s with
  | [] => Leaf (f [])
  | n :: s' => Node (map (fun i => tabulate_items s' (fun idx => f (i :: idx))) (seq 0 n))
  end.

Definition tabulate (s : list nat) (f : list nat -> A) : ndarray :=
  mk_array s (tabulate_items s f).

(** The items in row-major order, as [a.ravel()] lists them. *)
Fixpoint ravel_items (t : nested) : list A :=
  match t with
  | Leaf x => [x]
  | Node l => flat_map ravel_items l
  end.

(** [n] consecutive runs of [size] items. *)
Fixpoint chunks {X} (n size : nat) (xs : list X) : list (list X) :=
  match n with
  | O => []
  | S n' => firstn size xs :: chunks n' size (skipn size xs)
  end.

(** [np.prod(s)]: the number of items of an array of shape [s]. *)
Definition prod (s : list nat) : nat := fold_right Nat.mul 1 s.

(** The nest of shape [s] over a row-major list of items. *)
Fixpoint unravel_items (s : list nat) (xs : list A) : option nested :=
  match s with
  | [] => match xs with
          | [x] => Some (Leaf x)
          | _ => None
          end
  | n :: s' =>
      if Nat.eqb (List.length xs) (n * prod s')
      then Node <$> mapM (unravel_items s') (chunks n (prod s') xs)
      else None
  end.

(** The pixels of a batch of images [batch, height, width, channels], in
    row-major order, and their rows of channel values. *)
Definition pixels (t : nested) : list nested :=
  flat_map items (flat_map items (items t)).

Definition pixel_rows (a : ndarray) : list (list A) :=
  map ravel_items (pixels (elems a)).

(** The array of rank two whose rows are given. *)
Definition of_rows (width : nat) (rows : list (list A)) : ndarray :=
  mk_array [List.length rows; width]
    (Node (map (fun r => Node (map Leaf r)) rows)).
End Arrays.
Arguments nested A : clear implicits.
Arguments ndarray A : clear implicits.
End np.

(** ** TensorFlow

    The script builds a graph and hands it to a session.  A tensor is the
    node that produces it; the calls of the script are the builders below,
    under the names they have in TensorFlow. *)

Module tf.

Inductive padding_mode : Type := SAME | VALID.

Inductive initializer : Type :=
| glorot_uniform_initializer      (* the default of [tf.layers] *)
| variance_scaling_initializer.

Inductive activation_fn : Type := relu.

Record conv_args : Type := mk_conv_args {
  filters : Z;
  kernel_size : nat * nat;
  strides : nat * nat;
  padding : padding_mode;
  activation : option activation_fn;
  kernel_initializer : initializer;
  name : string
}.

Inductive tensor : Type :=
| Placeholder (name : string)
| Conv2D (inputs : tensor) (args : conv_args)
| Conv2DTranspose (inputs : tensor) (args : conv_args)
| Add (x y : tensor) (name : string)
| Reshape (x : tensor) (shape : list Z)
| SoftmaxCrossEntropyWithLogits (labels logits : tensor)
| Mean (x : tensor).

Inductive optimizer : Type := Adam (learning_rate : tensor).

Inductive operation : Type := Minimize (opt : optimizer) (loss : tensor).

(** [tf.layers.conv2d] and [tf.layers.conv2d_transpose], with the
    arguments the script passes; [activation] is left at its default,
    [None]: the layer is linear. *)
Module layers.
Definition conv2d (inputs : tensor) (filters : Z) (kernel_size strides : nat * nat)
  (kernel_initializer : initializer) (name : string) (padding : padding_mode)
  : tensor :=
  Conv2D inputs
    (mk_conv_args filters kernel_size strides padding None kernel_initializer name).

Definition conv2d_transpose (inputs : tensor) (filters : Z)
  (kernel_size strides : nat * nat) (kernel_initializer : initializer)
  (name : string) (padding : padding_mode) : tensor :=
  Conv2DTranspose inputs
    (mk_conv_args filters kernel_size strides padding None kernel_initializer name).
End layers.

Definition add (x y : tensor) (name : string) : tensor := Add x y name.
Definition reshape (x : tensor) (shape : list Z) : tensor := Reshape x shape.
Definition reduce_mean (x : tensor) : tensor := Mean x.

Module nn.
Definition softmax_cross_entropy_with_logits (labels logits : tensor) : tensor :=
  SoftmaxCrossEntropyWithLogits labels logits.
End nn.

Module train.
Definition AdamOptimizer (learning_rate : tensor) : optimizer := Adam learning_rate.
Definition minimize (opt : optimizer) (loss : tensor) : operation := Minimize opt loss.
End train.

(** *** Shapes

    The shape a tensor has when the graph runs, given the shapes of what
    is fed; [None] when the shapes do not fit (an error of the builder,
    or of the engine when the shape is only known at run time). *)

(** Output length of a convolution along one axis. *)
Definition conv_output_length (input kernel stride : nat) (p : padding_mode)
  : option nat :=
  if Nat.eqb stride 0 || Nat.eqb kernel 0 then None else
  match p with
  | SAME => Some ((input + stride - 1) / stride)
  | VALID => if Nat.ltb input kernel then None
             else Some ((input - kernel) / stride + 1)
  end.

(** Output length of a transposed convolution along one axis. *)
Definition deconv_output_length (input kernel stride : nat) (p : padding_mode)
  : option nat :=
  if Nat.eqb stride 0 || Nat.eqb kernel 0 then None else
  match p with
  | SAME => Some (input * stride)
  | VALID => Some (input * stride + Nat.max (kernel - stride) 0)
  end.

Definition conv_shape (length : nat -> nat -> nat -> padding_mode -> option nat)
  (args : conv_args) (s : list nat) : option (list nat) :=
  match s with
  | [n; h; w; _] =>
      if Z.ltb (filters args) 0 then None else
      h' ← length h (fst (kernel_size args)) (fst (strides args)) (padding args);
      w' ← length w (snd (kernel_size args)) (snd (strides args)) (padding args);
      Some [n; h'; w'; Z.to_nat (filters args)]
  | _ => None
  end.

(** Broadcasting of two shapes, aligned at their last axis; the shapes
    are given last axis first. *)
Fixpoint broadcast_rev (s1 s2 : list nat) : option (list nat) :=
  match s1, s2 with
  | [], s => Some s
  | s, [] => Some s
  | a :: s1', b :: s2' =>
      if Nat.eqb a b then cons a <$> broadcast_rev s1' s2'
      else if Nat.eqb a 1 then cons b <$> broadcast_rev s1' s2'
      else if Nat.eqb b 1 then cons a <$> broadcast_rev s1' s2'
      else None
  end.

Definition broadcast (s1 s2 : list nat) : option (list nat) :=
  @rev nat <$> broadcast_rev (rev s1) (rev s2).

(** The shape [tf.reshape] gives to [total] items for the target [shape],
    one entry of which may be [-1]. *)
Definition resolve_shape (shape : list Z) (total : nat) : option (list nat) :=
  if forallb (fun d => Z.leb (-1) d) shape then
    let known := np.prod (map Z.to_nat (List.filter (fun d => negb (Z.eqb d (-1))) shape)) in
    match List.length (List.filter (fun d => Z.eqb d (-1)) shape) with
    | O => if Nat.eqb known total then Some (map Z.to_nat shape) else None
    | 1 => if Nat.ltb 0 known && Nat.eqb (total mod known) 0
           then Some (map (fun d => if Z.eqb d (-1) then (total / known)%nat
                                    else Z.to_nat d) shape)
           else None
    | _ => None
    end
  else None.

Fixpoint shape_of (fed : string -> option (list nat)) (t : tensor)
  : option (list nat) :=
  match t with
  | Placeholder name => fed name
  | Conv2D inputs args => shape_of fed inputs ≫= conv_shape conv_output_length args
  | Conv2DTranspose inputs args =>
      shape_of fed inputs ≫= conv_shape deconv_output_length args
  | Add x y _ =>
      sx ← shape_of fed x; sy ← shape_of fed y; broadcast sx sy
  | Reshape x shape => sx ← shape_of fed x; resolve_shape shape (np.prod sx)
  | SoftmaxCrossEntropyWithLogits labels logits =>
      sl ← shape_of fed labels; sz ← shape_of fed logits;
      if bool_decide (sl = sz)
      then match sz with
           | [] => None
           | _ => Some (removelast sz)
           end
      else None
  | Mean _ => Some []
  end.

(** *** Values of the loss head, in exact real arithmetic

    The engine computes in float32; these are the values its results
    round.  What is stated over them holds of the program up to that
    rounding: equalities and weak bounds carry over, strict inequalities
    between two losses do not (a difference below the rounding unit is
    lost), and none is stated.

    [None] stands for everything that is not an array of reals: an error of
    the engine, or the NaN that the mean of no item is. *)

Definition value : Type := np.ndarray R.

Definition scalar (x : R) : value := np.mk_array [] (np.Leaf x).

Definition sum (xs : list R) : R := fold_right Rplus 0%R xs.

Definition reshape_value (shape : list Z) (v : value) : option value :=
  let xs := np.ravel_items (np.elems v) in
  s ← resolve_shape shape (List.length xs);
  t ← np.unravel_items s xs;
  Some (np.mk_array s t).

Definition softmax (logits : list R) : list R :=
  let d := sum (map exp logits) in
  map (fun z => (exp z / d)%R) logits.

Definition cross_entropy (labels probs : list R) : R :=
  (- sum (zip_with (fun y p => y * ln p) labels probs))%R.

(** The cost of one row of class scores against its row of labels. *)
Definition softmax_cross_entropy_row (labels logits : list R) : R :=
  cross_entropy labels (softmax logits).

(** Rows run along the last axis; the result has the shape of the
    arguments without it. *)
Definition softmax_cross_entropy_value (labels logits : value) : option value :=
  if bool_decide (np.shape labels = np.shape logits) then
    match rev (np.shape logits) with
    | [] => None
    | c :: outer_rev =>
        let outer := rev outer_rev in
        let n := np.prod outer in
        let costs :=
          zip_with softmax_cross_entropy_row
            (np.chunks n c (np.ravel_items (np.elems labels)))
            (np.chunks n c (np.ravel_items (np.elems logits))) in
        t ← np.unravel_items outer costs;
        Some (np.mk_array outer t)
    end
  else None.

Definition reduce_mean_value (v : value) : option value :=
  match np.ravel_items (np.elems v) with
  | [] => None
  | xs => Some (scalar (sum xs / INR (List.length xs)))
  end.

(** A one-hot row: [1] at the class, [0] elsewhere. *)
Definition one_hot_row (depth class : nat) : list R :=
  map (fun i => if Nat.eqb i class then 1%R else 0%R) (seq 0 depth).

Definition is_one_hot (row : list R) : Prop :=
  exists class, class < List.length row /\ row = one_hot_row (List.length row) class.

(** The value of a tensor.  [network] gives the values of the tensors the
    loss head starts from: what is fed to the placeholders, and what the
    layers compute from it with the current variables. *)
Fixpoint eval (network : tensor -> option value) (t : tensor) : option value :=
  match t with
  | Reshape x shape => eval network x ≫= reshape_value shape
  | SoftmaxCrossEntropyWithLogits labels logits =>
      vl ← eval network labels; vz ← eval network logits;
      softmax_cross_entropy_value vl vz
  | Mean x => eval network x ≫= reduce_mean_value
  | _ => network t
  end.
End tf.

(** ** [load_vgg] (main.py, lines 22-45)

    [tf.saved_model.loader.load] reads the file system and changes the
    session; it is a parameter here, as is the lookup of a tensor of the
    session's graph by name.  The loader fails with [IOError] (no saved
    model at the path) or [RuntimeError] (no meta graph with the tags);
    the lookup of a name the graph does not have raises [KeyError]. *)

Inductive loader_exn : Type := IOError | RuntimeError.

Inductive load_exn : Type :=
| LoaderRaised (e : loader_exn)
| KeyError (name : string).

Inductive loaded (X : Type) : Type :=
| Loaded (x : X)
| LoadFailed (e : load_exn).
Arguments Loaded {X} x.
Arguments LoadFailed {X} e.

#[export] Instance loaded_ret : MRet loaded := fun _ x => Loaded x.
#[export] Instance loaded_bind : MBind loaded := fun _ _ k c =>
  match c with
  | Loaded x => k x
  | LoadFailed e => LoadFailed e
  end.

Section LoadVGG.
Variable Session : Type.
Variable loader_load : Session -> list string -> string -> option loader_exn * Session.
Variable graph_tensor : Session -> string -> option tf.tensor.

(** [graph.get_tensor_by_name(name)] *)
Definition get_tensor_by_name (sess : Session) (name : string) : loaded tf.tensor :=
  match graph_tensor sess name with
  | Some t => Loaded t
  | None => LoadFailed (KeyError name)
  end.

Definition load_vgg (sess : Session) (vgg_path : string)
  : loaded (tf.tensor * tf.tensor * tf.tensor * tf.tensor * tf.tensor) * Session :=
  let vgg_tag := "vgg16"%string in
  let vgg_input_tensor_name := "image_input:0"%string in
  let vgg_keep_prob_tensor_name := "keep_prob:0"%string in
  let vgg_layer3_out_tensor_name := "layer3_out:0"%string in
  let vgg_layer4_out_tensor_name := "layer4_out:0"%string in
  let vgg_layer7_out_tensor_name := "layer7_out:0"%string in
  match loader_load sess [vgg_tag] vgg_path with
  | (Some e, sess') => (LoadFailed (LoaderRaised e), sess')
  | (None, graph) =>
      (image_input ← get_tensor_by_name graph vgg_input_tensor_name;
       keep_prob ← get_tensor_by_name graph vgg_keep_prob_tensor_name;
       layer3_out ← get_tensor_by_name graph vgg_layer3_out_tensor_name;
       layer4_out ← get_tensor_by_name graph vgg_layer4_out_tensor_name;
       layer7_out ← get_tensor_by_name graph vgg_layer7_out_tensor_name;
       mret (image_input, keep_prob, layer3_out, layer4_out, layer7_out),
       graph)
  end.

(** The names [load_vgg] looks up, in the order it looks them up. *)
Definition vgg_tensor_names : list string :=
  ["image_input:0"%string; "keep_prob:0"%string; "layer3_out:0"%string; "layer4_out:0"%string; "layer7_out:0"%string].
End LoadVGG.
Arguments load_vgg {Session} loader_load graph_tensor sess vgg_path.
Arguments get_tensor_by_name {Session} graph_tensor sess name.

(** ** [layers] (main.py, lines 49-101) *)

Definition layers (vgg_layer3_out vgg_layer4_out vgg_layer7_out : tf.tensor)
  (num_classes : Z) : tf.tensor :=
  (* fcn layers *)
  let layer3_fcn := tf.layers.conv2d vgg_layer3_out num_classes
                      (1, 1) (1, 1) tf.variance_scaling_initializer
                      "layer3_fcn" tf.SAME in
  let layer4_fcn := tf.layers.conv2d vgg_layer4_out num_classes
                      (1, 1) (1, 1) tf.variance_scaling_initializer
                      "layer4_fcn" tf.SAME in
  let layer7_fcn := tf.layers.conv2d vgg_layer7_out num_classes
                      (1, 1) (1, 1) tf.variance_scaling_initializer
                      "layer7_fcn" tf.SAME in
  (* upsampling and skipping *)
  let layer7_up := tf.layers.conv2d_transpose layer7_fcn num_classes
                     (4, 4) (2, 2) tf.variance_scaling_initializer
                     "layer7_up" tf.SAME in
  let layer4_skip := tf.add layer4_fcn layer7_up "layer4_skip" in
  let layer4_up := tf.layers.conv2d_transpose layer4_skip num_classes
                     (4, 4) (2, 2) tf.variance_scaling_initializer
                     "layer4_up" tf.SAME in
  let layer3_skip := tf.add layer3_fcn layer4_up "layer3_skip" in
  let class_heatmap := tf.layers.conv2d_transpose layer3_skip num_classes
                         (16, 16) (8, 8) tf.variance_scaling_initializer
                         "class_heatmap" tf.SAME in
  class_heatmap.

(** ** The decoder as the design describes it

    The steps of the decoder in the words of the design document (section
    4.1), to compare [layers] with: project a feature map to the classes,
    upsample by a factor, fuse by addition. *)

Definition project_to_classes (feature_map : tf.tensor) (num_classes : Z)
  (name : string) : tf.tensor :=
  tf.Conv2D feature_map
    (tf.mk_conv_args num_classes (1, 1) (1, 1) tf.SAME None
       tf.variance_scaling_initializer name).

Definition upsample (factor kernel : nat) (x : tf.tensor) (num_classes : Z)
  (name : string) : tf.tensor :=
  tf.Conv2DTranspose x
    (tf.mk_conv_args num_classes (kernel, kernel) (factor, factor) tf.SAME None
       tf.variance_scaling_initializer name).

Definition fuse (projection upsampled : tf.tensor) (name : string) : tf.tensor :=
  tf.Add projection upsampled name.

Definition decoder_steps (finest mid coarsest : tf.tensor) (num_classes : Z)
  : tf.tensor :=
  let finest_scores := project_to_classes finest num_classes "layer3_fcn" in
  let mid_scores := project_to_classes mid num_classes "layer4_fcn" in
  let coarsest_scores := project_to_classes coarsest num_classes "layer7_fcn" in
  let fusion1 :=
    fuse mid_scores (upsample 2 4 coarsest_scores num_classes "layer7_up")
      "layer4_skip" in
  let fusion2 :=
    fuse finest_scores (upsample 2 4 fusion1 num_classes "layer4_up")
      "layer3_skip" in
  upsample 8 16 fusion2 num_classes "class_heatmap".

(** A length [a] of a projected map that [tf.add] accepts against the
    length [b] of an upsampled map: the same, or one (broadcast). *)
Definition fits (a b : nat) : bool := Nat.eqb a b || Nat.eqb a 1.

(** The feature maps of the backbone on one 160x576 image, as the design
    document lists them. *)
Definition kitti_feature_shapes (name : string) : option (list nat) :=
  if String.eqb name "layer3_out:0" then Some [1; 20; 72; 256]
  else if String.eqb name "layer4_out:0" then Some [1; 10; 36; 512]
  else if String.eqb name "layer7_out:0" then Some [1; 5; 18; 4096]
  else None.

(** ** [optimize] (main.py, lines 105-121) *)

Definition optimize (nn_last_layer correct_label learning_rate : tf.tensor)
  (num_classes : Z) : tf.tensor * tf.operation * tf.tensor :=
  let logits := tf.reshape nn_last_layer [(-1)%Z; num_classes] in
  let labels := tf.reshape correct_label [(-1)%Z; num_classes] in
  let xentropy := tf.nn.softmax_cross_entropy_with_logits labels logits in
  let loss := tf.reduce_mean xentropy in
  let train_op := tf.train.minimize (tf.train.AdamOptimizer learning_rate) loss in
  (logits, train_op, loss).

(** ** [augment_data] (main.py, lines 125-143) *)

Section Augment.
Context {A : Type}.

Definition augment_data (images gt_images : np.ndarray A)
  : result (np.ndarray A * np.ndarray A) :=
  (* flipping horizontally *)
  hf_images ← np.getitem4_rev 2 images;
  hf_gt_images ← np.getitem4_rev 2 gt_images;
  (* flipping vertically *)
  vf_images ← np.getitem4_rev 1 images;
  vf_gt_images ← np.getitem4_rev 1 gt_images;
  aug_images ← np.concatenate [vf_images; images; hf_images];
  aug_gt_images ← np.concatenate [vf_gt_images; gt_images; hf_gt_images];
  mret (aug_images, aug_gt_images).

(** The array [augment_data] builds from one of its arguments, written
    out: the vertical flips, the array itself, the horizontal flips. *)
Definition tripled (a : np.ndarray A) : np.ndarray A :=
  np.mk_array (3 * hd O (np.shape a) :: tl (np.shape a))
    (np.Node (np.items (np.rev_axis 1 (np.elems a))
              ++ np.items (np.elems a)
              ++ np.items (np.rev_axis 2 (np.elems a)))).
End Augment.

(** ** [augment_data] over a store of buffers

    Basic slicing does not copy: [images[:, :, ::-1, :]] is a new array
    object over the buffer of [images], read with a negated stride.
    [np.concatenate] allocates.  An array object is modelled by the buffer
    it reads and the axes its strides reverse; the store maps buffers to
    their contents.  A computation over the store is stuck ([None]) only on
    a reference to no buffer, which the interpreter excludes. *)

Module Store.
Section Store.
Context {A : Type}.

Record array_ref : Type := mk_ref { base : positive; reversed : list nat }.

Abbreviation heap := (gmap positive (np.ndarray A)).

Definition ST (X : Type) : Type := heap -> option (result X * heap).

#[export] Instance ST_ret : MRet ST := fun _ x h => Some (Ok x, h).
#[export] Instance ST_bind : MBind ST := fun _ _ k c h =>
  match c h with
  | Some (Ok x, h') => k x h'
  | Some (Raise e, h') => Some (Raise e, h')
  | None => None
  end.

(** What an array object shows of a buffer. *)
Definition view (axes : list nat) (a : np.ndarray A) : np.ndarray A :=
  np.mk_array (np.shape a)
    (fold_left (fun t k => np.rev_axis k t) axes (np.elems a)).

Definition read (h : heap) (r : array_ref) : option (np.ndarray A) :=
  view (reversed r) <$> h !! base r.

(** [r[:, ..., ::-1, ..., :]]: a view, the store is left alone. *)
Definition getitem4_rev (axis : nat) (r : array_ref) : ST array_ref :=
  fun h =>
    match read h r with
    | None => None
    | Some a =>
        if Nat.leb 4 (np.ndim a)
        then Some (Ok (mk_ref (base r) (reversed r ++ [axis])), h)
        else Some (Raise IndexError, h)
    end.

Fixpoint read_all (h : heap) (rs : list array_ref) : option (list (np.ndarray A)) :=
  match rs with
  | [] => Some []
  | r :: rs' =>
      match read h r, read_all h rs' with
      | Some a, Some l => Some (a :: l)
      | _, _ => None
      end
  end.

(** [np.concatenate(rs, axis=0)]: the result lives in a buffer of its own. *)
Definition concatenate (rs : list array_ref) : ST array_ref :=
  fun h =>
    match read_all h rs with
    | None => None
    | Some arrays =>
        match np.concatenate arrays with
        | Raise e => Some (Raise e, h)
        | Ok a =>
            let b := fresh (dom h) in
            Some (Ok (mk_ref b []), <[b := a]> h)
        end
    end.

Definition augment_data (images gt_images : array_ref)
  : ST (array_ref * array_ref) :=
  (* flipping horizontally *)
  hf_images ← getitem4_rev 2 images;
  hf_gt_images ← getitem4_rev 2 gt_images;
  (* flipping vertically *)
  vf_images ← getitem4_rev 1 images;
  vf_gt_images ← getitem4_rev 1 gt_images;
  aug_images ← concatenate [vf_images; images; hf_images];
  aug_gt_images ← concatenate [vf_gt_images; gt_images; hf_gt_images];
  mret (aug_images, aug_gt_images).
End Store.
Arguments array_ref : clear implicits.
End Store.

(** ** [train_nn] (main.py, lines 146-179)

    The loop talks to three things outside the script: the batch source
    ([get_batches_fn]), the TensorFlow session ([sess.run]) and standard
    output ([print]).  The first two are parameters of [train_nn] in the
    source and parameters here, each a function of a state of its own; the
    state of the loop collects both and the trace of the calls made, in the
    order they were made.  An exception ends the loop and keeps the state
    reached. *)

Section TrainingLoop.
Context {A : Type}.
(** What the session holds (the variables of the graph, the accumulators of
    the optimizer), the value fetched for the loss, the state of the batch
    source, and the handles of the graph (placeholders and fetches). *)
Variables (Session Loss Source Tensor : Type).

Inductive feed_value : Type :=
| FeedArray (a : np.ndarray A)
| FeedFloat (q : Q).

Definition feed_dict : Type := list (Tensor * feed_value).

Definition batch : Type := (np.ndarray A * np.ndarray A)%type.

(** [sess.run([op, t], feed_dict=feed)]: the value fetched for [t] (the
    one fetched for the operation [op] is [None] and is dropped by the
    script), and the session after the step. *)
Variable sess_run : Tensor -> Tensor -> feed_dict -> Session -> Loss * Session.

(** [get_batches_fn(batch_size)]: the batches the generator yields, in
    order.  The generator is finite; it is consumed to its end by the loop
    that asked for it. *)
Variable get_batches_fn : Z -> Source -> list batch * Source.

Inductive event : Type :=
| GetBatches (batch_size : Z) (batches : list batch)
| Run (fetch_op fetch_loss : Tensor) (feed : feed_dict) (loss_val : Loss)
| PrintLine (epoch b : Z) (loss_val : Loss).

Record world : Type := mk_world {
  session : Session;
  source : Source;
  trace : list event
}.

Definition Loop (X : Type) : Type := world -> result X * world.

#[export] Instance Loop_ret : MRet Loop := fun _ x w => (Ok x, w).
#[export] Instance Loop_bind : MBind Loop := fun _ _ k c w =>
  match c w with
  | (Ok x, w') => k x w'
  | (Raise e, w') => (Raise e, w')
  end.

Definition lift {X} (r : result X) : Loop X := fun w => (r, w).

Definition call_get_batches_fn (batch_size : Z) : Loop (list batch) :=
  fun w =>
    let '(batches, src) := get_batches_fn batch_size (source w) in
    (Ok batches,
     mk_world (session w) src (trace w ++ [GetBatches batch_size batches])).

Definition call_sess_run (fetch_op fetch_loss : Tensor) (feed : feed_dict)
  : Loop Loss :=
  fun w =>
    let '(loss_val, s) := sess_run fetch_op fetch_loss feed (session w) in
    (Ok loss_val,
     mk_world s (source w) (trace w ++ [Run fetch_op fetch_loss feed loss_val])).

(** [print("epoch %i batch %i loss=%.3f" % (epoch, b, loss_val))] *)
Definition print (epoch b : Z) (loss_val : Loss) : Loop unit :=
  fun w =>
    (Ok tt, mk_world (session w) (source w) (trace w ++ [PrintLine epoch b loss_val])).

(** [for x in xs: body(x)] *)
Fixpoint for_each {X} (xs : list X) (body : X -> Loop unit) : Loop unit :=
  match xs with
  | [] => mret tt
  | x :: xs' => _ ← body x; for_each xs' body
  end.

(** [range(n)] and [enumerate(xs)] *)
Definition range (n : Z) : list Z := map Z.of_nat (seq 0 (Z.to_nat n)).

Definition enumerate {X} (xs : list X) : list (Z * X) :=
  combine (map Z.of_nat (seq 0 (List.length xs))) xs.

Definition train_nn (epochs batch_size : Z)
  (train_op cross_entropy_loss input_image correct_label keep_prob
     learning_rate : Tensor) : Loop unit :=
  for_each (range epochs) (fun epoch =>
    batches ← call_get_batches_fn batch_size;
    for_each (enumerate batches) (fun '(b, (seed_images, seed_gt_images)) =>
      '(images, gt_images) ←
        (if Nat.eqb (np.ndim seed_images) 4
         then lift (augment_data seed_images seed_gt_images)
         else mret (seed_images, seed_gt_images));
      loss_val ← call_sess_run train_op cross_entropy_loss
                   [(input_image, FeedArray images);
                    (correct_label, FeedArray gt_images);
                    (keep_prob, FeedFloat (1 # 2));
                    (learning_rate, FeedFloat (1 # 10000))];
      if Z.eqb (b mod 10) 0
      then print epoch b loss_val
      else mret tt)).

(** The two loop bodies of [train_nn], named: the statements about the
    loop are proved body by body. *)
Definition inner_body
  (train_op cross_entropy_loss input_image correct_label keep_prob
     learning_rate : Tensor) (epoch : Z) : Z * batch -> Loop unit :=
  fun '(b, (seed_images, seed_gt_images)) =>
    '(images, gt_images) ←
      (if Nat.eqb (np.ndim seed_images) 4
       then lift (augment_data seed_images seed_gt_images)
       else mret (seed_images, seed_gt_images));
    loss_val ← call_sess_run train_op cross_entropy_loss
                 [(input_image, FeedArray images);
                  (correct_label, FeedArray gt_images);
                  (keep_prob, FeedFloat (1 # 2));
                  (learning_rate, FeedFloat (1 # 10000))];
    if Z.eqb (b mod 10) 0
    then print epoch b loss_val
    else mret tt.

Definition outer_body (batch_size : Z)
  (train_op cross_entropy_loss input_image correct_label keep_prob
     learning_rate : Tensor) (epoch : Z) : Loop unit :=
  batches ← call_get_batches_fn batch_size;
  for_each (enumerate batches)
    (inner_body train_op cross_entropy_loss input_image correct_label
       keep_prob learning_rate epoch).
End TrainingLoop.

Arguments FeedArray {A} a.
Arguments FeedFloat {A} q.
Arguments GetBatches {A Loss Tensor} batch_size batches.
Arguments Run {A Loss Tensor} fetch_op fetch_loss feed loss_val.
Arguments PrintLine {A Loss Tensor} epoch b loss_val.
Arguments mk_world {A Session Loss Source Tensor} session source trace.
Arguments session {A Session Loss Source Tensor} w.
Arguments source {A Session Loss Source Tensor} w.
Arguments trace {A Session Loss Source Tensor} w.
Arguments train_nn {A Session Loss Source Tensor} sess_run get_batches_fn
  epochs batch_size train_op cross_entropy_loss input_image correct_label
  keep_prob learning_rate w.
Arguments inner_body {A Session Loss Source Tensor} sess_run
  train_op cross_entropy_loss input_image correct_label
  keep_prob learning_rate epoch _ w.
Arguments outer_body {A Session Loss Source Tensor} sess_run get_batches_fn
  batch_size train_op cross_entropy_loss input_image correct_label
  keep_prob learning_rate epoch w.
Arguments for_each {A Session Loss Source Tensor X} xs body w.

(** ** What a run of the loop is expected to leave in the trace

    The vocabulary in which the properties of [train_nn] are stated: the
    pair the loop feeds for a batch, the events of one batch, of one epoch
    and of a run, and the projections of a trace onto each kind of event. *)

Section TraceVocabulary.
Context {A Loss Tensor : Type}.
Variables (train_op cross_entropy_loss input_image correct_label keep_prob
             learning_rate : Tensor).

(** A batch on which the loop body does not raise: four-dimensional images
    come with labels of at least four axes. *)
Definition rank_compatible (p : batch (A:=A)) : Prop :=
  np.ndim (fst p) = 4 -> 4 <= np.ndim (snd p).

(** A pair that is four-dimensional: its images and its labels both are. *)
Definition four_dimensional (p : batch (A:=A)) : bool :=
  Nat.eqb (np.ndim (fst p)) 4 && Nat.eqb (np.ndim (snd p)) 4.

Definition fed_pair (p : batch (A:=A)) : batch (A:=A) :=
  if Nat.eqb (np.ndim (fst p)) 4
  then (tripled (fst p), tripled (snd p))
  else p.

Definition feed_for (p : batch (A:=A)) : feed_dict Tensor :=
  [(input_image, FeedArray (fst p));
   (correct_label, FeedArray (snd p));
   (keep_prob, FeedFloat (1 # 2));
   (learning_rate, FeedFloat (1 # 10000))].

Definition batch_trace (epoch b : Z) (p : batch (A:=A)) (l : Loss)
  : list (event Loss Tensor) :=
  Run train_op cross_entropy_loss (feed_for (fed_pair p)) l
  :: (if Z.eqb (b mod 10) 0 then [PrintLine epoch b l] else []).

Fixpoint steps_trace (epoch : Z) (i : nat) (bs : list (batch (A:=A)))
  (ls : list Loss) : list (event Loss Tensor) :=
  match bs, ls with
  | p :: bs', l :: ls' =>
      batch_trace epoch (Z.of_nat i) p l ++ steps_trace epoch (S i) bs' ls'
  | _, _ => []
  end.

Definition epoch_trace (batch_size epoch : Z)
  (a : list (batch (A:=A)) * list Loss) : list (event Loss Tensor) :=
  GetBatches batch_size (fst a) :: steps_trace epoch 0 (fst a) (snd a).

Fixpoint epochs_trace (batch_size : Z) (e : nat)
  (answers : list (list (batch (A:=A)) * list Loss)) : list (event Loss Tensor) :=
  match answers with
  | [] => []
  | a :: rest =>
      epoch_trace batch_size (Z.of_nat e) a ++ epochs_trace batch_size (S e) rest
  end.

(** One loss fetched for each batch pulled. *)
Definition answers_ok (answers : list (list (batch (A:=A)) * list Loss)) : Prop :=
  Forall (fun a => List.length (snd a) = List.length (fst a)) answers.

(** Projections of a trace. *)
Definition requests (evs : list (event (A:=A) Loss Tensor)) : list (list (batch (A:=A))) :=
  flat_map (fun ev => match ev with GetBatches _ bs => [bs] | _ => [] end) evs.

Definition run_feeds (evs : list (event (A:=A) Loss Tensor)) : list (feed_dict Tensor) :=
  flat_map (fun ev => match ev with Run _ _ f _ => [f] | _ => [] end) evs.

Definition run_losses (evs : list (event (A:=A) Loss Tensor)) : list Loss :=
  flat_map (fun ev => match ev with Run _ _ _ l => [l] | _ => [] end) evs.

Definition printed (evs : list (event (A:=A) Loss Tensor)) : list (Z * Z * Loss) :=
  flat_map (fun ev => match ev with PrintLine e b l => [(e, b, l)] | _ => [] end) evs.

(** The lines a run over [losses] (the losses fetched in one epoch, batch
    by batch) prints for epoch [epoch]. *)
Definition lines_of_epoch (epoch : Z) (losses : list Loss) : list (Z * Z * Loss) :=
  map (fun bl => (epoch, fst bl, snd bl))
    (List.filter (fun bl => Z.eqb (fst bl mod 10) 0) (enumerate losses)).
End TraceVocabulary.

(** ** What the loop does to the session and to the batch source

    The session after a list of feeds, the losses it returns along the
    way, and the batch source after a number of requests with the batches
    it gave. *)

Section StateThreading.
Context {A Session Loss Source Tensor : Type}.
Variable sess_run :
  Tensor -> Tensor -> feed_dict (A:=A) Tensor -> Session -> Loss * Session.
Variable get_batches_fn : Z -> Source -> list (batch (A:=A)) * Source.
Variables (batch_size : Z) (train_op cross_entropy_loss : Tensor).

Fixpoint session_after (feeds : list (feed_dict (A:=A) Tensor)) (s : Session)
  : Session :=
  match feeds with
  | [] => s
  | feed :: feeds' =>
      session_after feeds' (snd (sess_run train_op cross_entropy_loss feed s))
  end.

Fixpoint losses_of (feeds : list (feed_dict (A:=A) Tensor)) (s : Session)
  : list Loss :=
  match feeds with
  | [] => []
  | feed :: feeds' =>
      fst (sess_run train_op cross_entropy_loss feed s)
      :: losses_of feeds' (snd (sess_run train_op cross_entropy_loss feed s))
  end.

Fixpoint source_after (n : nat) (src : Source) : Source :=
  match n with
  | O => src
  | S n' => source_after n' (snd (get_batches_fn batch_size src))
  end.

Fixpoint batches_requested (n : nat) (src : Source) : list (list (batch (A:=A))) :=
  match n with
  | O => []
  | S n' =>
      fst (get_batches_fn batch_size src)
      :: batches_requested n' (snd (get_batches_fn batch_size src))
  end.
End StateThreading.

(** ** What every event of a run looks like

    A request is for the batch size given; a step fetches the training
    operation and the loss and feeds the four placeholders; a line is for
    an epoch of the run and a batch index that is a multiple of ten.
    Lines come one at a time, each right after the step whose loss it
    reports. *)

Section EventShape.
Context {A Loss Tensor : Type}.
Variables (batch_size epochs : Z).
Variables (train_op cross_entropy_loss input_image correct_label keep_prob
             learning_rate : Tensor).

Definition event_ok (ev : event (A:=A) Loss Tensor) : Prop :=
  match ev with
  | GetBatches n _ => n = batch_size
  | Run op t feed _ =>
      op = train_op /\ t = cross_entropy_loss
      /\ exists p, feed = feed_for input_image correct_label keep_prob
                           learning_rate p
  | PrintLine e b _ => (0 <= e < epochs)%Z /\ (0 <= b)%Z /\ (b mod 10 = 0)%Z
  end.

Inductive lines_follow_steps : list (event (A:=A) Loss Tensor) -> Prop :=
| lfs_nil : lines_follow_steps []
| lfs_request n bs evs :
    lines_follow_steps evs -> lines_follow_steps (GetBatches n bs :: evs)
| lfs_step op t feed l evs :
    lines_follow_steps evs -> lines_follow_steps (Run op t feed l :: evs)
| lfs_step_line op t feed l e b evs :
    lines_follow_steps evs ->
    lines_follow_steps (Run op t feed l :: PrintLine e b l :: evs).
End EventShape.

(** ** Test data

    The scenario of the design document (one batch of one 4x4x3 image with
    an all-zero label map for two classes), a stand-in pair of rank two of
    the kind the unit test of the loop feeds, a batch whose labels lack an
    axis, and a session that counts its steps and reports the count as the
    loss. *)

Definition scenario_images : np.ndarray Z :=
  np.tabulate [1; 4; 4; 3]
    (fun idx => Z.of_nat (fold_left (fun acc i => 10 * acc + i) idx 0)).

Definition scenario_labels : np.ndarray Z := np.full [1; 4; 4; 2] 0%Z.

Definition mock_images : np.ndarray Z :=
  np.tabulate [3; 3] (fun idx => Z.of_nat (fold_left (fun acc i => 3 * acc + i) idx 0)).

Definition mock_labels : np.ndarray Z :=
  np.tabulate [3; 3] (fun idx => Z.of_nat (9 + fold_left (fun acc i => 3 * acc + i) idx 0)).

Definition flat_labels : np.ndarray Z := np.full [1; 4; 4] 0%Z.

Definition scenario_batches (batch_size : Z) (src : unit)
  : list (batch (A:=Z)) * unit :=
  ([(scenario_images, scenario_labels)], src).

Definition mixed_batches (batch_size : Z) (src : unit)
  : list (batch (A:=Z)) * unit :=
  ([(scenario_images, scenario_labels); (mock_images, mock_labels)], src).

Definition broken_batches (batch_size : Z) (src : unit)
  : list (batch (A:=Z)) * unit :=
  ([(scenario_images, flat_labels)], src).

Definition counting_session (fetch_op fetch_loss : string)
  (feed : feed_dict (A:=Z) string) (steps : nat) : nat * nat :=
  (steps, S steps).

(** The handles of the graph the loop is given, by name. *)
Definition the_train_op : string := "train_op".
Definition the_loss : string := "cross_entropy_loss".
Definition the_input_image : string := "image_input:0".
Definition the_correct_label : string := "correct_label".
Definition the_keep_prob : string := "keep_prob:0".
Definition the_learning_rate : string := "learning_rate".

Definition fresh_world : world (A:=Z) nat nat unit string := mk_world O tt [].

(** A heat-map of two pixels and two classes, a second one that favours
    the first class at the first pixel, and one-hot labels. *)
Definition demo_scores : tf.value :=
  np.mk_array [1; 1; 2; 2]
    (np.Node [np.Node [np.Node [np.Node [np.Leaf 0%R; np.Leaf 0%R];
                                np.Node [np.Leaf 0%R; np.Leaf 0%R]]]]).

Definition demo_better_scores : tf.value :=
  np.mk_array [1; 1; 2; 2]
    (np.Node [np.Node [np.Node [np.Node [np.Leaf 1%R; np.Leaf 0%R];
                                np.Node [np.Leaf 0%R; np.Leaf 0%R]]]]).

Definition demo_labels : tf.value :=
  np.mk_array [1; 1; 2; 2]
    (np.Node [np.Node [np.Node [np.Node [np.Leaf 1%R; np.Leaf 0%R];
                                np.Node [np.Leaf 0%R; np.Leaf 1%R]]]]).

Definition demo_network (t : tf.tensor) : option tf.value :=
  match t with
  | tf.Placeholder name =>
      if String.eqb name "heatmap" then Some demo_scores
      else if String.eqb name "better_heatmap" then Some demo_better_scores
      else if String.eqb name "labels" then Some demo_labels
      else None
  | _ => None
  end.

(** Labels with a fifth axis; a batch of the scenario's images with them;
    and three batches in a row: the scenario's, the one with the fifth
    axis, and the stand-in pair of rank two. *)
Definition deep_labels : np.ndarray Z := np.full [1; 4; 4; 2; 1] 0%Z.

Definition deep_label_batches (batch_size : Z) (src : unit)
  : list (batch (A:=Z)) * unit :=
  ([(scenario_images, deep_labels)], src).

Definition assorted_batches (batch_size : Z) (src : unit)
  : list (batch (A:=Z)) * unit :=
  ([(scenario_images, scenario_labels); (scenario_images, deep_labels);
    (mock_images, mock_labels)], src).

(** Batches of which the second has labels without the channel axis. *)
Definition half_broken_batches (batch_size : Z) (src : unit)
  : list (batch (A:=Z)) * unit :=
  ([(scenario_images, scenario_labels); (scenario_images, flat_labels)], src).

(** A source that counts the requests made to it, and gives the scenario
    batch each time. *)
Definition counted_batches (batch_size : Z) (src : nat)
  : list (batch (A:=Z)) * nat :=
  ([(scenario_images, scenario_labels)], S src).

Definition counted_world : world (A:=Z) nat nat nat string := mk_world O O [].

(** [demo_scores] with 3 added at the first pixel and 1 taken off at the
    second, labels that are zero everywhere, and what a batch of no image
    gives. *)
Definition demo_shifted_scores : tf.value :=
  np.mk_array [1; 1; 2; 2]
    (np.Node [np.Node [np.Node [np.Node [np.Leaf 3%R; np.Leaf 3%R];
                                np.Node [np.Leaf (-1)%R; np.Leaf (-1)%R]]]]).

Definition demo_zero_labels : tf.value :=
  np.mk_array [1; 1; 2; 2]
    (np.Node [np.Node [np.Node [np.Node [np.Leaf 0%R; np.Leaf 0%R];
                                np.Node [np.Leaf 0%R; np.Leaf 0%R]]]]).

Definition demo_no_image : tf.value := np.mk_array [0; 1; 2; 2] (np.Node []).

Definition demo_network_more (t : tf.tensor) : option tf.value :=
  match t with
  | tf.Placeholder name =>
      if String.eqb name "shifted_heatmap" then Some demo_shifted_scores
      else if String.eqb name "zero_labels" then Some demo_zero_labels
      else if String.eqb name "no_image" then Some demo_no_image
      else demo_network t
  | _ => None
  end.

(** The shapes of the backbone's feature maps with those of the labels of
    one 160x576 image. *)
Definition kitti_run_shapes (name : string) : option (list nat) :=
  if String.eqb name "correct_label" then Some [1; 160; 576; 2]
  else kitti_feature_shapes name.

(** A session as the list of the named tensors of its graph; a loader
    that finds the backbone at one path only and adds its tensors, and one
    that finds a backbone without the fourth layer. *)
Definition named_tensors : Type := list (string * tf.tensor).

Definition lookup_tensor (sess : named_tensors) (name : string) : option tf.tensor :=
  snd <$> List.find (fun p => String.eqb (fst p) name) sess.

Definition vgg_graph : named_tensors :=
  map (fun name => (name, tf.Placeholder name)) vgg_tensor_names.

Definition vgg_graph_without_layer4 : named_tensors :=
  List.filter (fun p => negb (String.eqb (fst p) "layer4_out:0")) vgg_graph.

Definition loader_of (graph : named_tensors) (sess : named_tensors)
  (tags : list string) (export_dir : string) : option loader_exn * named_tensors :=
  if String.eqb export_dir "./data/vgg" then
    if bool_decide (tags = ["vgg16"%string]) then (None, sess ++ graph)
    else (Some RuntimeError, sess)
  else (Some IOError, sess).

(** * Properties *)

(** ** numpy: reversal and concatenation *)

Section ArrayFacts.
Context {A : Type}.
Implicit Types (t : np.nested A) (a : np.ndarray A) (s : list nat).

Lemma rev_axis_involutive k : forall t, np.rev_axis k (np.rev_axis k t) = t.
Proof.
  induction k as [|k IH]; intros [x|l]; simpl; try reflexivity.
  - now rewrite rev_involutive.
  - rewrite map_map. f_equal.
    rewrite <- (map_id l) at 2. apply map_ext. exact IH.
Qed.

Lemma forallb_rev {X} (f : X -> bool) (l : list X) :
  forallb f (rev l) = forallb f l.
Proof.
  induction l as [|x l IH]; simpl; [reflexivity|].
  rewrite forallb_app, IH. simpl. rewrite andb_true_r. apply andb_comm.
Qed.

Lemma forallb_map_ext {X Y} (f : Y -> bool) (g : X -> Y) (h : X -> bool) l :
  (forall x, f (g x) = h x) -> forallb f (map g l) = forallb h l.
Proof.
  intros E. induction l as [|x l IH]; simpl; [reflexivity|].
  now rewrite E, IH.
Qed.

Lemma has_shape_rev_axis k : forall s t,
  np.has_shape s (np.rev_axis k t) = np.has_shape s t.
Proof.
  induction k as [|k IH]; intros [|n s] [x|l]; simpl; try reflexivity.
  - now rewrite length_rev, forallb_rev.
  - rewrite length_map. f_equal. apply forallb_map_ext. intros x. apply IH.
Qed.

Lemma getitem4_rev_ok axis a :
  4 <= np.ndim a ->
  np.getitem4_rev axis a
  = Ok (np.mk_array (np.shape a) (np.rev_axis axis (np.elems a))).
Proof.
  intros Hr. unfold np.getitem4_rev.
  destruct (Nat.leb_spec 4 (np.ndim a)); [reflexivity | lia].
Qed.

Lemma getitem4_rev_raises axis a :
  np.ndim a < 4 -> np.getitem4_rev axis a = Raise IndexError.
Proof.
  intros Hr. unfold np.getitem4_rev.
  destruct (Nat.leb_spec 4 (np.ndim a)); [lia | reflexivity].
Qed.

Lemma rank4_shape a :
  4 <= np.ndim a -> np.shape a = hd O (np.shape a) :: tl (np.shape a).
Proof.
  unfold np.ndim. destruct (np.shape a); simpl; [lia | reflexivity].
Qed.

Lemma concatenate3 a b c n sh :
  np.shape a = n :: sh -> np.shape b = n :: sh -> np.shape c = n :: sh ->
  np.concatenate [a; b; c]
  = Ok (np.mk_array (3 * n :: sh)
          (np.Node (np.items (np.elems a) ++ np.items (np.elems b)
                    ++ np.items (np.elems c)))).
Proof.
  intros Ha Hb Hc. unfold np.concatenate. rewrite Ha. simpl.
  rewrite Ha, Hb, Hc. rewrite bool_decide_eq_true_2 by reflexivity. simpl.
  now rewrite app_nil_r.
Qed.

Lemma concatenate_flips a :
  4 <= np.ndim a ->
  np.concatenate
    [np.mk_array (np.shape a) (np.rev_axis 1 (np.elems a)); a;
     np.mk_array (np.shape a) (np.rev_axis 2 (np.elems a))]
  = Ok (tripled a).
Proof.
  intros Hr. pose proof (rank4_shape _ Hr) as E.
  now rewrite (concatenate3
    (np.mk_array (np.shape a) (np.rev_axis 1 (np.elems a))) a
    (np.mk_array (np.shape a) (np.rev_axis 2 (np.elems a))) _ _ E E E).
Qed.

(** [augment_data] succeeds on arrays of rank four or more, and raises
    as soon as one of the two has fewer axes. *)
Lemma augment_data_ok (images gt_images : np.ndarray A) :
  4 <= np.ndim images -> 4 <= np.ndim gt_images ->
  augment_data images gt_images = Ok (tripled images, tripled gt_images).
Proof.
  intros Hi Hg. unfold augment_data.
  rewrite !getitem4_rev_ok by assumption. cbn [mbind result_bind].
  now rewrite (concatenate_flips images Hi), (concatenate_flips gt_images Hg).
Qed.

Lemma augment_data_raises (images gt_images : np.ndarray A) :
  np.ndim images < 4 \/ np.ndim gt_images < 4 ->
  augment_data images gt_images = Raise IndexError.
Proof.
  intros H. unfold augment_data.
  destruct (Nat.lt_ge_cases (np.ndim images) 4) as [Hi|Hi].
  - rewrite (getitem4_rev_raises 2 images) by assumption. reflexivity.
  - destruct H as [H|H]; [lia|].
    rewrite (getitem4_rev_ok 2 images) by assumption. cbn [mbind result_bind].
    rewrite (getitem4_rev_raises 2 gt_images) by assumption. reflexivity.
Qed.

Lemma items_rev_axis_S k l :
  np.items (np.rev_axis (S k) (@np.Node A l)) = map (np.rev_axis k) l.
Proof. reflexivity. Qed.

Lemma wf_items a n sh :
  np.shape a = n :: sh -> np.wf a = true ->
  np.elems a = np.Node (np.items (np.elems a))
  /\ List.length (np.items (np.elems a)) = n
  /\ forallb (np.has_shape sh) (np.items (np.elems a)) = true.
Proof.
  unfold np.wf. intros -> H. destruct (np.elems a) as [x|l]; simpl in *.
  - discriminate.
  - apply andb_true_iff in H as [H1 H2]. apply Nat.eqb_eq in H1. auto.
Qed.

Lemma tripled_shape a n sh :
  np.shape a = n :: sh -> np.wf a = true ->
  np.shape (tripled a) = 3 * n :: sh
  /\ np.wf (tripled a) = true
  /\ List.length (np.items (np.elems (tripled a))) = 3 * n
  /\ forallb (np.has_shape sh) (np.items (np.elems (tripled a))) = true.
Proof.
  intros Hs Hw. destruct (wf_items _ _ _ Hs Hw) as (He & Hl & Hf).
  assert (Hall : forallb (np.has_shape sh) (np.items (np.elems (tripled a))) = true).
  { unfold tripled. cbn [np.elems np.items]. rewrite He, !items_rev_axis_S.
    cbn [np.items]. rewrite !forallb_app.
    rewrite !(forallb_map_ext _ _ (np.has_shape sh))
      by (intros; apply has_shape_rev_axis).
    now rewrite Hf. }
  assert (Hlen : List.length (np.items (np.elems (tripled a))) = 3 * n).
  { unfold tripled. cbn [np.elems np.items]. rewrite He, !items_rev_axis_S.
    cbn [np.items]. rewrite !length_app, !length_map. lia. }
  repeat split; try assumption.
  - unfold tripled. cbn [np.shape]. now rewrite Hs.
  - unfold np.wf. unfold tripled at 1. cbn [np.shape]. rewrite Hs. cbn [hd tl].
    assert (np.elems (tripled a) = np.Node (np.items (np.elems (tripled a)))) as ->
      by reflexivity.
    cbn [np.has_shape]. rewrite Hall, Hlen, Nat.eqb_refl. reflexivity.
Qed.

Lemma tripled_middle a n sh :
  np.shape a = n :: sh -> np.wf a = true ->
  np.getitem_range n (2 * n) (tripled a) = Ok a.
Proof.
  intros Hs Hw. destruct (wf_items _ _ _ Hs Hw) as (He & Hl & Hf).
  unfold np.getitem_range, tripled. cbn [np.shape np.elems np.items].
  rewrite Hs. cbn [hd tl].
  replace (Nat.min (2 * n) (3 * n) - Nat.min n (3 * n)) with n by lia.
  replace (2 * n - n) with n by lia.
  assert (Hv : List.length (np.items (np.rev_axis 1 (np.elems a))) = n).
  { rewrite He, items_rev_axis_S. now rewrite length_map. }
  rewrite skipn_app, Hv, Nat.sub_diag, skipn_all2 by lia.
  rewrite skipn_O. cbn [app].
  rewrite firstn_app, Hl, Nat.sub_diag, firstn_all2 by lia. cbn [firstn].
  rewrite app_nil_r, <- He, <- Hs. now destruct a.
Qed.
End ArrayFacts.

(** ** Data augmentation *)

Section AugmentFacts.
Context {A : Type}.

(** C2. On an image batch of shape [N,H,W,C] and a label batch of shape
    [N,H,W,C'], [augment_data] returns two batches of 3N samples: the
    vertical flips, then the originals, then the horizontal flips, images
    and labels alike; every sample keeps its shape, and the slice [N:2N]
    of each output is the input itself. *)
Theorem augment_data_triples_batch
  (images gt_images : np.ndarray A) (N H W C C' : nat) :
  np.shape images = [N; H; W; C] -> np.wf images = true ->
  np.shape gt_images = [N; H; W; C'] -> np.wf gt_images = true ->
  exists aug_images aug_gt_images,
    augment_data images gt_images = Ok (aug_images, aug_gt_images)
    /\ np.items (np.elems aug_images)
       = np.items (np.rev_axis 1 (np.elems images))
         ++ np.items (np.elems images)
         ++ np.items (np.rev_axis 2 (np.elems images))
    /\ np.items (np.elems aug_gt_images)
       = np.items (np.rev_axis 1 (np.elems gt_images))
         ++ np.items (np.elems gt_images)
         ++ np.items (np.rev_axis 2 (np.elems gt_images))
    /\ np.shape aug_images = [3 * N; H; W; C]
    /\ np.shape aug_gt_images = [3 * N; H; W; C']
    /\ np.wf aug_images = true /\ np.wf aug_gt_images = true
    /\ List.length (np.items (np.elems aug_images)) = 3 * N
    /\ List.length (np.items (np.elems aug_gt_images)) = 3 * N
    /\ forallb (np.has_shape [H; W; C]) (np.items (np.elems aug_images)) = true
    /\ forallb (np.has_shape [H; W; C']) (np.items (np.elems aug_gt_images)) = true
    /\ np.getitem_range N (2 * N) aug_images = Ok images
    /\ np.getitem_range N (2 * N) aug_gt_images = Ok gt_images.
Proof.
  intros Si Wi Sg Wg.
  exists (tripled images), (tripled gt_images).
  destruct (tripled_shape _ _ _ Si Wi) as (? & ? & ? & ?).
  destruct (tripled_shape _ _ _ Sg Wg) as (? & ? & ? & ?).
  repeat split; try assumption; try reflexivity.
  - apply augment_data_ok; unfold np.ndim; [rewrite Si | rewrite Sg]; simpl; lia.
  - now apply tripled_middle with (sh := [H; W; C]).
  - now apply tripled_middle with (sh := [H; W; C']).
Qed.

(** What the two slices of [augment_data] show: the pixel at column [w]
    of the horizontal flip is the pixel at column [W-1-w] of the image,
    the row [h] of the vertical flip the row [H-1-h]. *)
Lemma item_rev_axis2 (t : np.nested A) (N H W : nat) (sh : list nat) (b h w : nat) :
  np.has_shape (N :: H :: W :: sh) t = true -> b < N -> h < H -> w < W ->
  np.item [b; h; w] (np.rev_axis 2 t) = np.item [b; h; W - 1 - w] t.
Proof.
  intros Ht Hb Hh Hw. destruct t as [x|imgs]; [discriminate|].
  cbn [np.has_shape] in Ht. apply andb_true_iff in Ht as [_ Himgs].
  rewrite forallb_forall in Himgs.
  cbn [np.rev_axis np.item]. rewrite nth_error_map.
  destruct (nth_error imgs b) as [img|] eqn:Eb; [|reflexivity].
  pose proof (Himgs img (nth_error_In _ _ Eb)) as Himg.
  destruct img as [x|rows]; [discriminate|].
  cbn [np.has_shape] in Himg. apply andb_true_iff in Himg as [_ Hrows].
  rewrite forallb_forall in Hrows.
  cbn [option_map mbind option_bind np.rev_axis np.item]. rewrite nth_error_map.
  destruct (nth_error rows h) as [row|] eqn:Eh; [|reflexivity].
  pose proof (Hrows row (nth_error_In _ _ Eh)) as Hrow.
  destruct row as [x|px]; [discriminate|].
  cbn [np.has_shape] in Hrow. apply andb_true_iff in Hrow as [Hlen _].
  apply Nat.eqb_eq in Hlen.
  cbn [option_map mbind option_bind np.rev_axis np.item].
  rewrite nth_error_rev, Hlen.
  destruct (Nat.ltb_spec w W); [|lia].
  now replace (W - S w) with (W - 1 - w) by lia.
Qed.

Lemma item_rev_axis1 (t : np.nested A) (N H : nat) (sh : list nat) (b h : nat) :
  np.has_shape (N :: H :: sh) t = true -> b < N -> h < H ->
  np.item [b; h] (np.rev_axis 1 t) = np.item [b; H - 1 - h] t.
Proof.
  intros Ht Hb Hh. destruct t as [x|imgs]; [discriminate|].
  cbn [np.has_shape] in Ht. apply andb_true_iff in Ht as [_ Himgs].
  rewrite forallb_forall in Himgs.
  cbn [np.rev_axis np.item]. rewrite nth_error_map.
  destruct (nth_error imgs b) as [img|] eqn:Eb; [|reflexivity].
  pose proof (Himgs img (nth_error_In _ _ Eb)) as Himg.
  destruct img as [x|rows]; [discriminate|].
  cbn [np.has_shape] in Himg. apply andb_true_iff in Himg as [Hlen _].
  apply Nat.eqb_eq in Hlen.
  cbn [option_map mbind option_bind np.rev_axis np.item].
  rewrite nth_error_rev, Hlen.
  destruct (Nat.ltb_spec h H); [|lia].
  now replace (H - S h) with (H - 1 - h) by lia.
Qed.

(** C9. Flipping horizontally twice gives back the array: the slice
    [[:, :, ::-1, :]] of a four-dimensional array is defined, and the same
    slice of the result is the array itself. *)
Theorem horizontal_flip_involutive (images : np.ndarray A) :
  np.ndim images = 4 ->
  exists hf_images,
    np.getitem4_rev 2 images = Ok hf_images
    /\ np.getitem4_rev 2 hf_images = Ok images.
Proof.
  intros Hr.
  exists (np.mk_array (np.shape images) (np.rev_axis 2 (np.elems images))).
  split; [apply getitem4_rev_ok; lia|].
  rewrite getitem4_rev_ok by (unfold np.ndim in *; cbn [np.shape]; lia).
  cbn [np.shape np.elems]. rewrite rev_axis_involutive. now destruct images.
Qed.
End AugmentFacts.

(** ** Data augmentation over the store *)

Section StoreFacts.
Context {A : Type}.
Implicit Types (h : gmap positive (np.ndarray A)) (r : Store.array_ref).

Lemma view_nil (a : np.ndarray A) : Store.view [] a = a.
Proof. now destruct a. Qed.

Lemma view_snoc axes k (a : np.ndarray A) :
  Store.view (axes ++ [k]) a
  = np.mk_array (np.shape a) (np.rev_axis k (np.elems (Store.view axes a))).
Proof. unfold Store.view. now rewrite fold_left_app. Qed.

Lemma read_weaken h h' r (a : np.ndarray A) :
  h ⊆ h' -> Store.read h r = Some a -> Store.read h' r = Some a.
Proof.
  unfold Store.read. intros Hsub Hr.
  destruct (h !! Store.base r) as [b|] eqn:E; [|discriminate].
  now rewrite (lookup_weaken _ _ _ _ E Hsub).
Qed.

Lemma alloc_subseteq h (a : np.ndarray A) : h ⊆ <[fresh (dom h) := a]> h.
Proof. apply insert_subseteq, not_elem_of_dom, is_fresh. Qed.

Lemma read_alloc h (a : np.ndarray A) :
  Store.read (<[fresh (dom h) := a]> h) (Store.mk_ref (fresh (dom h)) []) = Some a.
Proof.
  unfold Store.read. cbn [Store.base Store.reversed].
  rewrite lookup_insert_eq. cbn. now rewrite view_nil.
Qed.

(** A slice is a view: same buffer, same store, and it reads as the
    value-level slice of what the sliced object reads as. *)
Lemma store_getitem4_rev_ok k h r (a : np.ndarray A) :
  Store.read h r = Some a -> 4 <= np.ndim a ->
  Store.getitem4_rev k r h
  = Some (Ok (Store.mk_ref (Store.base r) (Store.reversed r ++ [k])), h)
  /\ Store.read h (Store.mk_ref (Store.base r) (Store.reversed r ++ [k]))
     = Some (np.mk_array (np.shape a) (np.rev_axis k (np.elems a))).
Proof.
  intros Hr Hn. unfold Store.getitem4_rev. rewrite Hr.
  destruct (Nat.leb_spec 4 (np.ndim a)); [|lia]. split; [reflexivity|].
  unfold Store.read in *. cbn [Store.base Store.reversed].
  destruct (h !! Store.base r) as [b|]; [|discriminate].
  cbn in *. injection Hr as <-. now rewrite view_snoc.
Qed.

Lemma store_getitem4_rev_raises k h r (a : np.ndarray A) :
  Store.read h r = Some a -> np.ndim a < 4 ->
  Store.getitem4_rev k r h = Some (Raise IndexError, h).
Proof.
  intros Hr Hn. unfold Store.getitem4_rev. rewrite Hr.
  destruct (Nat.leb_spec 4 (np.ndim a)); [lia | reflexivity].
Qed.

Lemma store_concatenate_ok h rs (arrays : list (np.ndarray A)) a :
  Store.read_all h rs = Some arrays -> np.concatenate arrays = Ok a ->
  Store.concatenate rs h
  = Some (Ok (Store.mk_ref (fresh (dom h)) []), <[fresh (dom h) := a]> h).
Proof. intros Hr Hc. unfold Store.concatenate. now rewrite Hr, Hc. Qed.

Lemma read_all3 h r1 r2 r3 (a1 a2 a3 : np.ndarray A) :
  Store.read h r1 = Some a1 -> Store.read h r2 = Some a2 ->
  Store.read h r3 = Some a3 ->
  Store.read_all h [r1; r2; r3] = Some [a1; a2; a3].
Proof. intros H1 H2 H3. cbn [Store.read_all]. now rewrite H1, H2, H3. Qed.

Lemma store_augment_data_ok h images gt_images (vi vg : np.ndarray A) :
  Store.read h images = Some vi -> Store.read h gt_images = Some vg ->
  4 <= np.ndim vi -> 4 <= np.ndim vg ->
  let b1 := fresh (dom h) in
  let h1 := <[b1 := tripled vi]> h in
  let b2 := fresh (dom h1) in
  Store.augment_data images gt_images h
  = Some (Ok (Store.mk_ref b1 [], Store.mk_ref b2 []), <[b2 := tripled vg]> h1).
Proof.
  intros Hi Hg Ni Ng b1 h1 b2. subst b2 b1.
  destruct (store_getitem4_rev_ok 2 _ _ _ Hi Ni) as [Ehf Rhf].
  destruct (store_getitem4_rev_ok 2 _ _ _ Hg Ng) as [Ehg Rhg].
  destruct (store_getitem4_rev_ok 1 _ _ _ Hi Ni) as [Evf Rvf].
  destruct (store_getitem4_rev_ok 1 _ _ _ Hg Ng) as [Evg Rvg].
  unfold Store.augment_data, mbind, Store.ST_bind.
  rewrite Ehf, Ehg, Evf, Evg.
  rewrite (store_concatenate_ok h _ _ (tripled vi)
             (read_all3 _ _ _ _ _ _ _ Rvf Hi Rhf) (concatenate_flips vi Ni)).
  fold h1. cbv beta iota.
  assert (Hsub : h ⊆ h1) by apply alloc_subseteq.
  rewrite (store_concatenate_ok h1 _ _ (tripled vg)
             (read_all3 _ _ _ _ _ _ _ (read_weaken _ _ _ _ Hsub Rvg)
                (read_weaken _ _ _ _ Hsub Hg) (read_weaken _ _ _ _ Hsub Rhg))
             (concatenate_flips vg Ng)).
  reflexivity.
Qed.

Lemma store_augment_data_raises h images gt_images (vi vg : np.ndarray A) :
  Store.read h images = Some vi -> Store.read h gt_images = Some vg ->
  np.ndim vi < 4 \/ np.ndim vg < 4 ->
  Store.augment_data images gt_images h = Some (Raise IndexError, h).
Proof.
  intros Hi Hg Hn. unfold Store.augment_data, mbind, Store.ST_bind.
  destruct (Nat.lt_ge_cases (np.ndim vi) 4) as [Ni|Ni].
  - now rewrite (store_getitem4_rev_raises 2 _ _ _ Hi Ni).
  - destruct Hn as [Hn|Ng]; [lia|].
    destruct (store_getitem4_rev_ok 2 _ _ _ Hi Ni) as [-> _].
    now rewrite (store_getitem4_rev_raises 2 _ _ _ Hg Ng).
Qed.

(** C10. [augment_data] mutates neither argument: whatever the two array
    objects read as before the call they read as after it, as does every
    other array object of the store; no buffer is written, the only change
    being the two buffers allocated for the results, which are new,
    distinct from each other, and hold what the value-level
    [augment_data] computes.  When the call raises, the store is the one
    it started from. *)
Theorem augment_data_leaves_arguments_unchanged
  h images gt_images (vi vg : np.ndarray A) :
  Store.read h images = Some vi -> Store.read h gt_images = Some vg ->
  exists out h',
    Store.augment_data images gt_images h = Some (out, h')
    /\ Store.read h' images = Some vi
    /\ Store.read h' gt_images = Some vg
    /\ h ⊆ h'
    /\ (forall r a, Store.read h r = Some a -> Store.read h' r = Some a)
    /\ match out with
       | Raise e => augment_data vi vg = Raise e /\ h' = h
       | Ok (aug_images, aug_gt_images) =>
           (Store.base aug_images ∉ dom h)
           /\ (Store.base aug_gt_images ∉ dom h)
           /\ Store.base aug_images <> Store.base aug_gt_images
           /\ exists va vl,
                augment_data vi vg = Ok (va, vl)
                /\ Store.read h' aug_images = Some va
                /\ Store.read h' aug_gt_images = Some vl
       end.
Proof.
  intros Hi Hg.
  destruct (Nat.lt_ge_cases (np.ndim vi) 4) as [Ni|Ni];
    [|destruct (Nat.lt_ge_cases (np.ndim vg) 4) as [Ng|Ng]].
  1,2: exists (Raise IndexError), h;
       rewrite (store_augment_data_raises _ _ _ _ _ Hi Hg) by auto;
       rewrite augment_data_raises by auto; repeat split; auto.
  set (b1 := fresh (dom h)). set (h1 := <[b1 := tripled vi]> h).
  set (b2 := fresh (dom h1)). set (h2 := <[b2 := tripled vg]> h1).
  assert (H1 : h ⊆ h1) by apply alloc_subseteq.
  assert (H2 : h1 ⊆ h2) by apply alloc_subseteq.
  assert (H12 : h ⊆ h2) by (etrans; eassumption).
  assert (F1 : b1 ∉ dom h) by apply is_fresh.
  assert (F2 : b2 ∉ dom h1) by apply is_fresh.
  assert (D1 : dom h1 = {[b1]} ∪ dom h) by apply dom_insert_L.
  exists (Ok (Store.mk_ref b1 [], Store.mk_ref b2 [])), h2.
  split; [now apply store_augment_data_ok|].
  repeat split; eauto using read_weaken.
  - cbn. intros Hin. apply F2. rewrite D1. apply elem_of_union. now right.
  - cbn. intros E. apply F2. rewrite D1, <- E. apply elem_of_union. left.
    now apply elem_of_singleton.
  - exists (tripled vi), (tripled vg). split; [now apply augment_data_ok|]. split.
    + apply (read_weaken h1); [exact H2 | apply read_alloc].
    + apply read_alloc.
Qed.
End StoreFacts.

(** ** The training loop *)

Section TrainingLoopFacts.
Context {A Session Loss Source Tensor : Type}.
Variable sess_run :
  Tensor -> Tensor -> feed_dict (A:=A) Tensor -> Session -> Loss * Session.
Variable get_batches_fn : Z -> Source -> list (batch (A:=A)) * Source.
Variables (batch_size : Z).
Variables (train_op cross_entropy_loss input_image correct_label keep_prob
             learning_rate : Tensor).

Abbreviation World := (world (A:=A) Session Loss Source Tensor).
Abbreviation loop_inner := (inner_body sess_run train_op cross_entropy_loss
  input_image correct_label keep_prob learning_rate).
Abbreviation loop_outer := (outer_body sess_run get_batches_fn batch_size
  train_op cross_entropy_loss input_image correct_label keep_prob learning_rate).
Abbreviation btrace := (batch_trace train_op cross_entropy_loss input_image
                      correct_label keep_prob learning_rate).
Abbreviation strace := (steps_trace train_op cross_entropy_loss input_image
                      correct_label keep_prob learning_rate).
Abbreviation etrace := (epochs_trace train_op cross_entropy_loss input_image
                      correct_label keep_prob learning_rate).

Lemma train_nn_unfold epochs :
  train_nn sess_run get_batches_fn epochs batch_size train_op
    cross_entropy_loss input_image correct_label keep_prob learning_rate
  = for_each (range epochs) loop_outer.
Proof. reflexivity. Qed.

(** One batch: a step of the optimizer on the pair [fed_pair] gives, and a
    line when the index is a multiple of ten. *)
Lemma inner_body_ok epoch b (p : batch (A:=A)) (w : World) :
  rank_compatible p ->
  let feed := feed_for input_image correct_label keep_prob learning_rate
                (fed_pair p) in
  let l := fst (sess_run train_op cross_entropy_loss feed (session w)) in
  let s := snd (sess_run train_op cross_entropy_loss feed (session w)) in
  loop_inner epoch (b, p) w
  = (Ok tt, mk_world s (source w) (trace w ++ btrace epoch b p l)).
Proof.
  intros Hp feed l s. subst feed l s. destruct p as [si sg].
  unfold inner_body, fed_pair, rank_compatible in *. cbn [fst snd] in *.
  destruct (Nat.eqb_spec (np.ndim si) 4) as [E|E].
  - rewrite augment_data_ok by (try rewrite E; auto).
    unfold mbind, Loop_bind, lift, call_sess_run, feed_for, batch_trace, fed_pair.
    cbn [fst snd session source trace].
    rewrite E. cbn [Nat.eqb fst snd].
    destruct (sess_run _ _ _ _) as [l s]. cbn [fst snd session source trace].
    destruct (Z.eqb (b mod 10) 0); unfold print, mret, Loop_ret, feed_for;
      cbn [session source trace fst snd]; rewrite <- ?app_assoc; reflexivity.
  - unfold mbind, Loop_bind, mret, Loop_ret, call_sess_run, feed_for, batch_trace, fed_pair.
    cbn [fst snd session source trace].
    destruct (Nat.eqb_spec (np.ndim si) 4) as [E'|_]; [contradiction|].
    cbn [fst snd].
    destruct (sess_run _ _ _ _) as [l s]. cbn [fst snd session source trace].
    destruct (Z.eqb (b mod 10) 0); unfold print, mret, Loop_ret, feed_for;
      cbn [session source trace fst snd]; rewrite <- ?app_assoc; reflexivity.
Qed.

Lemma for_each_cons {X} (x : X) xs (body : X -> Loop Session Loss Source Tensor unit)
  (w w' : World) :
  body x w = (Ok tt, w') ->
  for_each (x :: xs) body w = for_each xs body w'.
Proof. intros E. cbn [for_each]. unfold mbind, Loop_bind. now rewrite E. Qed.

(** The inner loop over the batches of one epoch. *)
Lemma inner_loop_ok epoch (bs : list (batch (A:=A))) :
  forall i (w : World),
    Forall rank_compatible bs ->
    exists ls s,
      List.length ls = List.length bs
      /\ for_each (combine (map Z.of_nat (seq i (List.length bs))) bs)
           (loop_inner epoch) w
         = (Ok tt, mk_world s (source w) (trace w ++ strace epoch i bs ls)).
Proof.
  induction bs as [|p bs IH]; intros i w Hok.
  - exists [], (session w). split; [reflexivity|].
    cbn. rewrite app_nil_r. now destruct w.
  - inversion Hok as [|? ? Hp Hbs]; subst.
    cbn [List.length seq map combine].
    rewrite (for_each_cons _ _ _ _ _ (inner_body_ok epoch (Z.of_nat i) p w Hp)).
    match goal with |- context [for_each _ _ ?w1] =>
      destruct (IH (S i) w1 Hbs) as (ls & s & Hlen & Hrun) end.
    eexists (_ :: ls), s. split; [cbn; now rewrite Hlen|].
    rewrite Hrun. cbn [source trace steps_trace]. now rewrite <- app_assoc.
Qed.

(** The outer loop: every epoch asks the source for its batches, then
    runs the inner loop over them. *)
Lemma epochs_ok :
  (forall src, Forall rank_compatible (fst (get_batches_fn batch_size src))) ->
  forall n e (w : World),
    exists answers w',
      for_each (map Z.of_nat (seq e n)) loop_outer w = (Ok tt, w')
      /\ List.length answers = n
      /\ Forall (fun a =>
                  (exists src, fst a = fst (get_batches_fn batch_size src))
                  /\ List.length (snd a) = List.length (fst a)) answers
      /\ trace w' = trace w ++ etrace batch_size e answers.
Proof.
  intros Hok. induction n as [|n IH]; intros e w.
  - exists [], w. cbn. rewrite app_nil_r. auto.
  - cbn [seq map].
    destruct (get_batches_fn batch_size (source w)) as [bs src] eqn:Eb.
    set (w0 := mk_world (session w) src
                 (trace w ++ [GetBatches batch_size bs]) : World).
    assert (Hbs : Forall rank_compatible bs).
    { specialize (Hok (source w)). now rewrite Eb in Hok. }
    destruct (inner_loop_ok (Z.of_nat e) bs 0 w0 Hbs) as (ls & s & Hlen & Hrun).
    assert (Hbody : loop_outer (Z.of_nat e) w
                    = (Ok tt, mk_world s src
                                (trace w0 ++ strace (Z.of_nat e) 0 bs ls))).
    { unfold outer_body, mbind, Loop_bind, call_get_batches_fn. rewrite Eb.
      fold w0. unfold enumerate. exact Hrun. }
    rewrite (for_each_cons _ _ _ _ _ Hbody).
    match goal with |- context [for_each _ _ ?w1] =>
      destruct (IH (S e) w1) as (answers & w' & Hrest & Hn & Hall & Htr) end.
    exists ((bs, ls) :: answers), w'. repeat split.
    + exact Hrest.
    + cbn. now rewrite Hn.
    + constructor; [|exact Hall]. cbn [fst snd]. split; [|exact Hlen].
      exists (source w). now rewrite Eb.
    + rewrite Htr. cbn [trace epochs_trace epoch_trace fst snd]. subst w0.
      cbn [trace]. rewrite <- !app_assoc. reflexivity.
Qed.

(** The trace of a run of [train_nn]: [epochs] epochs, each the request
    for its batches followed by the events of its batches. *)
Lemma train_nn_trace epochs (w : World) :
  (forall src, Forall rank_compatible (fst (get_batches_fn batch_size src))) ->
  exists answers w',
    train_nn sess_run get_batches_fn epochs batch_size train_op
      cross_entropy_loss input_image correct_label keep_prob learning_rate w
    = (Ok tt, w')
    /\ List.length answers = Z.to_nat epochs
    /\ Forall (fun a =>
                (exists src, fst a = fst (get_batches_fn batch_size src))
                /\ List.length (snd a) = List.length (fst a)) answers
    /\ trace w' = trace w ++ etrace batch_size 0 answers.
Proof.
  intros Hok. rewrite train_nn_unfold. unfold range.
  apply (epochs_ok Hok).
Qed.

(** *** Projections of the expected trace *)

Lemma requests_steps epoch (bs : list (batch (A:=A))) :
  forall i (ls : list Loss), requests (strace epoch i bs ls) = [].
Proof.
  induction bs as [|p bs IH]; intros i [|l ls]; try reflexivity.
  cbn [steps_trace]. unfold requests in *. rewrite flat_map_app, IH.
  unfold batch_trace. now destruct (Z.eqb _ _).
Qed.

Lemma run_feeds_steps epoch (bs : list (batch (A:=A))) :
  forall i (ls : list Loss),
    List.length ls = List.length bs ->
    run_feeds (strace epoch i bs ls)
    = map (fun p => feed_for input_image correct_label keep_prob learning_rate
                      (fed_pair p)) bs.
Proof.
  induction bs as [|p bs IH]; intros i [|l ls] Hlen; try discriminate;
    try reflexivity.
  cbn [steps_trace map]. unfold run_feeds in *. rewrite flat_map_app, IH
    by (cbn in Hlen; lia).
  unfold batch_trace. now destruct (Z.eqb _ _).
Qed.

Lemma run_losses_steps epoch (bs : list (batch (A:=A))) :
  forall i (ls : list Loss),
    List.length ls = List.length bs ->
    run_losses (strace epoch i bs ls) = ls.
Proof.
  induction bs as [|p bs IH]; intros i [|l ls] Hlen; try discriminate;
    try reflexivity.
  cbn [steps_trace]. unfold run_losses in *. rewrite flat_map_app, IH
    by (cbn in Hlen; lia).
  unfold batch_trace. now destruct (Z.eqb _ _).
Qed.

Lemma printed_steps epoch (bs : list (batch (A:=A))) :
  forall i (ls : list Loss),
    List.length ls = List.length bs ->
    printed (strace epoch i bs ls)
    = map (fun bl => (epoch, fst bl, snd bl))
        (List.filter (fun bl => Z.eqb (fst bl mod 10) 0)
           (combine (map Z.of_nat (seq i (List.length ls))) ls)).
Proof.
  induction bs as [|p bs IH]; intros i [|l ls] Hlen; try discriminate;
    try reflexivity.
  cbn [steps_trace List.length seq map combine List.filter fst].
  unfold printed in *. rewrite flat_map_app, IH by (cbn in Hlen; lia).
  unfold batch_trace. now destruct (Z.eqb _ _).
Qed.

Lemma printed_epoch epoch (a : list (batch (A:=A)) * list Loss) :
  List.length (snd a) = List.length (fst a) ->
  printed (epoch_trace train_op cross_entropy_loss input_image correct_label
             keep_prob learning_rate batch_size epoch a)
  = lines_of_epoch epoch (snd a).
Proof.
  intros Hlen. unfold epoch_trace, lines_of_epoch, enumerate.
  now rewrite <- (printed_steps epoch (fst a) 0 (snd a) Hlen).
Qed.

Implicit Types (answers : list (list (batch (A:=A)) * list Loss)).

Abbreviation eptrace := (epoch_trace train_op cross_entropy_loss input_image
  correct_label keep_prob learning_rate batch_size).

Lemma requests_epoch epoch (a : list (batch (A:=A)) * list Loss) :
  requests (eptrace epoch a) = [fst a].
Proof.
  unfold epoch_trace.
  change (requests (GetBatches batch_size (fst a) :: ?l))
    with (fst a :: requests l).
  now rewrite requests_steps.
Qed.

Lemma run_feeds_epoch epoch (a : list (batch (A:=A)) * list Loss) :
  List.length (snd a) = List.length (fst a) ->
  run_feeds (eptrace epoch a)
  = map (fun p => feed_for input_image correct_label keep_prob learning_rate
                    (fed_pair p)) (fst a).
Proof. intros Hlen. now rewrite <- (run_feeds_steps epoch (fst a) 0 (snd a) Hlen). Qed.

Lemma run_losses_epoch epoch (a : list (batch (A:=A)) * list Loss) :
  List.length (snd a) = List.length (fst a) ->
  run_losses (eptrace epoch a) = snd a.
Proof. intros Hlen. exact (run_losses_steps epoch (fst a) 0 (snd a) Hlen). Qed.

Lemma requests_epochs answers :
  forall e, requests (etrace batch_size e answers) = map fst answers.
Proof.
  induction answers as [|a answers IH]; intros e; [reflexivity|].
  cbn [epochs_trace map]. unfold requests at 1. rewrite flat_map_app.
  fold (requests (eptrace (Z.of_nat e) a)).
  fold (requests (etrace batch_size (S e) answers)).
  now rewrite requests_epoch, IH.
Qed.

Lemma run_feeds_epochs answers :
  answers_ok answers ->
  forall e,
    run_feeds (etrace batch_size e answers)
    = map (fun p => feed_for input_image correct_label keep_prob learning_rate
                      (fed_pair p)) (concat (map fst answers)).
Proof.
  induction 1 as [|a answers Ha _ IH]; intros e; [reflexivity|].
  cbn [epochs_trace map concat]. rewrite map_app.
  unfold run_feeds at 1. rewrite flat_map_app.
  fold (run_feeds (eptrace (Z.of_nat e) a)).
  fold (run_feeds (etrace batch_size (S e) answers)).
  now rewrite run_feeds_epoch, IH.
Qed.

Lemma run_losses_epochs answers :
  answers_ok answers ->
  forall e, run_losses (etrace batch_size e answers) = concat (map snd answers).
Proof.
  induction 1 as [|a answers Ha _ IH]; intros e; [reflexivity|].
  cbn [epochs_trace map concat].
  unfold run_losses at 1. rewrite flat_map_app.
  fold (run_losses (eptrace (Z.of_nat e) a)).
  fold (run_losses (etrace batch_size (S e) answers)).
  now rewrite run_losses_epoch, IH.
Qed.

Lemma printed_epochs answers :
  answers_ok answers ->
  forall e,
    printed (etrace batch_size e answers)
    = concat (map (fun el => lines_of_epoch (fst el) (snd el))
                (combine (map Z.of_nat (seq e (List.length answers)))
                   (map snd answers))).
Proof.
  induction 1 as [|a answers Ha _ IH]; intros e; [reflexivity|].
  cbn [epochs_trace List.length seq map combine concat fst snd].
  unfold printed at 1. rewrite flat_map_app.
  fold (printed (eptrace (Z.of_nat e) a)).
  fold (printed (etrace batch_size (S e) answers)).
  now rewrite printed_epoch, IH.
Qed.

Lemma length_concat_uniform {X} (K : nat) (ls : list (list X)) :
  Forall (fun l => List.length l = K) ls ->
  List.length (concat ls) = List.length ls * K.
Proof.
  induction 1 as [|l ls Hl _ IH]; [reflexivity|].
  cbn [concat List.length]. rewrite length_app, IH, Hl. lia.
Qed.




(** C8. A line is printed for a batch exactly when its index is a multiple
    of ten: with [losses] the losses fetched, epoch by epoch and batch by
    batch, the lines printed are, in order, those of the epochs, and the
    lines of an epoch are its (epoch, index, loss) at the indices [b] with
    [b mod 10 = 0].  A run of one epoch over one batch prints the one line
    of index 0. *)
Theorem train_nn_prints_every_tenth_batch (E K : nat) (w : World) :
  (forall src, List.length (fst (get_batches_fn batch_size src)) = K) ->
  (forall src, Forall rank_compatible (fst (get_batches_fn batch_size src))) ->
  exists w' evs (losses : list (list Loss)),
    train_nn sess_run get_batches_fn (Z.of_nat E) batch_size train_op
      cross_entropy_loss input_image correct_label keep_prob learning_rate w
    = (Ok tt, w')
    /\ trace w' = trace w ++ evs
    /\ List.length losses = E
    /\ Forall (fun ls => List.length ls = K) losses
    /\ run_losses evs = concat losses
    /\ printed evs
       = concat (map (fun el => lines_of_epoch (fst el) (snd el))
                   (enumerate losses))
    /\ (E = 1 -> K = 1 ->
        exists l, run_losses evs = [l] /\ printed evs = [(0%Z, 0%Z, l)]).
Proof.
  intros HK Hok.
  destruct (train_nn_trace (Z.of_nat E) w Hok) as (answers & w' & Hrun & Hn & Hall & Htr).
  rewrite Nat2Z.id in Hn.
  assert (Hans : answers_ok answers).
  { eapply List.Forall_impl; [|exact Hall]. now intros a [_ Hl]. }
  assert (HlenK : Forall (fun ls : list Loss => List.length ls = K) (map snd answers)).
  { apply List.Forall_map. eapply List.Forall_impl; [|exact Hall].
    intros a [[src Ha] Hl]. cbn. now rewrite Hl, Ha. }
  assert (Hpr : printed (etrace batch_size 0 answers)
       = concat (map (fun el => lines_of_epoch (fst el) (snd el))
                   (enumerate (map snd answers)))).
  { rewrite (printed_epochs answers Hans). unfold enumerate. now rewrite length_map. }
  exists w', (etrace batch_size 0 answers), (map snd answers).
  repeat split; try assumption.
  - now rewrite length_map.
  - now apply run_losses_epochs.
  - intros -> ->. rewrite Hpr, (run_losses_epochs answers Hans).
    destruct answers as [|[bs ls] [|]]; try discriminate.
    inversion HlenK as [|? ? Hls _]; subst. cbn [snd] in Hls.
    destruct ls as [|l [|]]; try discriminate.
    exists l. split; reflexivity.
Qed.
End TrainingLoopFacts.

(** ** The decoder *)

Section DecoderFacts.
Variable fed : string -> option (list nat).

Lemma broadcast_rev_same s : tf.broadcast_rev s s = Some s.
Proof.
  induction s as [|a s IH]; [reflexivity|].
  cbn [tf.broadcast_rev]. now rewrite Nat.eqb_refl, IH.
Qed.

Lemma broadcast_same s : tf.broadcast s s = Some s.
Proof. unfold tf.broadcast. now rewrite broadcast_rev_same; cbn; rewrite rev_involutive. Qed.

Lemma conv_output_length_1x1 n : tf.conv_output_length n 1 1 tf.SAME = Some n.
Proof.
  unfold tf.conv_output_length. cbn [Nat.eqb orb].
  now rewrite Nat.add_sub, Nat.div_1_r.
Qed.

Lemma deconv_output_length_same n kernel stride :
  1 <= stride -> 1 <= kernel ->
  tf.deconv_output_length n kernel stride tf.SAME = Some (n * stride).
Proof.
  intros Hs Hk. unfold tf.deconv_output_length.
  destruct (Nat.eqb_spec stride 0); [lia|].
  destruct (Nat.eqb_spec kernel 0); [lia|]. reflexivity.
Qed.

Lemma shape_project x (num_classes : Z) name (N H W C : nat) :
  tf.shape_of fed x = Some [N; H; W; C] -> (0 <= num_classes)%Z ->
  tf.shape_of fed (project_to_classes x num_classes name)
  = Some [N; H; W; Z.to_nat num_classes].
Proof.
  intros Hx Hn. cbn [project_to_classes tf.shape_of]. rewrite Hx.
  cbn [mbind option_bind]. unfold tf.conv_shape.
  cbn [tf.filters tf.kernel_size tf.strides tf.padding fst snd].
  destruct (Z.ltb_spec num_classes 0); [lia|].
  now rewrite !conv_output_length_1x1.
Qed.

Lemma shape_upsample factor kernel x (num_classes : Z) name (N H W C : nat) :
  tf.shape_of fed x = Some [N; H; W; C] -> (0 <= num_classes)%Z ->
  1 <= factor -> 1 <= kernel ->
  tf.shape_of fed (upsample factor kernel x num_classes name)
  = Some [N; H * factor; W * factor; Z.to_nat num_classes].
Proof.
  intros Hx Hn Hf Hk. cbn [upsample tf.shape_of]. rewrite Hx.
  cbn [mbind option_bind]. unfold tf.conv_shape.
  cbn [tf.filters tf.kernel_size tf.strides tf.padding fst snd].
  destruct (Z.ltb_spec num_classes 0); [lia|].
  now rewrite !deconv_output_length_same by assumption.
Qed.

Lemma shape_fuse a b name s :
  tf.shape_of fed a = Some s -> tf.shape_of fed b = Some s ->
  tf.shape_of fed (fuse a b name) = Some s.
Proof.
  intros Ha Hb. cbn [fuse tf.shape_of]. rewrite Ha, Hb. cbn.
  apply broadcast_same.
Qed.

Lemma layers_decoder_steps l3 l4 l7 num_classes :
  layers l3 l4 l7 num_classes = decoder_steps l3 l4 l7 num_classes.
Proof. reflexivity. Qed.

(** The shapes along the decoder, for feature maps at the three
    resolutions of the backbone. *)
Lemma decoder_stage_shapes l3 l4 l7 (num_classes : Z) (N h w c3 c4 c7 : nat) :
  tf.shape_of fed l3 = Some [N; 4 * h; 4 * w; c3] ->
  tf.shape_of fed l4 = Some [N; 2 * h; 2 * w; c4] ->
  tf.shape_of fed l7 = Some [N; h; w; c7] ->
  (0 <= num_classes)%Z ->
  let nc := Z.to_nat num_classes in
  let p3 := project_to_classes l3 num_classes "layer3_fcn" in
  let p4 := project_to_classes l4 num_classes "layer4_fcn" in
  let p7 := project_to_classes l7 num_classes "layer7_fcn" in
  let up7 := upsample 2 4 p7 num_classes "layer7_up" in
  let skip4 := fuse p4 up7 "layer4_skip" in
  let up4 := upsample 2 4 skip4 num_classes "layer4_up" in
  let skip3 := fuse p3 up4 "layer3_skip" in
  let heatmap := upsample 8 16 skip3 num_classes "class_heatmap" in
  tf.shape_of fed p3 = Some [N; 4 * h; 4 * w; nc]
  /\ tf.shape_of fed p4 = Some [N; 2 * h; 2 * w; nc]
  /\ tf.shape_of fed p7 = Some [N; h; w; nc]
  /\ tf.shape_of fed up7 = Some [N; 2 * h; 2 * w; nc]
  /\ tf.shape_of fed skip4 = Some [N; 2 * h; 2 * w; nc]
  /\ tf.shape_of fed up4 = Some [N; 4 * h; 4 * w; nc]
  /\ tf.shape_of fed skip3 = Some [N; 4 * h; 4 * w; nc]
  /\ tf.shape_of fed heatmap = Some [N; 32 * h; 32 * w; nc].
Proof.
  intros H3 H4 H7 Hn nc p3 p4 p7 up7 skip4 up4 skip3 heatmap.
  assert (S3 : tf.shape_of fed p3 = Some [N; 4 * h; 4 * w; nc])
    by now apply shape_project with (C := c3).
  assert (S4 : tf.shape_of fed p4 = Some [N; 2 * h; 2 * w; nc])
    by now apply shape_project with (C := c4).
  assert (S7 : tf.shape_of fed p7 = Some [N; h; w; nc])
    by now apply shape_project with (C := c7).
  assert (U7 : tf.shape_of fed up7 = Some [N; 2 * h; 2 * w; nc]).
  { unfold up7. rewrite (shape_upsample 2 4 p7 _ _ N h w nc S7) by lia.
    now rewrite !(Nat.mul_comm _ 2). }
  assert (K4 : tf.shape_of fed skip4 = Some [N; 2 * h; 2 * w; nc])
    by now apply shape_fuse.
  assert (U4 : tf.shape_of fed up4 = Some [N; 4 * h; 4 * w; nc]).
  { unfold up4. rewrite (shape_upsample 2 4 skip4 _ _ N _ _ nc K4) by lia.
    do 3 f_equal; [|f_equal]; lia. }
  assert (K3 : tf.shape_of fed skip3 = Some [N; 4 * h; 4 * w; nc])
    by now apply shape_fuse.
  repeat split; try assumption.
  unfold heatmap. rewrite (shape_upsample 8 16 skip3 _ _ N _ _ nc K3) by lia.
  do 3 f_equal; [|f_equal]; lia.
Qed.

(** C1 (amended). For feature maps of one batch size at the three
    resolutions of the backbone (the finest four times, the middle one
    twice the coarsest) and at least one class, the heat-map [layers]
    builds has 32 times the height and width of the coarsest map, which is
    8 times those of the finest, and as many channels as classes. *)
Theorem layers_heatmap_shape l3 l4 l7 (num_classes : Z) (N h w c3 c4 c7 : nat) :
  tf.shape_of fed l3 = Some [N; 4 * h; 4 * w; c3] ->
  tf.shape_of fed l4 = Some [N; 2 * h; 2 * w; c4] ->
  tf.shape_of fed l7 = Some [N; h; w; c7] ->
  (1 <= num_classes)%Z ->
  tf.shape_of fed (layers l3 l4 l7 num_classes)
  = Some [N; 32 * h; 32 * w; Z.to_nat num_classes]
  /\ 32 * h = 8 * (4 * h) /\ 32 * w = 8 * (4 * w).
Proof.
  intros H3 H4 H7 Hn. split; [|lia].
  rewrite layers_decoder_steps.
  apply (decoder_stage_shapes l3 l4 l7 num_classes N h w c3 c4 c7);
    try assumption; lia.
Qed.

(** C5. [layers] is the decoder of the design: three 1x1, stride-1,
    same-padding projections to the classes with no activation; the
    coarsest projection upsampled by a 4x4 stride-2 transposed convolution
    (twice the height and width) and added to the middle projection; the
    sum upsampled the same way and added to the finest projection; that
    sum upsampled by a 16x16 stride-8 transposed convolution (eight times
    the height and width), which is what is returned. *)
Theorem layers_follows_decoder_steps
  l3 l4 l7 (num_classes : Z) (N h w c3 c4 c7 : nat) :
  tf.shape_of fed l3 = Some [N; 4 * h; 4 * w; c3] ->
  tf.shape_of fed l4 = Some [N; 2 * h; 2 * w; c4] ->
  tf.shape_of fed l7 = Some [N; h; w; c7] ->
  (1 <= num_classes)%Z ->
  let conv1x1 name :=
    tf.mk_conv_args num_classes (1, 1) (1, 1) tf.SAME None
      tf.variance_scaling_initializer name in
  let deconv k s name :=
    tf.mk_conv_args num_classes (k, k) (s, s) tf.SAME None
      tf.variance_scaling_initializer name in
  let nc := Z.to_nat num_classes in
  let p3 := tf.Conv2D l3 (conv1x1 "layer3_fcn"%string) in
  let p4 := tf.Conv2D l4 (conv1x1 "layer4_fcn"%string) in
  let p7 := tf.Conv2D l7 (conv1x1 "layer7_fcn"%string) in
  let up7 := tf.Conv2DTranspose p7 (deconv 4 2 "layer7_up"%string) in
  let skip4 := tf.Add p4 up7 "layer4_skip" in
  let up4 := tf.Conv2DTranspose skip4 (deconv 4 2 "layer4_up"%string) in
  let skip3 := tf.Add p3 up4 "layer3_skip" in
  layers l3 l4 l7 num_classes
  = tf.Conv2DTranspose skip3 (deconv 16 8 "class_heatmap"%string)
  /\ layers l3 l4 l7 num_classes = decoder_steps l3 l4 l7 num_classes
  /\ tf.shape_of fed p3 = Some [N; 4 * h; 4 * w; nc]
  /\ tf.shape_of fed p4 = Some [N; 2 * h; 2 * w; nc]
  /\ tf.shape_of fed p7 = Some [N; h; w; nc]
  /\ tf.shape_of fed up7 = Some [N; 2 * h; 2 * w; nc]
  /\ tf.shape_of fed skip4 = Some [N; 2 * h; 2 * w; nc]
  /\ tf.shape_of fed up4 = Some [N; 2 * (2 * h); 2 * (2 * w); nc]
  /\ tf.shape_of fed skip3 = Some [N; 4 * h; 4 * w; nc]
  /\ tf.shape_of fed (layers l3 l4 l7 num_classes)
     = Some [N; 8 * (4 * h); 8 * (4 * w); nc].
Proof.
  intros H3 H4 H7 Hn conv1x1 deconv nc p3 p4 p7 up7 skip4 up4 skip3.
  assert (Hn0 : (0 <= num_classes)%Z) by lia.
  destruct (decoder_stage_shapes l3 l4 l7 num_classes N h w c3 c4 c7
              H3 H4 H7 Hn0) as (S3 & S4 & S7 & U7 & K4 & U4 & K3 & HM).
  repeat split; try assumption.
  - replace (2 * (2 * h)) with (4 * h) by lia.
    replace (2 * (2 * w)) with (4 * w) by lia. exact U4.
  - replace (8 * (4 * h)) with (32 * h) by lia.
    replace (8 * (4 * w)) with (32 * w) by lia. exact HM.
Qed.
End DecoderFacts.

(** C1, as stated, fails: on the feature maps of a 160x576 image the
    heat-map is 160x576, not 8 times the 5x18 of the coarsest map. *)
Lemma layers_heatmap_not_8x_coarsest :
  ~ (forall fed l3 l4 l7 (num_classes : Z) (N h w c3 c4 c7 : nat),
        tf.shape_of fed l3 = Some [N; 4 * h; 4 * w; c3] ->
        tf.shape_of fed l4 = Some [N; 2 * h; 2 * w; c4] ->
        tf.shape_of fed l7 = Some [N; h; w; c7] ->
        (1 <= num_classes)%Z ->
        tf.shape_of fed (layers l3 l4 l7 num_classes)
        = Some [N; 8 * h; 8 * w; Z.to_nat num_classes]).
Proof.
  intros claim.
  specialize (claim kitti_feature_shapes
                (tf.Placeholder "layer3_out:0") (tf.Placeholder "layer4_out:0")
                (tf.Placeholder "layer7_out:0") 2%Z 1 5 18 256 512 4096
                eq_refl eq_refl eq_refl ltac:(lia)).
  vm_compute in claim. discriminate claim.
Qed.

Example layers_kitti_heatmap :
  tf.shape_of kitti_feature_shapes
    (layers (tf.Placeholder "layer3_out:0") (tf.Placeholder "layer4_out:0")
       (tf.Placeholder "layer7_out:0") 2)
  = Some [1; 160; 576; 2].
Proof. vm_compute. reflexivity. Qed.

(** ** Flattening a batch to its pixel rows *)

Section RavelFacts.
Context {A : Type}.
Implicit Types (t p : np.nested A) (l : list (np.nested A)) (xs : list A).

Lemma flat_items_spec n s l :
  forallb (np.has_shape (n :: s)) l = true ->
  flat_map np.ravel_items l = flat_map np.ravel_items (flat_map np.items l)
  /\ List.length (flat_map np.items l) = List.length l * n
  /\ forallb (np.has_shape s) (flat_map np.items l) = true.
Proof.
  induction l as [|t l IH]; intros Hl; [now repeat split|].
  cbn [forallb] in Hl. apply andb_true_iff in Hl as [Ht Hl].
  destruct (IH Hl) as (E & Hlen & Hall).
  destruct t as [x|ts]; [discriminate|]. cbn [np.has_shape] in Ht.
  apply andb_true_iff in Ht as [Hn Hts]. apply Nat.eqb_eq in Hn.
  cbn [flat_map np.items np.ravel_items]. repeat split.
  - now rewrite flat_map_app, E.
  - rewrite length_app, Hlen, Hn. cbn. lia.
  - now rewrite forallb_app, Hts, Hall.
Qed.

Lemma pixels_spec t (B H W C : nat) :
  np.has_shape [B; H; W; C] t = true ->
  np.ravel_items t = concat (map np.ravel_items (np.pixels t))
  /\ List.length (np.pixels t) = B * H * W
  /\ forallb (np.has_shape [C]) (np.pixels t) = true.
Proof.
  intros Ht. destruct t as [x|imgs]; [discriminate|]. cbn [np.has_shape] in Ht.
  apply andb_true_iff in Ht as [HB Himgs]. apply Nat.eqb_eq in HB.
  destruct (flat_items_spec H [W; C] imgs Himgs) as (E1 & L1 & A1).
  destruct (flat_items_spec W [C] _ A1) as (E2 & L2 & A2).
  unfold np.pixels. cbn [np.items np.ravel_items]. repeat split.
  - now rewrite E1, E2, flat_map_concat_map.
  - now rewrite L2, L1, HB.
  - exact A2.
Qed.

Lemma has_shape_vector p (C : nat) :
  np.has_shape [C] p = true ->
  List.length (np.ravel_items p) = C
  /\ p = np.Node (map np.Leaf (np.ravel_items p)).
Proof.
  destruct p as [x|l]; [discriminate|]. cbn [np.has_shape np.ravel_items].
  intros Hp. apply andb_true_iff in Hp as [Hn Hl]. apply Nat.eqb_eq in Hn.
  subst C. clear -Hl. induction l as [|t l IH]; [now split|].
  cbn [forallb] in Hl. apply andb_true_iff in Hl as [Ht Hl].
  destruct t as [x|?]; [|discriminate]. destruct (IH Hl) as [IH1 IH2].
  cbn. split; [now rewrite IH1|]. injection IH2 as IH2. now rewrite <- IH2.
Qed.

Lemma chunks_concat {X} (width : nat) (rows : list (list X)) :
  Forall (fun r => List.length r = width) rows ->
  np.chunks (List.length rows) width (concat rows) = rows.
Proof.
  induction 1 as [|r rows Hr _ IH]; [reflexivity|].
  cbn [List.length np.chunks concat].
  rewrite firstn_app, <- Hr, Nat.sub_diag, firstn_all, firstn_O, app_nil_r.
  rewrite skipn_app, Nat.sub_diag, skipn_all, skipn_O. cbn [app].
  rewrite Hr. now rewrite IH.
Qed.

Lemma mapM_total {X Y} (f : X -> option Y) (g : X -> Y) (l : list X) :
  Forall (fun x => f x = Some (g x)) l -> mapM f l = Some (map g l).
Proof.
  induction 1 as [|x l Hx _ IH]; [reflexivity|].
  cbn. rewrite Hx. cbn. rewrite IH. reflexivity.
Qed.

Lemma chunks_singletons xs :
  np.chunks (List.length xs) 1 xs = map (fun x => [x]) xs.
Proof.
  induction xs as [|x xs IH]; [reflexivity|].
  cbn [List.length np.chunks firstn skipn map].
  now rewrite firstn_O, skipn_O, IH.
Qed.

Lemma mapM_unravel_leaves xs :
  mapM (np.unravel_items []) (map (fun x => [x]) xs) = Some (map (@np.Leaf A) xs).
Proof.
  induction xs as [|x xs IH]; [reflexivity|].
  cbn [map mapM]. rewrite IH. reflexivity.
Qed.

Lemma unravel_vector xs :
  np.unravel_items [List.length xs] xs = Some (np.Node (map np.Leaf xs)).
Proof.
  change (np.unravel_items [List.length xs] xs)
    with (if Nat.eqb (List.length xs) (List.length xs * 1)
          then np.Node <$> mapM (np.unravel_items [])
                             (np.chunks (List.length xs) 1 xs)
          else None).
  rewrite Nat.mul_1_r, Nat.eqb_refl, chunks_singletons, mapM_unravel_leaves.
  reflexivity.
Qed.

(** Rows of one width, laid end to end and cut again into a matrix. *)
Lemma unravel_rows (width : nat) (rows : list (list A)) :
  Forall (fun r => List.length r = width) rows ->
  np.unravel_items [List.length rows; width] (concat rows)
  = Some (np.Node (map (fun r => np.Node (map np.Leaf r)) rows)).
Proof.
  intros Hrows.
  change (np.unravel_items [List.length rows; width] (concat rows))
    with (if Nat.eqb (List.length (concat rows)) (List.length rows * (width * 1))
          then np.Node <$> mapM (np.unravel_items [width])
                             (np.chunks (List.length rows) (width * 1) (concat rows))
          else None).
  rewrite Nat.mul_1_r, (length_concat_uniform width rows Hrows), Nat.eqb_refl.
  rewrite (chunks_concat width rows Hrows).
  rewrite (mapM_total _ (fun r => np.Node (map np.Leaf r))); [reflexivity|].
  eapply List.Forall_impl; [|exact Hrows].
  intros r <-. apply unravel_vector.
Qed.

Lemma ravel_of_rows (rows : list (list A)) :
  np.ravel_items (np.Node (map (fun r => np.Node (map np.Leaf r)) rows))
  = concat rows.
Proof.
  cbn [np.ravel_items]. induction rows as [|r rows IH]; [reflexivity|].
  cbn [map flat_map concat]. rewrite IH. f_equal.
  cbn [np.ravel_items]. clear. induction r as [|x r IH]; [reflexivity|].
  cbn. now rewrite IH.
Qed.

(** The pixel rows of a batch, end to end, are its items in row-major
    order; there are [B*H*W] of them, each [C] long; and the matrix of the
    rows has the pixels for items. *)
Lemma pixel_rows_spec (a : np.ndarray A) (B H W C : nat) :
  np.shape a = [B; H; W; C] -> np.wf a = true ->
  np.ravel_items (np.elems a) = concat (np.pixel_rows a)
  /\ List.length (np.pixel_rows a) = B * H * W
  /\ Forall (fun r => List.length r = C) (np.pixel_rows a)
  /\ map (fun r => np.Node (map np.Leaf r)) (np.pixel_rows a)
     = np.pixels (np.elems a).
Proof.
  unfold np.wf, np.pixel_rows. intros -> Hw.
  destruct (pixels_spec _ _ _ _ _ Hw) as (E & L & Hall).
  repeat split.
  - exact E.
  - now rewrite length_map.
  - apply List.Forall_forall. intros r Hr. apply in_map_iff in Hr as (p & <- & Hp).
    rewrite forallb_forall in Hall. now apply has_shape_vector, Hall.
  - rewrite map_map. rewrite <- (map_id (np.pixels (np.elems a))) at 2.
    apply map_ext_in. intros p Hp. rewrite forallb_forall in Hall.
    symmetry. now apply (has_shape_vector p C), Hall.
Qed.
End RavelFacts.

(** ** The loss head *)

Section LossValueFacts.
Implicit Types (rows : list (list R)) (v : tf.value).

Lemma resolve_shape_rows (n C : nat) :
  1 <= C -> tf.resolve_shape [(-1)%Z; Z.of_nat C] (n * C) = Some [n; C].
Proof.
  intros HC. unfold tf.resolve_shape.
  assert (E : Z.eqb (Z.of_nat C) (-1) = false) by (apply Z.eqb_neq; lia).
  assert (L : Z.leb (-1) (Z.of_nat C) = true) by (apply Z.leb_le; lia).
  cbn [forallb List.filter map]. rewrite L, E.
  change (Z.leb (-1) (-1)) with true. change (Z.eqb (-1) (-1)) with true.
  cbn [andb negb List.length map List.filter np.prod fold_right].
  rewrite Nat2Z.id, Nat.mul_1_r.
  destruct (Nat.ltb_spec 0 C); [|lia].
  rewrite Nat.Div0.mod_mul, Nat.div_mul by lia. reflexivity.
Qed.

(** [tf.reshape(x, [-1, C])] on an array whose items are rows of [C]
    values end to end: the matrix of the rows. *)
Lemma reshape_value_rows (C : nat) rows v :
  1 <= C -> Forall (fun r => List.length r = C) rows ->
  np.ravel_items (np.elems v) = concat rows ->
  tf.reshape_value [(-1)%Z; Z.of_nat C] v = Some (np.of_rows C rows).
Proof.
  intros HC Hrows Hv. unfold tf.reshape_value. rewrite Hv.
  rewrite (length_concat_uniform C rows Hrows), (resolve_shape_rows _ C HC).
  cbn [mbind option_bind]. now rewrite (unravel_rows C rows Hrows).
Qed.

Lemma reshape_value_pixels v (B H W C : nat) :
  np.shape v = [B; H; W; C] -> np.wf v = true -> 1 <= C ->
  tf.reshape_value [(-1)%Z; Z.of_nat C] v = Some (np.of_rows C (np.pixel_rows v)).
Proof.
  intros Hs Hw HC. destruct (pixel_rows_spec v B H W C Hs Hw) as (E & _ & Hall & _).
  now apply reshape_value_rows.
Qed.

Lemma ravel_leaves (xs : list R) :
  np.ravel_items (np.Node (map np.Leaf xs)) = xs.
Proof.
  cbn [np.ravel_items]. induction xs as [|x xs IH]; [reflexivity|].
  cbn. now rewrite IH.
Qed.

(** Row by row: the cost of a matrix of scores against a matrix of
    labels is the vector of the costs of their rows. *)
Lemma softmax_cross_entropy_rows (C : nat) (labels logits : list (list R)) :
  List.length labels = List.length logits ->
  Forall (fun r => List.length r = C) labels ->
  Forall (fun r => List.length r = C) logits ->
  tf.softmax_cross_entropy_value (np.of_rows C labels) (np.of_rows C logits)
  = Some (np.mk_array [List.length logits]
            (np.Node (map np.Leaf
               (zip_with tf.softmax_cross_entropy_row labels logits)))).
Proof.
  intros Hlen Hl Hz. unfold tf.softmax_cross_entropy_value, np.of_rows.
  cbn [np.shape np.elems].
  rewrite bool_decide_eq_true_2 by (now rewrite Hlen).
  cbn [rev app np.prod fold_right]. rewrite Nat.mul_1_r, !ravel_of_rows.
  rewrite (chunks_concat C logits Hz).
  rewrite <- Hlen, (chunks_concat C labels Hl).
  set (costs := zip_with tf.softmax_cross_entropy_row labels logits).
  assert (Hc : List.length costs = List.length labels).
  { unfold costs. rewrite length_zip_with. lia. }
  rewrite <- Hc, unravel_vector. reflexivity.
Qed.

Lemma reduce_mean_vector (n : nat) (xs : list R) :
  xs <> [] ->
  tf.reduce_mean_value (np.mk_array [n] (np.Node (map np.Leaf xs)))
  = Some (tf.scalar (tf.sum xs / INR (List.length xs))).
Proof.
  intros Hne. unfold tf.reduce_mean_value. cbn [np.elems].
  rewrite ravel_leaves. destruct xs; [contradiction|reflexivity].
Qed.

(** The per-pixel costs of a heat-map against a label tensor. *)
Lemma eval_loss_head network hm lab (vh vl : tf.value) (B H W C : nat) :
  tf.eval network hm = Some vh -> tf.eval network lab = Some vl ->
  np.shape vh = [B; H; W; C] -> np.wf vh = true ->
  np.shape vl = [B; H; W; C] -> np.wf vl = true ->
  1 <= C -> 1 <= B * H * W ->
  let shape := [(-1)%Z; Z.of_nat C] in
  let costs := zip_with tf.softmax_cross_entropy_row
                 (np.pixel_rows vl) (np.pixel_rows vh) in
  tf.eval network (tf.Reshape hm shape) = Some (np.of_rows C (np.pixel_rows vh))
  /\ tf.eval network (tf.Reshape lab shape) = Some (np.of_rows C (np.pixel_rows vl))
  /\ List.length costs = B * H * W
  /\ tf.eval network
       (tf.Mean (tf.SoftmaxCrossEntropyWithLogits
                   (tf.Reshape lab shape) (tf.Reshape hm shape)))
     = Some (tf.scalar (tf.sum costs / INR (B * H * W))).
Proof.
  intros Eh El Sh Wh Sl Wl HC Hn shape costs.
  destruct (pixel_rows_spec vh B H W C Sh Wh) as (_ & Lh & Ah & _).
  destruct (pixel_rows_spec vl B H W C Sl Wl) as (_ & Ll & Al & _).
  assert (Rh : tf.eval network (tf.Reshape hm shape)
               = Some (np.of_rows C (np.pixel_rows vh))).
  { cbn [tf.eval]. rewrite Eh. cbn [mbind option_bind].
    now apply reshape_value_pixels with (B := B) (H := H) (W := W). }
  assert (Rl : tf.eval network (tf.Reshape lab shape)
               = Some (np.of_rows C (np.pixel_rows vl))).
  { cbn [tf.eval]. rewrite El. cbn [mbind option_bind].
    now apply reshape_value_pixels with (B := B) (H := H) (W := W). }
  assert (Lc : List.length costs = B * H * W).
  { unfold costs. rewrite length_zip_with. lia. }
  repeat split; try assumption.
  change (tf.eval network (tf.Mean ?x)) with (tf.eval network x ≫= tf.reduce_mean_value).
  change (tf.eval network (tf.SoftmaxCrossEntropyWithLogits ?l ?z))
    with (vl ← tf.eval network l; vz ← tf.eval network z;
          tf.softmax_cross_entropy_value vl vz).
  rewrite Rh, Rl. cbn [mbind option_bind].
  rewrite (softmax_cross_entropy_rows C) by (try assumption; lia).
  cbn [mbind option_bind]. fold costs.
  rewrite reduce_mean_vector, Lc; [reflexivity|].
  intros E. rewrite E in Lc. cbn in Lc. lia.
Qed.

(** C3. [optimize] flattens heat-map and labels from [B,H,W,C] to
    [B*H*W, C], one row for each pixel in row-major order; the loss is the
    mean over the rows of the softmax cross-entropy of a score row against
    its label row, a scalar; and the training operation minimises that
    loss. *)
Theorem optimize_loss_is_mean_pixel_cross_entropy
  network hm lab lr (num_classes : Z) (vh vl : tf.value) (B H W C : nat) :
  tf.eval network hm = Some vh -> tf.eval network lab = Some vl ->
  np.shape vh = [B; H; W; C] -> np.wf vh = true ->
  np.shape vl = [B; H; W; C] -> np.wf vl = true ->
  num_classes = Z.of_nat C -> 1 <= C -> 1 <= B * H * W ->
  let '(logits, train_op, loss) := optimize hm lab lr num_classes in
  let labels := tf.reshape lab [(-1)%Z; num_classes] in
  let costs := zip_with tf.softmax_cross_entropy_row
                 (np.pixel_rows vl) (np.pixel_rows vh) in
  tf.eval network logits = Some (np.of_rows C (np.pixel_rows vh))
  /\ tf.eval network labels = Some (np.of_rows C (np.pixel_rows vl))
  /\ np.shape (np.of_rows C (np.pixel_rows vh)) = [B * H * W; C]
  /\ np.shape (np.of_rows C (np.pixel_rows vl)) = [B * H * W; C]
  /\ np.elems (np.of_rows C (np.pixel_rows vh)) = np.Node (np.pixels (np.elems vh))
  /\ np.elems (np.of_rows C (np.pixel_rows vl)) = np.Node (np.pixels (np.elems vl))
  /\ loss = tf.Mean (tf.SoftmaxCrossEntropyWithLogits labels logits)
  /\ List.length costs = B * H * W
  /\ tf.eval network loss = Some (tf.scalar (tf.sum costs / INR (B * H * W)))
  /\ train_op = tf.Minimize (tf.Adam lr) loss.
Proof.
  intros Eh El Sh Wh Sl Wl -> HC Hn. cbn [optimize].
  destruct (eval_loss_head network hm lab vh vl B H W C Eh El Sh Wh Sl Wl HC Hn)
    as (Rh & Rl & Lc & Hloss).
  destruct (pixel_rows_spec vh B H W C Sh Wh) as (_ & Lh & _ & Ph).
  destruct (pixel_rows_spec vl B H W C Sl Wl) as (_ & Ll & _ & Pl).
  repeat split; try assumption.
  - unfold np.of_rows. cbn [np.shape]. now rewrite Lh.
  - unfold np.of_rows. cbn [np.shape]. now rewrite Ll.
  - unfold np.of_rows. cbn [np.elems]. now rewrite Ph.
  - unfold np.of_rows. cbn [np.elems]. now rewrite Pl.
Qed.
End LossValueFacts.

(** ** Sums, softmax and the cost of a row *)

Section LossOrderFacts.
Local Open Scope R_scope.

Lemma sum_nil : tf.sum [] = 0.
Proof. reflexivity. Qed.

Lemma sum_cons (x : R) (xs : list R) : tf.sum (x :: xs) = x + tf.sum xs.
Proof. reflexivity. Qed.

Lemma sum_nonneg (xs : list R) : Forall (fun x => 0 <= x) xs -> 0 <= tf.sum xs.
Proof.
  induction 1 as [|x xs Hx _ IH]; [rewrite sum_nil; lra|].
  rewrite sum_cons. lra.
Qed.

Lemma sum_exp_nonneg (zs : list R) : 0 <= tf.sum (map exp zs).
Proof.
  apply sum_nonneg. apply List.Forall_map, List.Forall_forall.
  intros x _. left. apply exp_pos.
Qed.

Lemma sum_exp_pos (zs : list R) : zs <> [] -> 0 < tf.sum (map exp zs).
Proof.
  destruct zs as [|z zs]; [contradiction|]. intros _.
  cbn [map]. rewrite sum_cons.
  pose proof (sum_exp_nonneg zs). pose proof (exp_pos z). lra.
Qed.


Lemma nth_map_any {X Y} (f : X -> Y) (l : list X) (k : nat) (d : X) (d' : Y) :
  (k < List.length l)%nat -> nth k (map f l) d' = f (nth k l d).
Proof.
  revert k. induction l as [|x l IH]; intros [|k] Hk; cbn in *; try lia.
  - reflexivity.
  - apply IH. lia.
Qed.

Lemma nth_softmax (zs : list R) (k : nat) :
  (k < List.length zs)%nat ->
  nth k (tf.softmax zs) 0 = exp (nth k zs 0) / tf.sum (map exp zs).
Proof. intros Hk. unfold tf.softmax. now rewrite (nth_map_any _ _ _ 0). Qed.


(** Against a one-hot row, only the term of the class remains. *)
Lemma sum_one_hot_terms (f : R -> R) (class : nat) (ps : list R) :
  forall a : nat,
    tf.sum (zip_with (fun y p => y * f p)
              (map (fun i => if Nat.eqb i class then 1 else 0)
                 (seq a (List.length ps))) ps)
    = if Nat.leb a class && Nat.ltb class (a + List.length ps)
      then f (nth (class - a) ps 0) else 0.
Proof.
  induction ps as [|p ps IH]; intros a.
  - cbn [List.length seq map zip_with]. rewrite sum_nil.
    destruct (Nat.leb_spec a class), (Nat.ltb_spec class (a + 0));
      cbn [andb]; try reflexivity; lia.
  - cbn [List.length seq map zip_with]. rewrite sum_cons, IH.
    destruct (Nat.eqb_spec a class) as [->|Hne].
    + rewrite Nat.sub_diag. cbn [nth].
      destruct (Nat.leb_spec (S class) class); [lia|].
      destruct (Nat.leb_spec class class); [|lia].
      destruct (Nat.ltb_spec class (class + S (List.length ps))); [|lia].
      cbn [andb]. lra.
    + destruct (Nat.leb_spec (S a) class), (Nat.leb_spec a class); try lia;
        destruct (Nat.ltb_spec class (S a + List.length ps)),
                 (Nat.ltb_spec class (a + S (List.length ps)));
        try lia; cbn [andb]; try lra.
      replace (class - a)%nat with (S (class - S a)) by lia. cbn [nth]. lra.
Qed.

Lemma softmax_cross_entropy_one_hot (zs : list R) (class : nat) :
  (class < List.length zs)%nat ->
  tf.softmax_cross_entropy_row (tf.one_hot_row (List.length zs) class) zs
  = - ln (nth class (tf.softmax zs) 0).
Proof.
  intros Hk. unfold tf.softmax_cross_entropy_row, tf.cross_entropy, tf.one_hot_row.
  assert (L : List.length (tf.softmax zs) = List.length zs)
    by (unfold tf.softmax; now rewrite length_map).
  rewrite <- L at 1. rewrite (sum_one_hot_terms ln class (tf.softmax zs) 0).
  rewrite L, Nat.sub_0_r. cbn [Nat.leb andb Nat.add].
  destruct (Nat.ltb_spec class (List.length zs)); [reflexivity|lia].
Qed.

Lemma Forall_zip_with {X Y Z'} (f : X -> Y -> Z') (P : X -> Prop) (Q : Y -> Prop)
  (T : Z' -> Prop) (l1 : list X) (l2 : list Y) :
  (forall a b, P a -> Q b -> T (f a b)) ->
  Forall P l1 -> Forall Q l2 -> Forall T (zip_with f l1 l2).
Proof.
  intros Hf H1. revert l2. induction H1 as [|x l1 Hx _ IH]; intros l2 H2.
  - constructor.
  - destruct H2 as [|y l2 Hy H2]; cbn; constructor; auto.
Qed.

End LossOrderFacts.

(** * Worked instances *)

(** The scenario of the design document: one epoch over one batch is one
    request, one step on the tripled batch and one line, for batch 0. *)
Example train_nn_scenario :
  train_nn counting_session scenario_batches 1 4
    the_train_op the_loss the_input_image the_correct_label the_keep_prob
    the_learning_rate
    fresh_world
  = (Ok tt,
     mk_world 1 tt
       [GetBatches 4 [(scenario_images, scenario_labels)];
        Run the_train_op the_loss
          [(the_input_image, FeedArray (tripled scenario_images));
           (the_correct_label, FeedArray (tripled scenario_labels));
           (the_keep_prob, FeedFloat (1 # 2));
           (the_learning_rate, FeedFloat (1 # 10000))] O;
        PrintLine 0 0 O]).
Proof. vm_compute. reflexivity. Qed.

(** Four-dimensional images with labels of three axes: the slice of the
    labels raises, and the loop ends before any step. *)
Example train_nn_labels_without_channels :
  train_nn counting_session broken_batches 1 4
    the_train_op the_loss the_input_image the_correct_label the_keep_prob
    the_learning_rate
    fresh_world
  = (Raise IndexError,
     mk_world O tt [GetBatches 4 [(scenario_images, flat_labels)]]).
Proof. vm_compute. reflexivity. Qed.

(** A stand-in pair of rank two goes to the step as it is. *)
Example train_nn_mock_pair :
  run_feeds (trace (snd
    (train_nn counting_session mixed_batches 1 4
       the_train_op the_loss the_input_image the_correct_label the_keep_prob
       the_learning_rate fresh_world)))
  = [feed_for the_input_image the_correct_label the_keep_prob the_learning_rate
       (tripled scenario_images, tripled scenario_labels);
     feed_for the_input_image the_correct_label the_keep_prob the_learning_rate
       (mock_images, mock_labels)].
Proof. vm_compute. reflexivity. Qed.

Example augment_data_small :
  augment_data
    (np.mk_array [1; 2; 2; 1]
       (np.Node [np.Node [np.Node [np.Node [np.Leaf 1]; np.Node [np.Leaf 2]];
                          np.Node [np.Node [np.Leaf 3]; np.Node [np.Leaf 4]]]]))
    (np.full [1; 2; 2; 1] 0)
  = Ok (np.mk_array [3; 2; 2; 1]
          (np.Node [np.Node [np.Node [np.Node [np.Leaf 3]; np.Node [np.Leaf 4]];
                             np.Node [np.Node [np.Leaf 1]; np.Node [np.Leaf 2]]];
                    np.Node [np.Node [np.Node [np.Leaf 1]; np.Node [np.Leaf 2]];
                             np.Node [np.Node [np.Leaf 3]; np.Node [np.Leaf 4]]];
                    np.Node [np.Node [np.Node [np.Leaf 2]; np.Node [np.Leaf 1]];
                             np.Node [np.Node [np.Leaf 4]; np.Node [np.Leaf 3]]]]),
        np.full [3; 2; 2; 1] 0).
Proof. reflexivity. Qed.

Example reshape_demo_scores :
  tf.reshape_value [(-1)%Z; 2%Z] demo_better_scores
  = Some (np.of_rows 2 [[1%R; 0%R]; [0%R; 0%R]]).
Proof. reflexivity. Qed.

(** The shapes of the loss head over a heat-map of one 16x24 image. *)
Example optimize_shapes :
  let fed name :=
    if String.eqb name "heatmap" then Some [1; 16; 24; 2]
    else if String.eqb name "labels" then Some [1; 16; 24; 2]
    else None in
  let '(logits, _, loss) :=
    optimize (tf.Placeholder "heatmap") (tf.Placeholder "labels")
      (tf.Placeholder "learning_rate") 2 in
  tf.shape_of fed logits = Some [16 * 24; 2]
  /\ tf.shape_of fed loss = Some [].
Proof. vm_compute. split; reflexivity. Qed.

(** ** The theorems at the test data *)

Lemma layers_heatmap_shape_witness :
  tf.shape_of kitti_feature_shapes
    (layers (tf.Placeholder "layer3_out:0") (tf.Placeholder "layer4_out:0")
       (tf.Placeholder "layer7_out:0") 2)
  = Some [1; 32 * 5; 32 * 18; Z.to_nat 2]
  /\ 32 * 5 = 8 * (4 * 5) /\ 32 * 18 = 8 * (4 * 18).
Proof.
  apply (layers_heatmap_shape kitti_feature_shapes
           (tf.Placeholder "layer3_out:0") (tf.Placeholder "layer4_out:0")
           (tf.Placeholder "layer7_out:0") 2 1 5 18 256 512 4096);
    [reflexivity | reflexivity | reflexivity | lia].
Defined.

Lemma layers_follows_decoder_steps_witness :
  layers (tf.Placeholder "layer3_out:0") (tf.Placeholder "layer4_out:0")
    (tf.Placeholder "layer7_out:0") 2
  = decoder_steps (tf.Placeholder "layer3_out:0") (tf.Placeholder "layer4_out:0")
      (tf.Placeholder "layer7_out:0") 2
  /\ tf.shape_of kitti_feature_shapes
       (layers (tf.Placeholder "layer3_out:0") (tf.Placeholder "layer4_out:0")
          (tf.Placeholder "layer7_out:0") 2)
     = Some [1; 8 * (4 * 5); 8 * (4 * 18); Z.to_nat 2].
Proof.
  pose proof (layers_follows_decoder_steps kitti_feature_shapes
                (tf.Placeholder "layer3_out:0") (tf.Placeholder "layer4_out:0")
                (tf.Placeholder "layer7_out:0") 2 1 5 18 256 512 4096
                eq_refl eq_refl eq_refl ltac:(lia)) as H.
  cbv zeta in H. destruct H as (_ & Hsteps & _ & _ & _ & _ & _ & _ & _ & Hshape).
  split; [exact Hsteps | exact Hshape].
Defined.

Lemma augment_data_triples_batch_witness :
  exists aug_images aug_gt_images,
    augment_data scenario_images scenario_labels = Ok (aug_images, aug_gt_images)
    /\ np.shape aug_images = [3 * 1; 4; 4; 3]
    /\ np.shape aug_gt_images = [3 * 1; 4; 4; 2]
    /\ np.getitem_range 1 (2 * 1) aug_images = Ok scenario_images
    /\ np.getitem_range 1 (2 * 1) aug_gt_images = Ok scenario_labels.
Proof.
  destruct (augment_data_triples_batch scenario_images scenario_labels 1 4 4 3 2
              eq_refl eq_refl eq_refl eq_refl)
    as (ai & ag & Hrun & _ & _ & Si & Sg & _ & _ & _ & _ & _ & _ & Mi & Mg).
  exists ai, ag. repeat split; assumption.
Defined.

Lemma horizontal_flip_involutive_witness :
  exists hf_images,
    np.getitem4_rev 2 scenario_images = Ok hf_images
    /\ np.getitem4_rev 2 hf_images = Ok scenario_images.
Proof. apply (horizontal_flip_involutive scenario_images). reflexivity. Defined.

Lemma augment_data_leaves_arguments_unchanged_witness :
  let h : gmap positive (np.ndarray Z) :=
    <[1%positive := scenario_images]> (<[2%positive := scenario_labels]> ∅) in
  exists out h',
    Store.augment_data (Store.mk_ref 1 []) (Store.mk_ref 2 []) h = Some (out, h')
    /\ Store.read h' (Store.mk_ref 1 []) = Some scenario_images
    /\ Store.read h' (Store.mk_ref 2 []) = Some scenario_labels
    /\ h ⊆ h'.
Proof.
  intros h.
  destruct (augment_data_leaves_arguments_unchanged h
              (Store.mk_ref 1 []) (Store.mk_ref 2 [])
              scenario_images scenario_labels eq_refl eq_refl)
    as (out & h' & Hrun & Hi & Hg & Hsub & _).
  exists out, h'. repeat split; assumption.
Defined.


Lemma train_nn_prints_every_tenth_batch_witness :
  exists w' evs l,
    train_nn counting_session scenario_batches (Z.of_nat 1) 4
      the_train_op the_loss the_input_image the_correct_label the_keep_prob
      the_learning_rate fresh_world
    = (Ok tt, w')
    /\ trace w' = evs
    /\ run_losses evs = [l]
    /\ printed evs = [(0%Z, 0%Z, l)].
Proof.
  destruct (train_nn_prints_every_tenth_batch counting_session scenario_batches 4
              the_train_op the_loss the_input_image the_correct_label
              the_keep_prob the_learning_rate 1 1 fresh_world)
    as (w' & evs & losses & Hrun & Htr & _ & _ & _ & _ & Hone).
  - intros src. reflexivity.
  - intros src. constructor; [|constructor].
    unfold rank_compatible. cbn. lia.
  - destruct (Hone eq_refl eq_refl) as (l & Hl & Hp).
    exists w', evs, l. repeat split; assumption.
Defined.

Lemma optimize_loss_is_mean_pixel_cross_entropy_witness :
  tf.eval demo_network
    (snd (optimize (tf.Placeholder "heatmap") (tf.Placeholder "labels")
            (tf.Placeholder "learning_rate") (Z.of_nat 2)))
  = Some (tf.scalar
            (tf.sum (zip_with tf.softmax_cross_entropy_row
                       (np.pixel_rows demo_labels) (np.pixel_rows demo_scores))
             / INR (1 * 1 * 2))).
Proof.
  pose proof (optimize_loss_is_mean_pixel_cross_entropy demo_network
                (tf.Placeholder "heatmap") (tf.Placeholder "labels")
                (tf.Placeholder "learning_rate") (Z.of_nat 2)
                demo_scores demo_labels 1 1 2 2
                eq_refl eq_refl eq_refl eq_refl eq_refl eq_refl eq_refl
                ltac:(lia) ltac:(cbn; lia)) as H.
  cbn [optimize] in H.
  destruct H as (_ & _ & _ & _ & _ & _ & _ & _ & Hloss & _).
  exact Hloss.
Defined.

(** * Further properties *)

(** ** Data augmentation: errors, pixels, flips *)

Section AugmentMore.
Context {A : Type}.
Implicit Types (t : np.nested A) (a images gt_images : np.ndarray A).

(** The only way [augment_data] fails is a slice of an array with fewer
    than four axes; images and labels are never compared with each other,
    so any two arrays of rank four or more go through, each tripled on
    its own. *)
Theorem augment_data_outcome images gt_images :
  match augment_data images gt_images with
  | Ok (aug_images, aug_gt_images) =>
      4 <= np.ndim images /\ 4 <= np.ndim gt_images
      /\ aug_images = tripled images /\ aug_gt_images = tripled gt_images
  | Raise e =>
      e = IndexError /\ (np.ndim images < 4 \/ np.ndim gt_images < 4)
  end.
Proof.
  destruct (Nat.lt_ge_cases (np.ndim images) 4) as [Hi|Hi];
    [|destruct (Nat.lt_ge_cases (np.ndim gt_images) 4) as [Hg|Hg]].
  - rewrite augment_data_raises by auto. auto.
  - rewrite augment_data_raises by auto. auto.
  - rewrite augment_data_ok by assumption. auto.
Qed.

Lemma item_app idx1 idx2 : forall t,
  np.item (idx1 ++ idx2) t = np.item idx1 t ≫= np.item idx2.
Proof.
  induction idx1 as [|i idx1 IH]; intros t; [reflexivity|].
  cbn [app np.item]. destruct t as [x|l]; [reflexivity|].
  destruct (nth_error l i) as [c|]; [apply IH | reflexivity].
Qed.

Lemma rev_axis_1_2_comm t :
  np.rev_axis 1 (np.rev_axis 2 t) = np.rev_axis 2 (np.rev_axis 1 t).
Proof.
  destruct t as [x|imgs]; [reflexivity|].
  cbn [np.rev_axis]. rewrite !map_map. f_equal. apply map_ext.
  intros [x|rows]; [reflexivity|].
  cbn [np.rev_axis]. now rewrite map_rev.
Qed.

(** The two flips are commuting involutions: flipping vertically twice
    gives back the array, and the horizontal flip of the vertical flip is
    the vertical flip of the horizontal flip. *)
Theorem flips_commute images :
  4 <= np.ndim images ->
  exists hf_images vf_images both,
    np.getitem4_rev 2 images = Ok hf_images
    /\ np.getitem4_rev 1 images = Ok vf_images
    /\ np.getitem4_rev 1 vf_images = Ok images
    /\ np.getitem4_rev 1 hf_images = Ok both
    /\ np.getitem4_rev 2 vf_images = Ok both.
Proof.
  intros Hr.
  exists (np.mk_array (np.shape images) (np.rev_axis 2 (np.elems images))),
         (np.mk_array (np.shape images) (np.rev_axis 1 (np.elems images))),
         (np.mk_array (np.shape images)
            (np.rev_axis 1 (np.rev_axis 2 (np.elems images)))).
  split; [now apply getitem4_rev_ok|]. split; [now apply getitem4_rev_ok|].
  split; [|split].
  - rewrite getitem4_rev_ok by exact Hr. cbn [np.shape np.elems].
    rewrite rev_axis_involutive. now destruct images.
  - now rewrite getitem4_rev_ok by exact Hr.
  - rewrite getitem4_rev_ok by exact Hr. cbn [np.shape np.elems].
    now rewrite rev_axis_1_2_comm.
Qed.

Lemma tripled_item a (N H W : nat) (sh : list nat) (b h w : nat) :
  np.shape a = N :: H :: W :: sh -> np.wf a = true ->
  b < N -> h < H -> w < W ->
  np.item [b; h; w] (np.elems (tripled a)) = np.item [b; H - 1 - h; w] (np.elems a)
  /\ np.item [N + b; h; w] (np.elems (tripled a)) = np.item [b; h; w] (np.elems a)
  /\ np.item [2 * N + b; h; w] (np.elems (tripled a))
     = np.item [b; h; W - 1 - w] (np.elems a).
Proof.
  intros Hs Hw Hb Hh Hw'.
  destruct (wf_items a N (H :: W :: sh) Hs Hw) as (He & Hlen & _).
  assert (Hshape : np.has_shape (N :: H :: W :: sh) (np.elems a) = true)
    by (unfold np.wf in Hw; now rewrite Hs in Hw).
  assert (L1 : List.length (np.items (np.rev_axis 1 (np.elems a))) = N)
    by (rewrite He, items_rev_axis_S; now rewrite length_map).
  assert (E1 : np.rev_axis 1 (np.elems a)
               = np.Node (np.items (np.rev_axis 1 (np.elems a))))
    by (now rewrite He).
  assert (E2 : np.rev_axis 2 (np.elems a)
               = np.Node (np.items (np.rev_axis 2 (np.elems a))))
    by (now rewrite He).
  assert (Hnode : forall l i idx,
             np.item (i :: idx) (@np.Node A l) = nth_error l i ≫= np.item idx)
    by reflexivity.
  unfold tripled. cbn [np.elems]. rewrite !Hnode. repeat split.
  - rewrite nth_error_app1 by lia.
    rewrite <- Hnode, <- E1.
    change [b; h; w] with ([b; h] ++ [w]).
    change [b; H - 1 - h; w] with ([b; H - 1 - h] ++ [w]).
    rewrite !item_app. now rewrite (item_rev_axis1 _ N H (W :: sh)).
  - rewrite nth_error_app2 by lia. rewrite L1.
    replace (N + b - N) with b by lia. rewrite nth_error_app1 by lia.
    now rewrite <- Hnode, <- He.
  - rewrite nth_error_app2 by lia. rewrite L1.
    rewrite nth_error_app2 by lia. rewrite Hlen.
    replace (2 * N + b - N - N) with b by lia.
    rewrite <- Hnode, <- E2. now apply (item_rev_axis2 _ N H W sh).
Qed.

(** Every pixel of the augmented batches, images and labels alike: sample
    [b] is sample [b] turned upside down, sample [N+b] is sample [b], and
    sample [2N+b] is sample [b] mirrored left to right. *)
Theorem augment_data_pixels images gt_images (N H W C C' : nat) (sh sh' : list nat)
  (b h w : nat) :
  np.shape images = N :: H :: W :: C :: sh -> np.wf images = true ->
  np.shape gt_images = N :: H :: W :: C' :: sh' -> np.wf gt_images = true ->
  b < N -> h < H -> w < W ->
  exists aug_images aug_gt_images,
    augment_data images gt_images = Ok (aug_images, aug_gt_images)
    /\ np.item [b; h; w] (np.elems aug_images)
       = np.item [b; H - 1 - h; w] (np.elems images)
    /\ np.item [N + b; h; w] (np.elems aug_images)
       = np.item [b; h; w] (np.elems images)
    /\ np.item [2 * N + b; h; w] (np.elems aug_images)
       = np.item [b; h; W - 1 - w] (np.elems images)
    /\ np.item [b; h; w] (np.elems aug_gt_images)
       = np.item [b; H - 1 - h; w] (np.elems gt_images)
    /\ np.item [N + b; h; w] (np.elems aug_gt_images)
       = np.item [b; h; w] (np.elems gt_images)
    /\ np.item [2 * N + b; h; w] (np.elems aug_gt_images)
       = np.item [b; h; W - 1 - w] (np.elems gt_images).
Proof.
  intros Si Wi Sg Wg Hb Hh Hw.
  exists (tripled images), (tripled gt_images).
  destruct (tripled_item images N H W (C :: sh) b h w Si Wi Hb Hh Hw) as (I1 & I2 & I3).
  destruct (tripled_item gt_images N H W (C' :: sh') b h w Sg Wg Hb Hh Hw)
    as (G1 & G2 & G3).
  repeat split; try assumption.
  apply augment_data_ok; unfold np.ndim; [rewrite Si | rewrite Sg]; cbn; lia.
Qed.

Lemma flat_map_perm_pointwise {X Y} (f g : X -> list Y) (l : list X) :
  (forall x, Permutation (f x) (g x)) ->
  Permutation (flat_map f l) (flat_map g l).
Proof.
  intros Hfg. induction l as [|x l IH]; cbn [flat_map]; [constructor|].
  now apply Permutation_app.
Qed.

Lemma ravel_rev_axis_perm k : forall t,
  Permutation (np.ravel_items (np.rev_axis k t)) (np.ravel_items t).
Proof.
  induction k as [|k IH]; intros [x|l]; cbn [np.rev_axis np.ravel_items];
    try reflexivity.
  - apply Permutation_flat_map. symmetry. apply Permutation_rev.
  - rewrite flat_map_concat_map, map_map, <- flat_map_concat_map.
    now apply flat_map_perm_pointwise.
Qed.

Lemma tripled_ravel_perm a (n : nat) (sh : list nat) :
  np.shape a = n :: sh -> np.wf a = true ->
  Permutation (np.ravel_items (np.elems (tripled a)))
    (np.ravel_items (np.elems a) ++ np.ravel_items (np.elems a)
     ++ np.ravel_items (np.elems a)).
Proof.
  intros Hs Hw. destruct (wf_items a n sh Hs Hw) as (He & _ & _).
  unfold tripled. cbn [np.elems np.ravel_items]. rewrite !flat_map_app.
  assert (R : forall k, flat_map np.ravel_items (np.items (np.rev_axis k (np.elems a)))
                        = np.ravel_items (np.rev_axis k (np.elems a))).
  { intros k. rewrite He. now destruct k. }
  rewrite !R. assert (E : flat_map np.ravel_items (np.items (np.elems a))
                          = np.ravel_items (np.elems a)) by (now rewrite He at 2).
  rewrite E.
  apply Permutation_app; [apply ravel_rev_axis_perm|].
  apply Permutation_app; [reflexivity | apply ravel_rev_axis_perm].
Qed.

(** Augmentation only rearranges: the values of each output are the values
    of the corresponding input, each three times; none is changed, dropped
    or invented. *)
Theorem augment_data_rearranges images gt_images :
  4 <= np.ndim images -> np.wf images = true ->
  4 <= np.ndim gt_images -> np.wf gt_images = true ->
  exists aug_images aug_gt_images,
    augment_data images gt_images = Ok (aug_images, aug_gt_images)
    /\ Permutation (np.ravel_items (np.elems aug_images))
         (np.ravel_items (np.elems images) ++ np.ravel_items (np.elems images)
          ++ np.ravel_items (np.elems images))
    /\ Permutation (np.ravel_items (np.elems aug_gt_images))
         (np.ravel_items (np.elems gt_images) ++ np.ravel_items (np.elems gt_images)
          ++ np.ravel_items (np.elems gt_images)).
Proof.
  intros Hi Wi Hg Wg. exists (tripled images), (tripled gt_images).
  split; [now apply augment_data_ok|].
  split; eapply tripled_ravel_perm; eauto using rank4_shape.
Qed.
End AugmentMore.

(** ** The training loop: edges, failures, state *)

Section TrainingLoopMore.
Context {A Session Loss Source Tensor : Type}.
Variable sess_run :
  Tensor -> Tensor -> feed_dict (A:=A) Tensor -> Session -> Loss * Session.
Variable get_batches_fn : Z -> Source -> list (batch (A:=A)) * Source.
Variables (batch_size : Z).
Variables (train_op cross_entropy_loss input_image correct_label keep_prob
             learning_rate : Tensor).

Abbreviation World' := (world (A:=A) Session Loss Source Tensor).
Abbreviation the_loop epochs :=
  (train_nn sess_run get_batches_fn epochs batch_size train_op
     cross_entropy_loss input_image correct_label keep_prob learning_rate).
Abbreviation inner := (inner_body sess_run train_op cross_entropy_loss
  input_image correct_label keep_prob learning_rate).
Abbreviation outer := (outer_body sess_run get_batches_fn batch_size
  train_op cross_entropy_loss input_image correct_label keep_prob learning_rate).
Abbreviation steps := (steps_trace train_op cross_entropy_loss input_image
                      correct_label keep_prob learning_rate).
Abbreviation feed_of := (fun p : batch (A:=A) =>
  feed_for input_image correct_label keep_prob learning_rate (fed_pair p)).

(** With no epoch to run ([epochs <= 0]) the loop does nothing: no
    request, no step, no line, and the state is the one it was given. *)
Theorem train_nn_no_epochs (epochs : Z) (w : World') :
  (epochs <= 0)%Z ->
  train_nn sess_run get_batches_fn epochs batch_size train_op
    cross_entropy_loss input_image correct_label keep_prob learning_rate w
  = (Ok tt, w).
Proof.
  intros He. rewrite train_nn_unfold. unfold range.
  replace (Z.to_nat epochs) with O by lia. reflexivity.
Qed.

Lemma inner_body_raises epoch b (p : batch (A:=A)) (w : World') :
  np.ndim (fst p) = 4 -> np.ndim (snd p) < 4 ->
  inner epoch (b, p) w = (Raise IndexError, w).
Proof.
  intros H4 Hg. destruct p as [si sg]. cbn [fst snd] in *.
  unfold inner_body. rewrite H4. cbn [Nat.eqb].
  rewrite augment_data_raises by auto. reflexivity.
Qed.

Lemma for_each_raise {X} (x : X) xs (body : X -> Loop Session Loss Source Tensor unit)
  (w w' : World') e :
  body x w = (Raise e, w') -> for_each (x :: xs) body w = (Raise e, w').
Proof. intros E. cbn [for_each]. unfold mbind, Loop_bind. now rewrite E. Qed.

Lemma inner_loop_raises epoch (bad : batch (A:=A)) rest (good : list (batch (A:=A))) :
  np.ndim (fst bad) = 4 -> np.ndim (snd bad) < 4 ->
  forall i (w : World'),
    Forall rank_compatible good ->
    exists ls s,
      List.length ls = List.length good
      /\ for_each
           (combine (map Z.of_nat (seq i (List.length (good ++ bad :: rest))))
              (good ++ bad :: rest))
           (inner epoch) w
         = (Raise IndexError,
            mk_world s (source w) (trace w ++ steps epoch i good ls)).
Proof.
  intros H4 Hg. induction good as [|p good IH]; intros i w Hok.
  - exists [], (session w). split; [reflexivity|].
    cbn [app List.length seq map combine steps_trace].
    rewrite (for_each_raise _ _ _ _ _ _ (inner_body_raises epoch (Z.of_nat i) bad w H4 Hg)).
    rewrite app_nil_r. now destruct w.
  - inversion Hok as [|? ? Hp Hgood]; subst.
    cbn [app List.length seq map combine].
    rewrite (for_each_cons _ _ _ _ _
               (inner_body_ok sess_run train_op cross_entropy_loss input_image
                  correct_label keep_prob learning_rate epoch (Z.of_nat i) p w Hp)).
    match goal with |- context [for_each _ _ ?w1] =>
      destruct (IH (S i) w1 Hgood) as (ls & s & Hlen & Hrun) end.
    eexists (_ :: ls), s. split; [cbn; now rewrite Hlen|].
    rewrite Hrun. cbn [source trace steps_trace]. now rewrite <- app_assoc.
Qed.

(** A batch of four-dimensional images whose labels lack an axis ends the
    run with [IndexError] at that batch, in the first epoch: the batches
    before it have had their step, in order; that batch and the batches
    after it get none, no line is printed for it, and no later epoch is
    requested. *)
Theorem train_nn_stops_at_first_bad_batch
  (epochs : Z) (w : World') (good rest : list (batch (A:=A)))
  (bad : batch (A:=A)) (src' : Source) :
  (1 <= epochs)%Z ->
  get_batches_fn batch_size (source w) = (good ++ bad :: rest, src') ->
  Forall rank_compatible good ->
  np.ndim (fst bad) = 4 -> np.ndim (snd bad) < 4 ->
  exists ls s,
    List.length ls = List.length good
    /\ train_nn sess_run get_batches_fn epochs batch_size train_op
         cross_entropy_loss input_image correct_label keep_prob learning_rate w
       = (Raise IndexError,
          mk_world s src'
            (trace w ++ GetBatches batch_size (good ++ bad :: rest)
                        :: steps 0 0 good ls))
    /\ requests (steps 0 0 good ls) = []
    /\ run_feeds (steps 0 0 good ls) = map feed_of good.
Proof.
  intros He Hsrc Hgood H4 Hg.
  set (w0 := mk_world (session w) src'
               (trace w ++ [GetBatches batch_size (good ++ bad :: rest)]) : World').
  destruct (inner_loop_raises 0 bad rest good H4 Hg 0 w0 Hgood)
    as (ls & s & Hlen & Hrun).
  exists ls, s. split; [exact Hlen|]. split; [|split].
  - rewrite train_nn_unfold. unfold range.
    destruct (Z.to_nat epochs) as [|n] eqn:En; [lia|]. cbn [seq map].
    change (Z.of_nat 0) with 0%Z. apply for_each_raise.
    unfold outer_body, mbind, Loop_bind, call_get_batches_fn. rewrite Hsrc.
    fold w0. unfold enumerate. rewrite Hrun. subst w0. cbn [source trace].
    now rewrite <- app_assoc.
  - apply requests_steps.
  - now apply run_feeds_steps.
Qed.

(** *** What holds of every run, whether it ends or raises *)

Abbreviation shape_ok epochs :=
  (fun evs : list (event (A:=A) Loss Tensor) =>
     Forall (event_ok batch_size epochs train_op cross_entropy_loss
               input_image correct_label keep_prob learning_rate) evs
     /\ lines_follow_steps evs).


Abbreviation ends_well Q w out :=
  ((fst out = Ok tt \/ fst out = Raise IndexError)
   /\ exists evs : list (event (A:=A) Loss Tensor),
       trace (snd out) = trace w ++ evs /\ Q evs).

Lemma lines_follow_steps_app (evs1 evs2 : list (event (A:=A) Loss Tensor)) :
  lines_follow_steps evs1 -> lines_follow_steps evs2 ->
  lines_follow_steps (evs1 ++ evs2).
Proof.
  intros H1 H2. induction H1; cbn [app]; try assumption; now constructor.
Qed.

Lemma shape_ok_app epochs (evs1 evs2 : list (event (A:=A) Loss Tensor)) :
  shape_ok epochs evs1 -> shape_ok epochs evs2 -> shape_ok epochs (evs1 ++ evs2).
Proof.
  intros [F1 L1] [F2 L2]. split.
  - apply List.Forall_app. now split.
  - now apply lines_follow_steps_app.
Qed.

Lemma for_each_ends_well {X} (Q : list (event (A:=A) Loss Tensor) -> Prop)
  (xs : list X) (body : X -> Loop Session Loss Source Tensor unit) :
  Q [] -> (forall a b, Q a -> Q b -> Q (a ++ b)) ->
  (forall x (w : World'), In x xs -> ends_well Q w (body x w)) ->
  forall w : World', ends_well Q w (for_each xs body w).
Proof.
  intros Qnil Qapp. induction xs as [|x xs IH]; intros Hbody w.
  - cbn. split; [now left|]. exists []. now rewrite app_nil_r.
  - cbn [for_each]. unfold mbind, Loop_bind.
    destruct (Hbody x w (or_introl eq_refl)) as [Hout (evs & Htr & Hq)].
    destruct (body x w) as [[[]|e] w1] eqn:Eb; cbn [fst snd] in *.
    + destruct (IH (fun y w' Hy => Hbody y w' (or_intror Hy)) w1)
        as [Hout' (evs' & Htr' & Hq')].
      split; [exact Hout'|]. exists (evs ++ evs'). split; [|now apply Qapp].
      now rewrite Htr', Htr, <- app_assoc.
    + split; [exact Hout|]. now exists evs.
Qed.

Lemma inner_body_ends_well epochs epoch b (p : batch (A:=A)) (w : World') :
  (0 <= epoch < epochs)%Z -> (0 <= b)%Z ->
  ends_well (shape_ok epochs) w (inner epoch (b, p) w).
Proof.
  intros He Hb. destruct p as [si sg].
  assert (Hstep : forall (q : batch (A:=A)) (w0 : World'),
    ends_well (shape_ok epochs) w0
      ((loss_val ← call_sess_run Session Loss Source Tensor sess_run
                     train_op cross_entropy_loss
                     [(input_image, FeedArray (fst q));
                      (correct_label, FeedArray (snd q));
                      (keep_prob, FeedFloat (1 # 2));
                      (learning_rate, FeedFloat (1 # 10000))];
        if Z.eqb (b mod 10) 0
        then print Session Loss Source Tensor epoch b loss_val
        else mret tt) w0)).
  { intros q w0. unfold mbind, Loop_bind, call_sess_run.
    destruct (sess_run _ _ _ _) as [l s].
    destruct (Z.eqb_spec (b mod 10) 0) as [Hm|Hm];
      unfold print, mret, Loop_ret; cbn [fst snd trace].
    - split; [now left|].
      eexists [Run train_op cross_entropy_loss _ l; PrintLine epoch b l].
      split; [now rewrite <- app_assoc|]. split.
      + repeat constructor; try lia; try (now exists q).
      + apply lfs_step_line, lfs_nil.
    - split; [now left|].
      eexists [Run train_op cross_entropy_loss _ l].
      split; [reflexivity|]. split.
      + repeat constructor; try (now exists q).
      + apply lfs_step, lfs_nil. }
  unfold inner_body.
  destruct (Nat.eqb (np.ndim si) 4).
  - destruct (Nat.lt_ge_cases (np.ndim si) 4) as [Hi|Hi];
      [|destruct (Nat.lt_ge_cases (np.ndim sg) 4) as [Hg|Hg]].
    + rewrite augment_data_raises by auto. cbn. split; [now right|].
      exists []. rewrite app_nil_r. repeat constructor.
    + rewrite augment_data_raises by auto. cbn. split; [now right|].
      exists []. rewrite app_nil_r. repeat constructor.
    + rewrite augment_data_ok by assumption.
      apply (Hstep (tripled si, tripled sg) w).
  - apply (Hstep (si, sg) w).
Qed.

Lemma outer_body_ends_well epochs epoch (w : World') :
  (0 <= epoch < epochs)%Z -> ends_well (shape_ok epochs) w (outer epoch w).
Proof.
  intros He. unfold outer_body, mbind, Loop_bind, call_get_batches_fn.
  destruct (get_batches_fn batch_size (source w)) as [bs src].
  match goal with |- context [for_each ?xs ?body ?w0] =>
    destruct (for_each_ends_well (shape_ok epochs) xs body) with (w := w0)
      as [Hout (evs & Htr & Hq)] end.
  - repeat constructor.
  - apply shape_ok_app.
  - intros [b p] w1 Hin. apply inner_body_ends_well; [exact He|].
    unfold enumerate in Hin. apply in_combine_l in Hin.
    apply in_map_iff in Hin as (i & <- & _). lia.
  - split; [exact Hout|]. exists (GetBatches batch_size bs :: evs).
    split.
    + rewrite Htr. cbn [trace]. now rewrite <- app_assoc.
    + destruct Hq as [F L]. split; constructor; try assumption. reflexivity.
Qed.

(** Whatever the batch source yields and however the run ends: it ends
    normally or with [IndexError]; it only adds to the trace; every
    request is for the batch size given; every step fetches the training
    operation and the loss with dropout 0.5 and learning rate 1e-4; every
    line is for an epoch of the run and a batch index that is a multiple
    of ten, and comes right after the step whose loss it reports. *)
Theorem train_nn_trace_invariants (epochs : Z) (w : World') :
  let outcome :=
    train_nn sess_run get_batches_fn epochs batch_size train_op
      cross_entropy_loss input_image correct_label keep_prob learning_rate w in
  (fst outcome = Ok tt \/ fst outcome = Raise IndexError)
  /\ exists evs,
       trace (snd outcome) = trace w ++ evs
       /\ Forall (event_ok batch_size epochs train_op cross_entropy_loss
                    input_image correct_label keep_prob learning_rate) evs
       /\ lines_follow_steps evs.
Proof.
  rewrite train_nn_unfold.
  apply (for_each_ends_well (shape_ok epochs)).
  - repeat constructor.
  - apply shape_ok_app.
  - intros e w1 Hin. apply outer_body_ends_well.
    unfold range in Hin. apply in_map_iff in Hin as (i & <- & Hi).
    apply in_seq in Hi. lia.
Qed.

(** *** The session and the batch source along a run *)

Abbreviation after_feeds := (session_after sess_run train_op cross_entropy_loss).
Abbreviation losses_for := (losses_of sess_run train_op cross_entropy_loss).
Abbreviation epochs_events := (epochs_trace train_op cross_entropy_loss
  input_image correct_label keep_prob learning_rate).

Lemma inner_loop_state epoch (bs : list (batch (A:=A))) :
  forall i (w : World'),
    Forall rank_compatible bs ->
    for_each (combine (map Z.of_nat (seq i (List.length bs))) bs) (inner epoch) w
    = (Ok tt,
       mk_world (after_feeds (map feed_of bs) (session w)) (source w)
         (trace w ++ steps epoch i bs (losses_for (map feed_of bs) (session w)))).
Proof.
  induction bs as [|p bs IH]; intros i w Hok.
  - cbn. rewrite app_nil_r. now destruct w.
  - inversion Hok as [|? ? Hp Hbs]; subst.
    cbn [List.length seq map combine].
    rewrite (for_each_cons _ _ _ _ _
               (inner_body_ok sess_run train_op cross_entropy_loss input_image
                  correct_label keep_prob learning_rate epoch (Z.of_nat i) p w Hp)).
    rewrite (IH (S i) _ Hbs).
    cbn [session source trace session_after losses_of steps_trace].
    now rewrite <- app_assoc.
Qed.

Lemma length_losses_of feeds (s : Session) :
  List.length (losses_for feeds s) = List.length feeds.
Proof.
  revert s. induction feeds as [|f feeds IH]; intros s; [reflexivity|].
  cbn [losses_of List.length]. now rewrite IH.
Qed.

Lemma session_after_app feeds1 feeds2 (s : Session) :
  after_feeds (feeds1 ++ feeds2) s = after_feeds feeds2 (after_feeds feeds1 s).
Proof.
  revert s. induction feeds1 as [|f feeds1 IH]; intros s; [reflexivity|].
  cbn [app session_after]. apply IH.
Qed.

Lemma losses_of_app feeds1 feeds2 (s : Session) :
  losses_for (feeds1 ++ feeds2) s
  = losses_for feeds1 s ++ losses_for feeds2 (after_feeds feeds1 s).
Proof.
  revert s. induction feeds1 as [|f feeds1 IH]; intros s; [reflexivity|].
  cbn [app losses_of session_after]. now rewrite IH.
Qed.

Lemma epochs_state :
  (forall src, Forall rank_compatible (fst (get_batches_fn batch_size src))) ->
  forall n e (w : World'),
    exists answers,
      for_each (map Z.of_nat (seq e n)) outer w
      = (Ok tt,
         mk_world
           (after_feeds (map feed_of (concat (map fst answers))) (session w))
           (source_after get_batches_fn batch_size n (source w))
           (trace w ++ epochs_events batch_size e answers))
      /\ map fst answers = batches_requested get_batches_fn batch_size n (source w)
      /\ answers_ok answers
      /\ concat (map snd answers)
         = losses_for (map feed_of (concat (map fst answers))) (session w).
Proof.
  intros Hok. induction n as [|n IH]; intros e w.
  - exists []. cbn. rewrite app_nil_r. repeat split; [now destruct w | constructor].
  - cbn [seq map].
    pose proof (Hok (source w)) as Hbs.
    destruct (get_batches_fn batch_size (source w)) as [bs src] eqn:Eb.
    cbn [fst] in Hbs.
    set (w0 := mk_world (session w) src
                 (trace w ++ [GetBatches batch_size bs]) : World').
    set (ls := losses_for (map feed_of bs) (session w)).
    assert (Hbody : outer (Z.of_nat e) w
                    = (Ok tt,
                       mk_world (after_feeds (map feed_of bs) (session w)) src
                         (trace w0 ++ steps (Z.of_nat e) 0 bs ls))).
    { unfold outer_body, mbind, Loop_bind, call_get_batches_fn. rewrite Eb.
      fold w0. unfold enumerate. now rewrite (inner_loop_state _ bs 0 w0 Hbs). }
    rewrite (for_each_cons _ _ _ _ _ Hbody).
    match goal with |- context [for_each _ _ ?w1] =>
      destruct (IH (S e) w1) as (answers & Hrest & Hreq & Hans & Hls) end.
    cbn [session source trace] in Hrest, Hreq, Hls.
    exists ((bs, ls) :: answers). repeat split.
    + rewrite Hrest. cbn [map fst snd concat source_after epochs_trace epoch_trace].
      rewrite Eb. cbn [snd]. rewrite map_app, session_after_app.
      subst w0. cbn [trace]. now rewrite <- !app_assoc.
    + cbn [map fst batches_requested]. rewrite Eb. cbn [fst snd]. now rewrite Hreq.
    + constructor; [|exact Hans]. cbn [fst snd]. unfold ls.
      now rewrite length_losses_of, length_map.
    + cbn [map fst snd concat]. now rewrite map_app, losses_of_app, Hls.
Qed.

Lemma batches_requested_compatible :
  (forall src, Forall rank_compatible (fst (get_batches_fn batch_size src))) ->
  forall n src,
    Forall rank_compatible
      (concat (batches_requested get_batches_fn batch_size n src)).
Proof.
  intros Hok. induction n as [|n IH]; intros src; cbn [batches_requested concat].
  - constructor.
  - apply List.Forall_app. split; [apply Hok | apply IH].
Qed.

Lemma tripled_differs (a : np.ndarray A) :
  hd O (np.shape a) <> 0 -> tripled a <> a.
Proof.
  intros Hn E. apply (f_equal (fun x => hd O (np.shape x))) in E.
  cbn [tripled np.shape hd] in E. lia.
Qed.

(** C6 (amended). Every batch the loop pulls, request by request from the
    batch source, is fed to one optimizer step, in the order pulled.  The
    rank of the images alone decides what is fed: when the images are
    four-dimensional the step is fed what [augment_data] returns for the
    pair, with three times as many samples of images and of labels, which
    is not the pair as pulled unless it has no sample; the labels, whose
    rank is not tested, then need at least four axes.  When the images
    are not four-dimensional the step is fed the pair as pulled. *)
Theorem train_nn_augments_on_image_rank (epochs : Z) (w : World') :
  (forall src, Forall rank_compatible (fst (get_batches_fn batch_size src))) ->
  exists w' evs,
    train_nn sess_run get_batches_fn epochs batch_size train_op
      cross_entropy_loss input_image correct_label keep_prob learning_rate w
    = (Ok tt, w')
    /\ trace w' = trace w ++ evs
    /\ requests evs
       = batches_requested get_batches_fn batch_size (Z.to_nat epochs) (source w)
    /\ Forall2
         (fun (p : batch (A:=A)) feed =>
            if Nat.eqb (np.ndim (fst p)) 4
            then exists images gt_images,
                augment_data (fst p) (snd p) = Ok (images, gt_images)
                /\ feed = feed_for input_image correct_label keep_prob
                            learning_rate (images, gt_images)
                /\ hd O (np.shape images) = 3 * hd O (np.shape (fst p))
                /\ hd O (np.shape gt_images) = 3 * hd O (np.shape (snd p))
                /\ (hd O (np.shape (fst p)) <> 0 ->
                    feed <> feed_for input_image correct_label keep_prob
                              learning_rate p)
            else feed = feed_for input_image correct_label keep_prob
                          learning_rate p)
         (concat (requests evs)) (run_feeds evs).
Proof.
  intros Hok.
  destruct (epochs_state Hok (Z.to_nat epochs) 0 w) as (answers & Hrun & Hreq & Hans & _).
  eexists _, (epochs_events batch_size 0 answers).
  split; [rewrite train_nn_unfold; exact Hrun|].
  cbn [trace].
  rewrite (requests_epochs batch_size train_op cross_entropy_loss input_image
             correct_label keep_prob learning_rate answers 0).
  rewrite (run_feeds_epochs batch_size train_op cross_entropy_loss input_image
             correct_label keep_prob learning_rate answers Hans 0).
  split; [reflexivity|]. split; [exact Hreq|].
  pose proof (batches_requested_compatible Hok (Z.to_nat epochs) (source w)) as Hpulled.
  rewrite <- Hreq in Hpulled.
  remember (concat (map fst answers)) as pulled eqn:Epulled.
  clear Epulled Hrun Hreq Hans.
  induction Hpulled as [|[si sg] ps Hp _ IH]; cbn [map]; constructor; [|exact IH].
  unfold rank_compatible in Hp. cbn [fst snd] in *. unfold fed_pair. cbn [fst snd].
  destruct (Nat.eqb_spec (np.ndim si) 4) as [E4|E4]; [|reflexivity].
  exists (tripled si), (tripled sg). repeat split.
  - apply augment_data_ok; [lia | now apply Hp].
  - intros Hn E. unfold feed_for in E. cbn [fst snd] in E.
    injection E as E _. now apply (tripled_differs si).
Qed.

(** On a run that ends normally: the batch source is asked once for each
    epoch and is then in the state those requests leave it in; the
    session is in the state the steps leave it in, taken in the order of
    the batches; the losses reported are those the steps returned; the
    feeds are computed from the batches alone, not from the session. *)
Theorem train_nn_threads_state (epochs : Z) (w : World') :
  (forall src, Forall rank_compatible (fst (get_batches_fn batch_size src))) ->
  exists w' evs,
    train_nn sess_run get_batches_fn epochs batch_size train_op
      cross_entropy_loss input_image correct_label keep_prob learning_rate w
    = (Ok tt, w')
    /\ trace w' = trace w ++ evs
    /\ requests evs
       = batches_requested get_batches_fn batch_size (Z.to_nat epochs) (source w)
    /\ source w' = source_after get_batches_fn batch_size (Z.to_nat epochs) (source w)
    /\ run_feeds evs = map feed_of (concat (requests evs))
    /\ session w' = after_feeds (run_feeds evs) (session w)
    /\ run_losses evs = losses_for (run_feeds evs) (session w).
Proof.
  intros Hok.
  destruct (epochs_state Hok (Z.to_nat epochs) 0 w) as (answers & Hrun & Hreq & Hans & Hls).
  eexists _, (epochs_events batch_size 0 answers).
  split; [rewrite train_nn_unfold; exact Hrun|].
  cbn [trace source session].
  rewrite (requests_epochs batch_size train_op cross_entropy_loss input_image
             correct_label keep_prob learning_rate answers 0).
  rewrite (run_feeds_epochs batch_size train_op cross_entropy_loss input_image
             correct_label keep_prob learning_rate answers Hans 0).
  rewrite (run_losses_epochs batch_size train_op cross_entropy_loss input_image
             correct_label keep_prob learning_rate answers Hans 0).
  repeat split; assumption.
Qed.
End TrainingLoopMore.

(** C6 as the spec words it fails: a pair of four-dimensional images with
    labels of five axes is not four-dimensional, and the step is fed the
    augmented pair all the same, not the pair as pulled. *)
Lemma train_nn_augments_pair_with_5d_labels :
  ~ (forall get_batches_fn : Z -> unit -> list (batch (A:=Z)) * unit,
       let evs :=
         trace (snd (train_nn counting_session get_batches_fn 1 4
                       the_train_op the_loss the_input_image the_correct_label
                       the_keep_prob the_learning_rate fresh_world)) in
       Forall2
         (fun (p : batch (A:=Z)) feed =>
            if four_dimensional p
            then exists images gt_images,
                augment_data (fst p) (snd p) = Ok (images, gt_images)
                /\ feed = feed_for the_input_image the_correct_label
                            the_keep_prob the_learning_rate (images, gt_images)
            else feed = feed_for the_input_image the_correct_label
                          the_keep_prob the_learning_rate p)
         (concat (requests evs)) (run_feeds evs)).
Proof.
  intros claim. specialize (claim deep_label_batches).
  vm_compute in claim.
  inversion claim as [|p feed ps feeds Hhead _]. discriminate Hhead.
Qed.

Lemma train_nn_augments_on_image_rank_witness :
  exists w' evs,
    train_nn counting_session assorted_batches 1 4
      the_train_op the_loss the_input_image the_correct_label the_keep_prob
      the_learning_rate fresh_world
    = (Ok tt, w')
    /\ trace w' = evs
    /\ requests evs
       = [[(scenario_images, scenario_labels); (scenario_images, deep_labels);
           (mock_images, mock_labels)]]
    /\ run_feeds evs
       = [feed_for the_input_image the_correct_label the_keep_prob
            the_learning_rate (tripled scenario_images, tripled scenario_labels);
          feed_for the_input_image the_correct_label the_keep_prob
            the_learning_rate (tripled scenario_images, tripled deep_labels);
          feed_for the_input_image the_correct_label the_keep_prob
            the_learning_rate (mock_images, mock_labels)].
Proof.
  destruct (train_nn_augments_on_image_rank counting_session assorted_batches 4
              the_train_op the_loss the_input_image the_correct_label
              the_keep_prob the_learning_rate 1 fresh_world)
    as (w' & evs & Hrun & Htr & Hreq & Hfed).
  - intros src.
    constructor; [|constructor; [|constructor; [|constructor]]];
      unfold rank_compatible; cbn; lia.
  - exists w', evs. split; [exact Hrun|]. split; [exact Htr|].
    split; [exact Hreq|].
    rewrite Hreq in Hfed. cbn [batches_requested Z.to_nat Pos.to_nat
      Pos.iter_op Init.Nat.add concat assorted_batches fst snd app source
      fresh_world] in Hfed.
    inversion Hfed as [|p1 f1 ps1 fs1 H1 Hfed1 E1 E1']; subst.
    inversion Hfed1 as [|p2 f2 ps2 fs2 H2 Hfed2 E2 E2']; subst.
    inversion Hfed2 as [|p3 f3 ps3 fs3 H3 Hfed3 E3 E3']; subst.
    inversion Hfed3; subst.
    cbn [fst snd] in H1, H2, H3.
    change (Nat.eqb (np.ndim scenario_images) 4) with true in H1, H2.
    change (Nat.eqb (np.ndim mock_images) 4) with false in H3.
    cbv iota in H1, H2, H3.
    destruct H1 as (i1 & g1 & A1 & -> & _).
    destruct H2 as (i2 & g2 & A2 & -> & _).
    rewrite augment_data_ok in A1 by (cbn; lia).
    rewrite augment_data_ok in A2 by (cbn; lia).
    injection A1 as <- <-. injection A2 as <- <-. rewrite H3. reflexivity.
Defined.

(** ** The decoder: which feature maps it accepts *)

Section DecoderMore.
Variable fed : string -> option (list nat).

Lemma broadcast_upsampled (N a1 a2 b1 b2 c : nat) :
  b1 <> 1 -> b2 <> 1 ->
  tf.broadcast [N; a1; a2; c] [N; b1; b2; c]
  = if fits a1 b1 && fits a2 b2 then Some [N; b1; b2; c] else None.
Proof.
  intros H1 H2. unfold tf.broadcast, fits. cbn [rev app tf.broadcast_rev].
  rewrite !Nat.eqb_refl.
  destruct (Nat.eqb_spec b1 1); [contradiction|].
  destruct (Nat.eqb_spec b2 1); [contradiction|].
  destruct (Nat.eqb_spec a2 b2), (Nat.eqb_spec a2 1),
           (Nat.eqb_spec a1 b1), (Nat.eqb_spec a1 1); subst; reflexivity.
Qed.

Lemma shape_add a b name sa sb :
  tf.shape_of fed a = Some sa -> tf.shape_of fed b = Some sb ->
  tf.shape_of fed (tf.Add a b name) = tf.broadcast sa sb.
Proof. intros Ha Hb. cbn [tf.shape_of]. now rewrite Ha, Hb. Qed.

Lemma shape_add_none_r a b name :
  tf.shape_of fed b = None -> tf.shape_of fed (tf.Add a b name) = None.
Proof.
  intros Hb. cbn [tf.shape_of]. rewrite Hb. now destruct (tf.shape_of fed a).
Qed.

Lemma shape_add_none_l a b name :
  tf.shape_of fed a = None -> tf.shape_of fed (tf.Add a b name) = None.
Proof. intros Ha. cbn [tf.shape_of]. now rewrite Ha. Qed.

Lemma shape_deconv_none x args :
  tf.shape_of fed x = None -> tf.shape_of fed (tf.Conv2DTranspose x args) = None.
Proof. intros Hx. cbn [tf.shape_of]. now rewrite Hx. Qed.

(** For feature maps of rank four and one batch size, and at least one
    class, the builder accepts [layers] exactly when the middle map is
    twice the coarsest and the finest four times, or of length one where
    [tf.add] broadcasts; the heat-map is then 32 times the coarsest map,
    whatever the two finer maps were. *)
Theorem layers_accepts_iff l3 l4 l7 (num_classes : Z)
  (N h w h3 w3 h4 w4 c3 c4 c7 : nat) :
  tf.shape_of fed l3 = Some [N; h3; w3; c3] ->
  tf.shape_of fed l4 = Some [N; h4; w4; c4] ->
  tf.shape_of fed l7 = Some [N; h; w; c7] ->
  (1 <= num_classes)%Z ->
  tf.shape_of fed (layers l3 l4 l7 num_classes)
  = if fits h4 (2 * h) && fits w4 (2 * w) && (fits h3 (4 * h) && fits w3 (4 * w))
    then Some [N; 32 * h; 32 * w; Z.to_nat num_classes]
    else None.
Proof.
  intros H3 H4 H7 Hn1. assert (Hn : (0 <= num_classes)%Z) by lia.
  rewrite layers_decoder_steps. unfold decoder_steps.
  set (nc := Z.to_nat num_classes).
  pose proof (shape_project fed l3 num_classes "layer3_fcn" N h3 w3 c3 H3 Hn) as S3.
  pose proof (shape_project fed l4 num_classes "layer4_fcn" N h4 w4 c4 H4 Hn) as S4.
  pose proof (shape_project fed l7 num_classes "layer7_fcn" N h w c7 H7 Hn) as S7.
  pose proof (shape_upsample fed 2 4 _ num_classes "layer7_up" N h w nc S7 Hn
                ltac:(lia) ltac:(lia)) as U7.
  fold nc in S3, S4, S7, U7.
  set (p3 := project_to_classes l3 num_classes "layer3_fcn") in *.
  set (p4 := project_to_classes l4 num_classes "layer4_fcn") in *.
  set (up7 := upsample 2 4 _ num_classes "layer7_up") in *.
  assert (K4 : tf.shape_of fed (fuse p4 up7 "layer4_skip")
               = if fits h4 (2 * h) && fits w4 (2 * w)
                 then Some [N; 2 * h; 2 * w; nc] else None).
  { unfold fuse. rewrite (shape_add _ _ _ _ _ S4 U7).
    rewrite broadcast_upsampled by lia. now rewrite !(Nat.mul_comm _ 2). }
  set (skip4 := fuse p4 up7 "layer4_skip") in *.
  destruct (fits h4 (2 * h) && fits w4 (2 * w)); cbn [andb].
  - pose proof (shape_upsample fed 2 4 skip4 num_classes "layer4_up" N _ _ nc K4 Hn
                  ltac:(lia) ltac:(lia)) as U4.
    set (up4 := upsample 2 4 skip4 num_classes "layer4_up") in *.
    assert (K3 : tf.shape_of fed (fuse p3 up4 "layer3_skip")
                 = if fits h3 (4 * h) && fits w3 (4 * w)
                   then Some [N; 4 * h; 4 * w; nc] else None).
    { unfold fuse. rewrite (shape_add _ _ _ _ _ S3 U4).
      rewrite broadcast_upsampled by lia.
      replace (2 * h * 2) with (4 * h) by lia.
      now replace (2 * w * 2) with (4 * w) by lia. }
    set (skip3 := fuse p3 up4 "layer3_skip") in *.
    destruct (fits h3 (4 * h) && fits w3 (4 * w)).
    + rewrite (shape_upsample fed 8 16 skip3 num_classes "class_heatmap"
                 N _ _ nc K3 Hn) by lia.
      do 3 f_equal; [|f_equal]; lia.
    + unfold upsample. now apply shape_deconv_none.
  - unfold upsample at 1. apply shape_deconv_none.
    unfold fuse at 1. apply shape_add_none_r.
    unfold upsample at 1. now apply shape_deconv_none.
Qed.

Lemma shape_project_none x (num_classes : Z) name :
  (forall N H W C, tf.shape_of fed x <> Some [N; H; W; C]) \/ (num_classes < 0)%Z ->
  tf.shape_of fed (project_to_classes x num_classes name) = None.
Proof.
  intros Hbad. cbn [project_to_classes tf.shape_of].
  destruct (tf.shape_of fed x) as [s|] eqn:Ex; [|reflexivity].
  cbn [mbind option_bind]. unfold tf.conv_shape.
  destruct s as [|n [|hh [|ww [|c [|]]]]]; try reflexivity.
  cbn [tf.filters]. destruct Hbad as [Hbad|Hneg].
  - now destruct (Hbad n hh ww c).
  - destruct (Z.ltb_spec num_classes 0); [reflexivity | lia].
Qed.

(** The builder rejects [layers] when a feature map is not of rank four,
    and when the number of classes is negative. *)
Theorem layers_rejects l3 l4 l7 (num_classes : Z) :
  (forall N H W C, tf.shape_of fed l3 <> Some [N; H; W; C])
  \/ (forall N H W C, tf.shape_of fed l4 <> Some [N; H; W; C])
  \/ (forall N H W C, tf.shape_of fed l7 <> Some [N; H; W; C])
  \/ (num_classes < 0)%Z ->
  tf.shape_of fed (layers l3 l4 l7 num_classes) = None.
Proof.
  intros Hbad. rewrite layers_decoder_steps. unfold decoder_steps.
  unfold upsample at 1. apply shape_deconv_none.
  unfold fuse at 1.
  destruct Hbad as [H3|[H4|[H7|Hn]]].
  - apply shape_add_none_l, shape_project_none. now left.
  - apply shape_add_none_r. unfold upsample at 1. apply shape_deconv_none.
    unfold fuse at 1. apply shape_add_none_l, shape_project_none. now left.
  - apply shape_add_none_r. unfold upsample at 1. apply shape_deconv_none.
    unfold fuse at 1. apply shape_add_none_r.
    unfold upsample at 1. apply shape_deconv_none, shape_project_none. now left.
  - apply shape_add_none_l, shape_project_none. now right.
Qed.
End DecoderMore.

(** ** The loss head: any heat-map, special scores and labels *)

Section LossMore.
Local Open Scope R_scope.
Implicit Types (rows : list (list R)) (v : tf.value).

Lemma chunks_exact {X} (c : nat) : forall (n : nat) (xs : list X),
  List.length xs = (n * c)%nat ->
  Forall (fun r => List.length r = c) (np.chunks n c xs)
  /\ List.length (np.chunks n c xs) = n
  /\ concat (np.chunks n c xs) = xs.
Proof.
  induction n as [|n IH]; intros xs Hlen.
  - destruct xs; [|discriminate]. repeat split. constructor.
  - cbn [np.chunks concat List.length].
    destruct (IH (skipn c xs)) as (F & L & E).
    { rewrite length_skipn. lia. }
    repeat split.
    + constructor; [|exact F]. rewrite length_firstn. lia.
    + now rewrite L.
    + rewrite E. apply firstn_skipn.
Qed.

Lemma resolve_shape_columns (num_classes : Z) (total : nat) :
  tf.resolve_shape [(-1)%Z; num_classes] total
  = if Z.leb 1 num_classes && Nat.eqb (total mod Z.to_nat num_classes) 0
    then Some [(total / Z.to_nat num_classes)%nat; Z.to_nat num_classes]
    else None.
Proof.
  unfold tf.resolve_shape. cbn [forallb List.filter map].
  change (Z.leb (-1) (-1)) with true. change (Z.eqb (-1) (-1)) with true.
  cbn [andb negb].
  destruct (Z.leb_spec 1 num_classes) as [H1|H1].
  - assert (E : Z.eqb num_classes (-1) = false) by (apply Z.eqb_neq; lia).
    assert (L : Z.leb (-1) num_classes = true) by (apply Z.leb_le; lia).
    rewrite E, L.
    cbn [andb negb List.length map List.filter np.prod fold_right].
    rewrite Nat.mul_1_r.
    destruct (Nat.ltb_spec 0 (Z.to_nat num_classes)); [|lia].
    cbn [andb]. now destruct (Nat.eqb _ 0).
  - cbn [andb]. destruct (Z.leb_spec (-1) num_classes) as [H2|H2]; [|reflexivity].
    cbn [andb]. destruct (Z.eqb_spec num_classes (-1)) as [->|Hne]; [reflexivity|].
    assert (num_classes = 0%Z) as -> by lia. reflexivity.
Qed.

(** [optimize] takes any heat-map: the logits are its items in row-major
    order, cut into rows of [num_classes]; it is not checked that the
    last axis has that many entries.  There are no logits when
    [num_classes] is below one or does not divide the number of items. *)
Theorem optimize_logits_rows network hm lab lr (num_classes : Z) v :
  tf.eval network hm = Some v ->
  let xs := np.ravel_items (np.elems v) in
  let c := Z.to_nat num_classes in
  tf.eval network (fst (fst (optimize hm lab lr num_classes)))
  = if Z.leb 1 num_classes && Nat.eqb (List.length xs mod c) 0
    then Some (np.of_rows c (np.chunks (List.length xs / c) c xs))
    else None.
Proof.
  intros Ev xs c. cbn [optimize fst tf.reshape tf.eval]. rewrite Ev.
  cbn [mbind option_bind]. unfold tf.reshape_value. fold xs.
  rewrite resolve_shape_columns. fold c.
  destruct (Z.leb_spec 1 num_classes) as [H1|H1]; [|reflexivity].
  destruct (Nat.eqb_spec (List.length xs mod c) 0) as [Hm|Hm]; [|reflexivity].
  cbn [andb mbind option_bind].
  assert (Hc : c <> O) by (unfold c; lia).
  assert (Hlen : List.length xs = (List.length xs / c * c)%nat).
  { rewrite Nat.mul_comm. apply Nat.Div0.div_exact. exact Hm. }
  destruct (chunks_exact c (List.length xs / c) xs Hlen) as (F & L & E).
  set (rows := np.chunks (List.length xs / c) c xs) in *.
  pose proof (unravel_rows c rows F) as U. rewrite L, E in U.
  rewrite U. cbn [mbind option_bind]. unfold np.of_rows. now rewrite L.
Qed.

Lemma sum_const (c : R) (xs : list R) :
  Forall (fun x => x = c) xs -> tf.sum xs = INR (List.length xs) * c.
Proof.
  induction 1 as [|x xs Hx _ IH].
  - rewrite sum_nil. cbn. lra.
  - rewrite sum_cons, IH, Hx. cbn [List.length]. rewrite S_INR. lra.
Qed.

Lemma mean_const (c : R) (n : nat) (xs : list R) :
  List.length xs = n -> (1 <= n)%nat -> Forall (fun x => x = c) xs ->
  tf.sum xs / INR n = c.
Proof.
  intros Hlen Hn Hall. rewrite (sum_const c xs Hall), Hlen.
  assert (0 < INR n) by (apply lt_0_INR; lia). field. lra.
Qed.

Lemma sum_exp_repeat (z : R) (n : nat) :
  tf.sum (map exp (repeat z n)) = INR n * exp z.
Proof.
  induction n as [|n IH]; cbn [repeat map].
  - rewrite sum_nil. cbn. lra.
  - rewrite sum_cons, IH, S_INR. lra.
Qed.

Lemma nth_repeat_lt {X} (x d : X) (n k : nat) :
  (k < n)%nat -> nth k (repeat x n) d = x.
Proof.
  revert k. induction n as [|n IH]; intros [|k] Hk; cbn; try lia; auto.
  apply IH. lia.
Qed.

Lemma row_cost_uniform (z : R) (C class : nat) :
  (class < C)%nat ->
  tf.softmax_cross_entropy_row (tf.one_hot_row C class) (repeat z C) = ln (INR C).
Proof.
  intros Hk.
  assert (L : List.length (repeat z C) = C) by apply repeat_length.
  rewrite <- L at 1. rewrite softmax_cross_entropy_one_hot by lia.
  rewrite nth_softmax by lia. rewrite (nth_repeat_lt z 0 C class Hk), sum_exp_repeat.
  assert (HC : 0 < INR C) by (apply lt_0_INR; lia).
  pose proof (exp_pos z) as Hz.
  replace (exp z / (INR C * exp z)) with (/ INR C) by (field; lra).
  rewrite ln_Rinv by assumption. lra.
Qed.

(** When every pixel gives all its classes the same score, the loss
    against one-hot labels is [ln C] for [C] classes, whatever the scores
    and the labels are: what an untrained head of equal scores shows. *)
Theorem optimize_loss_uniform_scores
  network hm lab lr (num_classes : Z) (vh vl : tf.value) (B H W C : nat) :
  tf.eval network hm = Some vh -> tf.eval network lab = Some vl ->
  np.shape vh = [B; H; W; C] -> np.wf vh = true ->
  np.shape vl = [B; H; W; C] -> np.wf vl = true ->
  num_classes = Z.of_nat C -> (1 <= C)%nat -> (1 <= B * H * W)%nat ->
  Forall tf.is_one_hot (np.pixel_rows vl) ->
  Forall (fun row => exists z, row = repeat z C) (np.pixel_rows vh) ->
  tf.eval network (snd (optimize hm lab lr num_classes))
  = Some (tf.scalar (ln (INR C))).
Proof.
  intros Eh El Sh Wh Sl Wl -> HC Hn Hhot Huni.
  destruct (eval_loss_head network hm lab vh vl B H W C Eh El Sh Wh Sl Wl HC Hn)
    as (_ & _ & Lc & Hloss).
  destruct (pixel_rows_spec vl B H W C Sl Wl) as (_ & _ & Al & _).
  cbn [optimize snd]. unfold tf.reduce_mean, tf.nn.softmax_cross_entropy_with_logits,
    tf.reshape. rewrite Hloss. do 2 f_equal.
  apply mean_const; [exact Lc | exact Hn |].
  apply (Forall_zip_with _ (fun y => tf.is_one_hot y /\ List.length y = C)
           (fun row => exists z, row = repeat z C)); [| |exact Huni].
  - intros y row [(class & Hk & Hy) Ly] [z ->]. rewrite Hy, Ly.
    apply row_cost_uniform. lia.
  - apply List.Forall_forall. intros y Hy. rewrite List.Forall_forall in Hhot, Al.
    split; auto.
Qed.

Lemma softmax_shift (c : R) (zs : list R) :
  tf.softmax (map (fun z => z + c) zs) = tf.softmax zs.
Proof.
  unfold tf.softmax. rewrite !map_map.
  assert (Hd : tf.sum (map (fun z => exp (z + c)) zs) = exp c * tf.sum (map exp zs)).
  { induction zs as [|z zs IH]; cbn [map]; [rewrite !sum_nil; lra|].
    rewrite !sum_cons, IH, exp_plus. lra. }
  rewrite Hd. destruct zs as [|z0 zs]; [reflexivity|].
  assert (Hs : 0 < tf.sum (map exp (z0 :: zs))) by (apply sum_exp_pos; discriminate).
  apply map_ext. intros z. rewrite exp_plus.
  pose proof (exp_pos c). field. lra.
Qed.

(** The loss does not change when a constant is added to all class scores
    of a pixel, a constant of its own for each pixel. *)
Theorem optimize_loss_shift_invariant
  network hm hm' lab lr (num_classes : Z) (vh vh' vl : tf.value) (B H W C : nat) :
  tf.eval network hm = Some vh -> tf.eval network hm' = Some vh' ->
  tf.eval network lab = Some vl ->
  np.shape vh = [B; H; W; C] -> np.wf vh = true ->
  np.shape vh' = [B; H; W; C] -> np.wf vh' = true ->
  np.shape vl = [B; H; W; C] -> np.wf vl = true ->
  num_classes = Z.of_nat C -> (1 <= C)%nat -> (1 <= B * H * W)%nat ->
  Forall2 (fun row row' => exists c, row' = map (fun z => z + c) row)
    (np.pixel_rows vh) (np.pixel_rows vh') ->
  exists loss_val,
    tf.eval network (snd (optimize hm lab lr num_classes)) = Some (tf.scalar loss_val)
    /\ tf.eval network (snd (optimize hm' lab lr num_classes))
       = Some (tf.scalar loss_val).
Proof.
  intros Eh Eh' El Sh Wh Sh' Wh' Sl Wl -> HC Hn Hshift.
  destruct (eval_loss_head network hm lab vh vl B H W C Eh El Sh Wh Sl Wl HC Hn)
    as (_ & _ & _ & Hloss).
  destruct (eval_loss_head network hm' lab vh' vl B H W C Eh' El Sh' Wh' Sl Wl HC Hn)
    as (_ & _ & _ & Hloss').
  eexists. split; [exact Hloss|].
  cbn [optimize snd]. unfold tf.reduce_mean, tf.nn.softmax_cross_entropy_with_logits,
    tf.reshape. rewrite Hloss'. do 4 f_equal.
  generalize (np.pixel_rows vl). clear -Hshift.
  induction Hshift as [|row row' rows rows' [c ->] _ IH]; intros [|y ys];
    try reflexivity.
  cbn [zip_with]. rewrite IH. f_equal.
  unfold tf.softmax_cross_entropy_row. now rewrite softmax_shift.
Qed.






(** On a batch with no pixel (an empty batch, or images of no height or
    width) the logits are an empty matrix and the mean has nothing to
    average: the loss is no real number. *)
Theorem optimize_loss_undefined_without_pixels
  network hm lab lr (num_classes : Z) (vh vl : tf.value) (B H W C : nat) :
  tf.eval network hm = Some vh -> tf.eval network lab = Some vl ->
  np.shape vh = [B; H; W; C] -> np.wf vh = true ->
  np.shape vl = [B; H; W; C] -> np.wf vl = true ->
  num_classes = Z.of_nat C -> (1 <= C)%nat -> (B * H * W = 0)%nat ->
  tf.eval network (fst (fst (optimize hm lab lr num_classes)))
  = Some (np.mk_array [O; C] (np.Node []))
  /\ tf.eval network (snd (optimize hm lab lr num_classes)) = None.
Proof.
  intros Eh El Sh Wh Sl Wl -> HC Hn.
  destruct (pixel_rows_spec vh B H W C Sh Wh) as (_ & Lh & Ah & _).
  destruct (pixel_rows_spec vl B H W C Sl Wl) as (_ & Ll & Al & _).
  assert (Rh : tf.eval network (tf.Reshape hm [(-1)%Z; Z.of_nat C])
               = Some (np.of_rows C (np.pixel_rows vh))).
  { cbn [tf.eval]. rewrite Eh. cbn [mbind option_bind].
    now apply reshape_value_pixels with (B := B) (H := H) (W := W). }
  assert (Rl : tf.eval network (tf.Reshape lab [(-1)%Z; Z.of_nat C])
               = Some (np.of_rows C (np.pixel_rows vl))).
  { cbn [tf.eval]. rewrite El. cbn [mbind option_bind].
    now apply reshape_value_pixels with (B := B) (H := H) (W := W). }
  assert (Nh : np.pixel_rows vh = []) by (apply length_zero_iff_nil; lia).
  assert (Nl : np.pixel_rows vl = []) by (apply length_zero_iff_nil; lia).
  cbn [optimize fst snd]. unfold tf.reduce_mean,
    tf.nn.softmax_cross_entropy_with_logits, tf.reshape.
  split; [now rewrite Rh, Nh|].
  change (tf.eval network (tf.Mean ?x)) with (tf.eval network x ≫= tf.reduce_mean_value).
  change (tf.eval network (tf.SoftmaxCrossEntropyWithLogits ?l ?z))
    with (vl ← tf.eval network l; vz ← tf.eval network z;
          tf.softmax_cross_entropy_value vl vz).
  rewrite Rh, Rl, Nh, Nl. cbn [mbind option_bind].
  rewrite (softmax_cross_entropy_rows C [] []) by (reflexivity || constructor).
  reflexivity.
Qed.
End LossMore.

(** ** [load_vgg]: what it raises, what it returns, what it reads *)

Section LoadMore.
Context {Session : Type}.
Variable loader_load : Session -> list string -> string -> option loader_exn * Session.
Variable graph_tensor : Session -> string -> option tf.tensor.

Lemma get_tensor_by_name_some sess name t :
  graph_tensor sess name = Some t ->
  get_tensor_by_name graph_tensor sess name = Loaded t.
Proof. intros E. unfold get_tensor_by_name. now rewrite E. Qed.

Lemma get_tensor_by_name_none sess name :
  graph_tensor sess name = None ->
  get_tensor_by_name graph_tensor sess name = LoadFailed (KeyError name).
Proof. intros E. unfold get_tensor_by_name. now rewrite E. Qed.

(** When the loader has done its work, [load_vgg] raises [KeyError] for
    the first of its five names, in the order image input, keep
    probability, layer 3, layer 4, layer 7, that the loaded graph does not
    have; names after it are not looked at.  The session is as the loader
    left it. *)
Theorem load_vgg_raises_first_missing_name sess vgg_path graph before name after :
  loader_load sess ["vgg16"%string] vgg_path = (None, graph) ->
  vgg_tensor_names = before ++ name :: after ->
  Forall (fun n => is_Some (graph_tensor graph n)) before ->
  graph_tensor graph name = None ->
  load_vgg loader_load graph_tensor sess vgg_path
  = (LoadFailed (KeyError name), graph).
Proof.
  intros L Hsplit Hbefore Hname. unfold load_vgg. rewrite L. cbv zeta. f_equal.
  unfold vgg_tensor_names in Hsplit.
  repeat match goal with
  | Hs : _ :: _ = ?b ++ _ :: _, Hb : Forall _ ?b |- _ =>
      destruct b as [|? ?];
      [ cbn [app] in Hs; injection Hs as Hs _; subst name
      | cbn [app] in Hs; injection Hs as <- Hs;
        apply List.Forall_cons_iff in Hb; destruct Hb as [[? Hb1] Hb];
        rewrite (get_tensor_by_name_some _ _ _ Hb1); clear Hb1;
        cbn [mbind loaded_bind] ]
  | Hs : [] = ?b ++ _ :: _ |- _ => now destruct b
  end.
  all: now rewrite (get_tensor_by_name_none _ _ Hname).
Qed.

(** [load_vgg] returns its five tensors exactly when the loader does not
    raise and the loaded graph has all five names; what it returns is
    what the graph has under them, in the order image input, keep
    probability, layer 3, layer 4, layer 7.  In every case the session is
    as the loader left it. *)
Theorem load_vgg_returns_iff_all_present sess vgg_path :
  let after_load := loader_load sess ["vgg16"%string] vgg_path in
  let outcome := load_vgg loader_load graph_tensor sess vgg_path in
  snd outcome = snd after_load
  /\ forall image_input keep_prob layer3_out layer4_out layer7_out,
       fst outcome = Loaded (image_input, keep_prob, layer3_out, layer4_out, layer7_out)
       <-> fst after_load = None
           /\ map (graph_tensor (snd after_load)) vgg_tensor_names
              = [Some image_input; Some keep_prob; Some layer3_out;
                 Some layer4_out; Some layer7_out].
Proof.
  intros after_load outcome. subst after_load outcome. unfold load_vgg.
  destruct (loader_load sess ["vgg16"%string] vgg_path) as [[e|] graph];
    cbn [fst snd]; (split; [reflexivity|]); intros a b c d e'.
  { split; [discriminate | intros [? _]; discriminate]. }
  unfold get_tensor_by_name, vgg_tensor_names. cbn [map].
  destruct (graph_tensor graph "image_input:0") as [t1|];
    cbn [mbind loaded_bind]; [|split; [discriminate | intros [_ ?]; discriminate]].
  destruct (graph_tensor graph "keep_prob:0") as [t2|];
    cbn [mbind loaded_bind]; [|split; [discriminate | intros [_ ?]; discriminate]].
  destruct (graph_tensor graph "layer3_out:0") as [t3|];
    cbn [mbind loaded_bind]; [|split; [discriminate | intros [_ ?]; discriminate]].
  destruct (graph_tensor graph "layer4_out:0") as [t4|];
    cbn [mbind loaded_bind]; [|split; [discriminate | intros [_ ?]; discriminate]].
  destruct (graph_tensor graph "layer7_out:0") as [t5|];
    cbn [mbind loaded_bind mret loaded_ret];
    [|split; [discriminate | intros [_ ?]; discriminate]].
  split.
  - intros E. injection E as <- <- <- <- <-. now split.
  - intros [_ E]. injection E as <- <- <- <- <-. reflexivity.
Qed.
End LoadMore.

(** [load_vgg] looks at the loaded graph under its five names only: two
    graphs that agree on them give the same outcome. *)
Theorem load_vgg_reads_only_its_names {Session : Type}
  (loader_load : Session -> list string -> string -> option loader_exn * Session)
  (graph1 graph2 : Session -> string -> option tf.tensor) sess vgg_path :
  (forall s, Forall (fun n => graph1 s n = graph2 s n) vgg_tensor_names) ->
  load_vgg loader_load graph1 sess vgg_path
  = load_vgg loader_load graph2 sess vgg_path.
Proof.
  intros Agree. unfold load_vgg.
  destruct (loader_load sess ["vgg16"%string] vgg_path) as [[e|] graph];
    [reflexivity|].
  specialize (Agree graph). unfold vgg_tensor_names in Agree.
  repeat (apply List.Forall_cons_iff in Agree; destruct Agree as [? Agree]).
  unfold get_tensor_by_name.
  repeat match goal with H : graph1 _ _ = graph2 _ _ |- _ => rewrite H; clear H end.
  reflexivity.
Qed.

(** ** From the decoder to the loss head *)

Section PipelineMore.
Variable fed : string -> option (list nat).

Lemma prod_pixels_classes (N H W C : nat) :
  np.prod [N; H; W; C] = (N * H * W * C)%nat.
Proof. cbn [np.prod fold_right]. lia. Qed.

Lemma shape_logits x (num_classes : Z) (N H W : nat) :
  (1 <= num_classes)%Z ->
  tf.shape_of fed x = Some [N; H; W; Z.to_nat num_classes] ->
  tf.shape_of fed (tf.reshape x [(-1)%Z; num_classes])
  = Some [(N * H * W)%nat; Z.to_nat num_classes].
Proof.
  intros Hn Hx. cbn [tf.reshape tf.shape_of]. rewrite Hx.
  cbn [mbind option_bind]. rewrite prod_pixels_classes.
  rewrite <- (Z2Nat.id num_classes) at 1 by lia.
  apply resolve_shape_rows. lia.
Qed.

(** The heat-map of [layers] goes through [optimize]: for feature maps at
    the three resolutions of the backbone and labels of any four axes
    whose last has [num_classes] entries, the logits have one row per
    pixel of the heat-map, and the loss is the mean of a tensor with one
    cost per pixel, provided the labels have as many pixels as the
    heat-map; otherwise that tensor has no shape.  Only the number of
    pixels of the labels is compared, not their height and width. *)
Theorem layers_heatmap_through_optimize
  l3 l4 l7 target lr (num_classes : Z) (N h w c3 c4 c7 N' H' W' : nat) :
  tf.shape_of fed l3 = Some [N; 4 * h; 4 * w; c3] ->
  tf.shape_of fed l4 = Some [N; 2 * h; 2 * w; c4] ->
  tf.shape_of fed l7 = Some [N; h; w; c7] ->
  tf.shape_of fed target = Some [N'; H'; W'; Z.to_nat num_classes] ->
  (1 <= num_classes)%Z ->
  let pixels := N * (32 * h) * (32 * w) in
  let '(logits, _, loss) :=
    optimize (layers l3 l4 l7 num_classes) target lr num_classes in
  tf.shape_of fed logits = Some [pixels; Z.to_nat num_classes]
  /\ exists xentropy,
       loss = tf.reduce_mean xentropy
       /\ tf.shape_of fed xentropy
          = if Nat.eqb (N' * H' * W') pixels then Some [pixels] else None.
Proof.
  intros H3 H4 H7 Ht Hn pixels. cbn [optimize].
  assert (Hm : tf.shape_of fed (layers l3 l4 l7 num_classes)
               = Some [N; 32 * h; 32 * w; Z.to_nat num_classes]).
  { rewrite layers_decoder_steps.
    apply (decoder_stage_shapes fed l3 l4 l7 num_classes N h w c3 c4 c7);
      try assumption; lia. }
  pose proof (shape_logits _ num_classes _ _ _ Hn Hm) as Sz.
  pose proof (shape_logits _ num_classes _ _ _ Hn Ht) as Sl.
  split; [exact Sz|].
  eexists. split; [reflexivity|].
  cbn [tf.nn.softmax_cross_entropy_with_logits tf.shape_of].
  rewrite Sz, Sl. cbn [mbind option_bind]. fold pixels.
  destruct (Nat.eqb_spec (N' * H' * W') pixels) as [E|E].
  - rewrite E, bool_decide_eq_true_2 by reflexivity. reflexivity.
  - rewrite bool_decide_eq_false_2; [reflexivity|].
    intros Heq. injection Heq as Heq. contradiction.
Qed.
End PipelineMore.

(** ** The further properties at the test data *)

Lemma augment_data_outcome_witness :
  augment_data scenario_images flat_labels = Raise IndexError
  /\ augment_data scenario_images scenario_labels
     = Ok (tripled scenario_images, tripled scenario_labels).
Proof.
  pose proof (augment_data_outcome scenario_images flat_labels) as Hbad.
  pose proof (augment_data_outcome scenario_images scenario_labels) as Hgood.
  destruct (augment_data scenario_images flat_labels) as [[ai ag]|e].
  - destruct Hbad as (_ & Hg & _). cbn in Hg. lia.
  - destruct Hbad as [-> _]. split; [reflexivity|].
    destruct (augment_data scenario_images scenario_labels) as [[ai ag]|e].
    + destruct Hgood as (_ & _ & -> & ->). reflexivity.
    + destruct Hgood as [_ [Hi|Hg]]; cbn in *; lia.
Defined.

Lemma flips_commute_witness :
  exists hf_images vf_images both,
    np.getitem4_rev 2 scenario_images = Ok hf_images
    /\ np.getitem4_rev 1 scenario_images = Ok vf_images
    /\ np.getitem4_rev 1 vf_images = Ok scenario_images
    /\ np.getitem4_rev 1 hf_images = Ok both
    /\ np.getitem4_rev 2 vf_images = Ok both.
Proof. apply (flips_commute scenario_images). cbn. lia. Defined.

Lemma augment_data_pixels_witness :
  exists aug_images aug_gt_images,
    augment_data scenario_images scenario_labels = Ok (aug_images, aug_gt_images)
    /\ np.item [0; 1; 2] (np.elems aug_images)
       = np.item [0; 4 - 1 - 1; 2] (np.elems scenario_images)
    /\ np.item [2 * 1 + 0; 1; 2] (np.elems aug_images)
       = np.item [0; 1; 4 - 1 - 2] (np.elems scenario_images).
Proof.
  destruct (augment_data_pixels scenario_images scenario_labels 1 4 4 3 2 [] []
              0 1 2 eq_refl eq_refl eq_refl eq_refl
              ltac:(lia) ltac:(lia) ltac:(lia))
    as (ai & ag & Hrun & Hv & _ & Hh & _).
  exists ai, ag. repeat split; assumption.
Defined.

Lemma augment_data_rearranges_witness :
  exists aug_images aug_gt_images,
    augment_data scenario_images scenario_labels = Ok (aug_images, aug_gt_images)
    /\ Permutation (np.ravel_items (np.elems aug_images))
         (np.ravel_items (np.elems scenario_images)
          ++ np.ravel_items (np.elems scenario_images)
          ++ np.ravel_items (np.elems scenario_images)).
Proof.
  destruct (augment_data_rearranges scenario_images scenario_labels
              ltac:(cbn; lia) eq_refl ltac:(cbn; lia) eq_refl)
    as (ai & ag & Hrun & Hi & _).
  exists ai, ag. split; assumption.
Defined.

Lemma train_nn_no_epochs_witness :
  train_nn counting_session scenario_batches (-3) 4
    the_train_op the_loss the_input_image the_correct_label the_keep_prob
    the_learning_rate fresh_world
  = (Ok tt, fresh_world).
Proof.
  apply (train_nn_no_epochs counting_session scenario_batches 4
           the_train_op the_loss the_input_image the_correct_label
           the_keep_prob the_learning_rate (-3) fresh_world).
  lia.
Defined.

Lemma train_nn_stops_at_first_bad_batch_witness :
  exists (ls : list nat) s evs,
    List.length ls = 1
    /\ train_nn counting_session half_broken_batches 2 4
         the_train_op the_loss the_input_image the_correct_label the_keep_prob
         the_learning_rate fresh_world
       = (Raise IndexError, mk_world s tt evs)
    /\ run_feeds evs
       = [feed_for the_input_image the_correct_label the_keep_prob
            the_learning_rate (tripled scenario_images, tripled scenario_labels)].
Proof.
  destruct (train_nn_stops_at_first_bad_batch counting_session
              half_broken_batches 4
              the_train_op the_loss the_input_image the_correct_label
              the_keep_prob the_learning_rate 2 fresh_world
              [(scenario_images, scenario_labels)] []
              (scenario_images, flat_labels) tt)
    as (ls & s & Hlen & Hrun & _ & Hfeeds).
  - lia.
  - reflexivity.
  - constructor; [|constructor]. unfold rank_compatible. cbn. lia.
  - reflexivity.
  - cbn. lia.
  - exists ls, s. eexists. split; [exact Hlen|]. split; [exact Hrun|].
    refine (eq_trans _ (eq_trans Hfeeds _)); reflexivity.
Defined.

Lemma train_nn_trace_invariants_witness :
  exists evs,
    trace (snd (train_nn counting_session half_broken_batches 2 4
                  the_train_op the_loss the_input_image the_correct_label
                  the_keep_prob the_learning_rate fresh_world))
    = evs
    /\ Forall (event_ok 4 2 the_train_op the_loss the_input_image
                 the_correct_label the_keep_prob the_learning_rate) evs
    /\ lines_follow_steps evs.
Proof.
  destruct (train_nn_trace_invariants counting_session half_broken_batches 4
              the_train_op the_loss the_input_image the_correct_label
              the_keep_prob the_learning_rate 2 fresh_world)
    as (_ & evs & Htr & Hok & Hlines).
  exists evs. repeat split; assumption.
Defined.

Lemma train_nn_threads_state_witness :
  exists w' evs,
    train_nn counting_session counted_batches 2 4
      the_train_op the_loss the_input_image the_correct_label the_keep_prob
      the_learning_rate counted_world
    = (Ok tt, w')
    /\ trace w' = evs
    /\ source w' = source_after counted_batches 4 (Z.to_nat 2) O
    /\ session w' = session_after counting_session the_train_op the_loss
                      (run_feeds evs) O
    /\ run_losses evs = losses_of counting_session the_train_op the_loss
                          (run_feeds evs) O.
Proof.
  destruct (train_nn_threads_state counting_session counted_batches 4
              the_train_op the_loss the_input_image the_correct_label
              the_keep_prob the_learning_rate 2 counted_world)
    as (w' & evs & Hrun & Htr & _ & Hsrc & _ & Hsess & Hloss).
  - intros src. constructor; [|constructor].
    unfold rank_compatible. cbn. lia.
  - exists w', evs. repeat split; assumption.
Defined.

Lemma layers_accepts_iff_witness :
  tf.shape_of kitti_feature_shapes
    (layers (tf.Placeholder "layer3_out:0") (tf.Placeholder "layer4_out:0")
       (tf.Placeholder "layer7_out:0") 2)
  = Some [1; 32 * 5; 32 * 18; Z.to_nat 2]
  /\ tf.shape_of kitti_feature_shapes
       (layers (tf.Placeholder "layer4_out:0") (tf.Placeholder "layer4_out:0")
          (tf.Placeholder "layer7_out:0") 2)
     = None.
Proof.
  split.
  - exact (layers_accepts_iff kitti_feature_shapes
             (tf.Placeholder "layer3_out:0") (tf.Placeholder "layer4_out:0")
             (tf.Placeholder "layer7_out:0") 2 1 5 18 20 72 10 36 256 512 4096
             eq_refl eq_refl eq_refl ltac:(lia)).
  - exact (layers_accepts_iff kitti_feature_shapes
             (tf.Placeholder "layer4_out:0") (tf.Placeholder "layer4_out:0")
             (tf.Placeholder "layer7_out:0") 2 1 5 18 10 36 10 36 512 512 4096
             eq_refl eq_refl eq_refl ltac:(lia)).
Defined.

Lemma layers_rejects_witness :
  tf.shape_of kitti_feature_shapes
    (layers (tf.Placeholder "image_input:0") (tf.Placeholder "layer4_out:0")
       (tf.Placeholder "layer7_out:0") 2)
  = None
  /\ tf.shape_of kitti_feature_shapes
       (layers (tf.Placeholder "layer3_out:0") (tf.Placeholder "layer4_out:0")
          (tf.Placeholder "layer7_out:0") (-1))
     = None.
Proof.
  split.
  - apply (layers_rejects kitti_feature_shapes).
    left. intros N H W C. cbn. discriminate.
  - apply (layers_rejects kitti_feature_shapes).
    right; right; right. lia.
Defined.

Lemma optimize_logits_rows_witness :
  tf.eval demo_network
    (fst (fst (optimize (tf.Placeholder "better_heatmap") (tf.Placeholder "labels")
                 (tf.Placeholder "learning_rate") 2)))
  = Some (np.of_rows 2 [[1%R; 0%R]; [0%R; 0%R]])
  /\ tf.eval demo_network
       (fst (fst (optimize (tf.Placeholder "better_heatmap") (tf.Placeholder "labels")
                    (tf.Placeholder "learning_rate") 3)))
     = None.
Proof.
  split.
  - exact (optimize_logits_rows demo_network
             (tf.Placeholder "better_heatmap") (tf.Placeholder "labels")
             (tf.Placeholder "learning_rate") 2 demo_better_scores eq_refl).
  - exact (optimize_logits_rows demo_network
             (tf.Placeholder "better_heatmap") (tf.Placeholder "labels")
             (tf.Placeholder "learning_rate") 3 demo_better_scores eq_refl).
Defined.

Lemma optimize_loss_uniform_scores_witness :
  tf.eval demo_network
    (snd (optimize (tf.Placeholder "heatmap") (tf.Placeholder "labels")
            (tf.Placeholder "learning_rate") (Z.of_nat 2)))
  = Some (tf.scalar (ln (INR 2))).
Proof.
  apply (optimize_loss_uniform_scores demo_network
           (tf.Placeholder "heatmap") (tf.Placeholder "labels")
           (tf.Placeholder "learning_rate") (Z.of_nat 2)
           demo_scores demo_labels 1 1 2 2
           eq_refl eq_refl eq_refl eq_refl eq_refl eq_refl eq_refl
           ltac:(lia) ltac:(cbn; lia)).
  - constructor; [exists 0; split; [cbn; lia | reflexivity]|].
    constructor; [exists 1; split; [cbn; lia | reflexivity]|].
    constructor.
  - constructor; [exists 0%R; reflexivity|].
    constructor; [exists 0%R; reflexivity|].
    constructor.
Defined.

Lemma optimize_loss_shift_invariant_witness :
  exists loss_val : R,
    tf.eval demo_network_more
      (snd (optimize (tf.Placeholder "heatmap") (tf.Placeholder "labels")
              (tf.Placeholder "learning_rate") (Z.of_nat 2)))
    = Some (tf.scalar loss_val)
    /\ tf.eval demo_network_more
         (snd (optimize (tf.Placeholder "shifted_heatmap") (tf.Placeholder "labels")
                 (tf.Placeholder "learning_rate") (Z.of_nat 2)))
       = Some (tf.scalar loss_val).
Proof.
  apply (optimize_loss_shift_invariant demo_network_more
           (tf.Placeholder "heatmap") (tf.Placeholder "shifted_heatmap")
           (tf.Placeholder "labels") (tf.Placeholder "learning_rate") (Z.of_nat 2)
           demo_scores demo_shifted_scores demo_labels 1 1 2 2
           eq_refl eq_refl eq_refl eq_refl eq_refl eq_refl eq_refl eq_refl eq_refl
           eq_refl ltac:(lia) ltac:(cbn; lia)).
  constructor.
  { exists 3%R. change ([3; 3] = [0 + 3; 0 + 3])%R. now rewrite !Rplus_0_l. }
  constructor; [|constructor].
  exists (-1)%R. change ([-1; -1] = [0 + -1; 0 + -1])%R. now rewrite !Rplus_0_l.
Defined.



Lemma optimize_loss_undefined_without_pixels_witness :
  tf.eval demo_network_more
    (fst (fst (optimize (tf.Placeholder "no_image") (tf.Placeholder "no_image")
                 (tf.Placeholder "learning_rate") (Z.of_nat 2))))
  = Some (np.mk_array [O; 2] (np.Node []))
  /\ tf.eval demo_network_more
       (snd (optimize (tf.Placeholder "no_image") (tf.Placeholder "no_image")
               (tf.Placeholder "learning_rate") (Z.of_nat 2)))
     = None.
Proof.
  apply (optimize_loss_undefined_without_pixels demo_network_more
           (tf.Placeholder "no_image") (tf.Placeholder "no_image")
           (tf.Placeholder "learning_rate") (Z.of_nat 2)
           demo_no_image demo_no_image 0 1 2 2
           eq_refl eq_refl eq_refl eq_refl eq_refl eq_refl eq_refl
           ltac:(lia) eq_refl).
Defined.

Lemma load_vgg_raises_first_missing_name_witness :
  load_vgg (loader_of vgg_graph_without_layer4) lookup_tensor [] "./data/vgg"
  = (LoadFailed (KeyError "layer4_out:0"), [] ++ vgg_graph_without_layer4).
Proof.
  apply (load_vgg_raises_first_missing_name
           (loader_of vgg_graph_without_layer4) lookup_tensor [] "./data/vgg"
           ([] ++ vgg_graph_without_layer4)
           ["image_input:0"%string; "keep_prob:0"%string; "layer3_out:0"%string]
           "layer4_out:0" ["layer7_out:0"%string]).
  - reflexivity.
  - reflexivity.
  - repeat constructor; eexists; reflexivity.
  - reflexivity.
Defined.

Lemma load_vgg_returns_iff_all_present_witness :
  load_vgg (loader_of vgg_graph) lookup_tensor [] "./data/vgg"
  = (Loaded (tf.Placeholder "image_input:0", tf.Placeholder "keep_prob:0",
             tf.Placeholder "layer3_out:0", tf.Placeholder "layer4_out:0",
             tf.Placeholder "layer7_out:0"),
     [] ++ vgg_graph).
Proof.
  destruct (load_vgg_returns_iff_all_present (loader_of vgg_graph) lookup_tensor
              [] "./data/vgg") as [Hsess Hiff].
  apply injective_projections; [|exact Hsess].
  apply Hiff. split; reflexivity.
Defined.

Lemma load_vgg_reads_only_its_names_witness :
  load_vgg (loader_of vgg_graph) lookup_tensor [] "./data/vgg"
  = load_vgg (loader_of vgg_graph)
      (fun sess name =>
         if String.eqb name "logits:0" then Some (tf.Placeholder "logits:0")
         else lookup_tensor sess name)
      [] "./data/vgg".
Proof.
  apply (load_vgg_reads_only_its_names (loader_of vgg_graph)).
  intros s. repeat constructor.
Defined.

Lemma layers_heatmap_through_optimize_witness :
  let pixels := 1 * (32 * 5) * (32 * 18) in
  let '(logits, _, loss) :=
    optimize
      (layers (tf.Placeholder "layer3_out:0") (tf.Placeholder "layer4_out:0")
         (tf.Placeholder "layer7_out:0") 2)
      (tf.Placeholder "correct_label") (tf.Placeholder "learning_rate") 2 in
  tf.shape_of kitti_run_shapes logits = Some [pixels; Z.to_nat 2]
  /\ exists xentropy,
       loss = tf.reduce_mean xentropy
       /\ tf.shape_of kitti_run_shapes xentropy
          = if Nat.eqb (1 * 160 * 576) pixels then Some [pixels] else None.
Proof.
  exact (layers_heatmap_through_optimize kitti_run_shapes
           (tf.Placeholder "layer3_out:0") (tf.Placeholder "layer4_out:0")
           (tf.Placeholder "layer7_out:0")
           (tf.Placeholder "correct_label") (tf.Placeholder "learning_rate")
           2 1 5 18 256 512 4096 1 160 576
           eq_refl eq_refl eq_refl eq_refl ltac:(lia)).
Defined.
